(** * m_sasl: the SASL relay module of ircd-hybrid, embedded and verified

    The development follows [docker/m_sasl.c].  The module keeps a
    static table of 256 [sasl_session] slots and reacts to four commands
    (AUTHENTICATE from unregistered clients; SASL, SVSLOGIN and MECHLIST
    through the ENCAP dispatcher) and to the local client-exit hook.

    The host daemon (client records, the UID hash, the UID generator, the
    capability registry, the send primitives) is not part of the module;
    it is represented by the [Host] record below and by the [Output]
    values a handler produces.  Strings are C strings: the type [string]
    stands for the bytes before the terminating NUL. *)

From Stdlib Require Import ZArith Ascii String.
From stdpp Require Import gmap strings list.

(** ** The host daemon as the module sees it *)

Module Host.

(** A [struct Client *].  [NULL] is address 0. *)
Definition ClientPtr := N.
Definition NULL : ClientPtr := 0%N.

(** The fields of [struct Client] the module reads or writes.  [cap] is the
    capability mask of the connection ([HasCap]), [flags] the client flags
    ([HasFlag]), [server] what [IsServer] tests and [local] what
    [MyConnect] tests. *)
Record Client := mkClient {
  name : string;
  id : string;
  username : string;
  host : string;
  sockhost : string;
  account : string;
  cap : Z;
  flags : Z;
  server : bool;
  local : bool
}.

(** Constants of the host's headers that [m_sasl.c] uses but does not
    define: [IDLEN], the sizes of the character arrays of [struct Client]
    and the [FLAGS_SERVICE] bit. *)
Record Consts := mkConsts {
  IDLEN : nat;
  sizeof_id : nat;
  sizeof_account : nat;
  sizeof_host : nat;
  sizeof_username : nat;
  FLAGS_SERVICE : Z
}.

(** Host state: the client records by (non-null) address, the UID hash
    ([hash_find_id] / [hash_add_id]), the UIDs [uid_get] is going to
    return, [me.id], the capability registry and the monotonic clock. *)
Record t := mkHost {
  clients : gmap positive Client;
  id_hash : gmap string N;
  uid_seq : list string;
  me_id : string;
  caps : gmap string (Z * option string);
  now : Z
}.

Definition HasCap (c : Client) (bit : Z) : bool :=
  negb (Z.land (cap c) bit =? 0)%Z.

Definition HasFlag (c : Client) (bit : Z) : bool :=
  negb (Z.land (flags c) bit =? 0)%Z.

Definition IsServer (c : Client) : bool := server c.

Definition MyConnect (c : Client) : bool := local c.

(** Modelled from the spec: the host's identity lookup [hash_find_id]
    ([hash.c], absent from the module): the client registered under a UID,
    [NULL] if none. *)
Definition hash_find_id (h : t) (uid : string) : ClientPtr :=
  default NULL (id_hash h !! uid).

(** [strlcpy(dst, src, size)]: at most [size - 1] bytes of [src] end up in
    [dst]; with [size = 0] the destination is not touched. *)
Definition strlcpy (dst src : string) (size : nat) : string :=
  match size with
  | O => dst
  | S n => String.substring 0 n src
  end.

(** [string_is_empty]. *)
Definition string_is_empty (s : string) : bool := String.eqb s EmptyString.

(** First byte of a C string; the terminating NUL for the empty string. *)
Definition char0 (s : string) : ascii :=
  match s with
  | String c _ => c
  | EmptyString => Ascii.zero
  end.

(** Modelled from the spec: the capability registry of the host ([cap.c],
    absent from the module).  [cap_register] publishes a capability under
    its name with an optional value, replacing an earlier registration of
    the same name; [cap_unregister] removes it. *)
Definition cap_register (h : t) (flag : Z) (cname : string)
    (value : option string) : t :=
  mkHost (clients h) (id_hash h) (uid_seq h) (me_id h)
         (<[cname := (flag, value)]> (caps h)) (now h).

Definition cap_unregister (h : t) (cname : string) : t :=
  mkHost (clients h) (id_hash h) (uid_seq h) (me_id h)
         (delete cname (caps h)) (now h).

Definition set_clients (h : t) (cs : gmap positive Client) : t :=
  mkHost cs (id_hash h) (uid_seq h) (me_id h) (caps h) (now h).

Definition set_account (c : Client) (v : string) : Client :=
  mkClient (name c) (id c) (username c) (host c) (sockhost c) v
           (cap c) (flags c) (server c) (local c).

Definition set_host (c : Client) (v : string) : Client :=
  mkClient (name c) (id c) (username c) v (sockhost c) (account c)
           (cap c) (flags c) (server c) (local c).

Definition set_username (c : Client) (v : string) : Client :=
  mkClient (name c) (id c) v (host c) (sockhost c) (account c)
           (cap c) (flags c) (server c) (local c).

Definition set_id (c : Client) (v : string) : Client :=
  mkClient (name c) v (username c) (host c) (sockhost c) (account c)
           (cap c) (flags c) (server c) (local c).

(** Reading through a client pointer; [None] when the pointer is [NULL] or
    does not point to a client record. *)
Definition deref (h : t) (p : ClientPtr) : option Client :=
  match p with
  | N0 => None
  | Npos a => clients h !! a
  end.

(** A write through a client pointer, under the same condition. *)
Definition write_client (h : t) (p : ClientPtr) (f : Client → Client)
    : option t :=
  match p with
  | N0 => None
  | Npos a =>
      c ← clients h !! a;
      Some (set_clients h (<[a := f c]> (clients h)))
  end.

(** Outgoing traffic: [sendto_servers(NULL, 0, 0, ...)] with the formatted
    line, [sendto_one_numeric(to, &me, n | SND_EXPLICIT, ...)] with the
    formatted body, and [sendto_one(to, ...)] with the formatted line. *)
Inductive Output :=
| ToServers (line : string)
| Numeric (to : ClientPtr) (numeric : Z) (body : string)
| ToOne (to : ClientPtr) (line : string).

End Host.

Import Host.

(** ** The module: [m_sasl.c] *)

Module Sasl.

(** [#define CAP_SASL (1 << 9)] and the limits. *)
Definition CAP_SASL : Z := Z.shiftl 1 9.
Definition SASL_MAX_SESSIONS : nat := 256.
Definition SASL_MAX_MESSAGES : Z := 20.
Definition SASL_MAX_FAILURES : Z := 3.

(** [++x] on an [unsigned int]. *)
Definition uint_incr (x : Z) : Z := ((x + 1) mod 2 ^ 32)%Z.

(** [struct sasl_session]. *)
Record sasl_session := mkSession {
  client : ClientPtr;
  agent : string;
  messages : Z;
  failures : Z;
  start_time : Z;
  complete : bool
}.

(** What [memset(session, 0, ...)] leaves in a slot. *)
Definition session_zero : sasl_session :=
  mkSession NULL EmptyString 0 0 0 false.

Definition set_client (s : sasl_session) (v : ClientPtr) : sasl_session :=
  mkSession v (agent s) (messages s) (failures s) (start_time s) (complete s).

Definition set_start_time (s : sasl_session) (v : Z) : sasl_session :=
  mkSession (client s) (agent s) (messages s) (failures s) v (complete s).

Definition set_agent (s : sasl_session) (v : string) : sasl_session :=
  mkSession (client s) v (messages s) (failures s) (start_time s) (complete s).

Definition set_messages (s : sasl_session) (v : Z) : sasl_session :=
  mkSession (client s) (agent s) v (failures s) (start_time s) (complete s).

Definition set_failures (s : sasl_session) (v : Z) : sasl_session :=
  mkSession (client s) (agent s) (messages s) v (start_time s) (complete s).

Definition set_complete (s : sasl_session) (v : bool) : sasl_session :=
  mkSession (client s) (agent s) (messages s) (failures s) (start_time s) v.

(** The state the handlers run in: the host and the static array
    [sessions[SASL_MAX_SESSIONS]], a list of 256 slots. *)
Record State := mkState {
  env : Host.t;
  sessions : list sasl_session
}.

(** [sasl_find_session]: the first slot whose [client] is the given pointer,
    as its index and content. *)
Definition sasl_find_session (ss : list sasl_session) (c : ClientPtr)
    : option (nat * sasl_session) :=
  list_find (λ s, client s = c) ss.

(** [sasl_new_session]: the first free slot is zeroed and bound to the
    client, with the current monotonic time. *)
Definition sasl_new_session (ss : list sasl_session) (c : ClientPtr)
    (time : Z) : option (nat * list sasl_session) :=
  match list_find (λ s, client s = NULL) ss with
  | Some (i, _) =>
      Some (i, <[i := set_start_time (set_client session_zero c) time]> ss)
  | None => None
  end.

(** [sasl_clear_session]. *)
Definition sasl_clear_session (ss : list sasl_session) (i : nat)
    : list sasl_session :=
  <[i := session_zero]> ss.

Definition set_sessions (st : State) (ss : list sasl_session) : State :=
  mkState (env st) ss.

Section Handlers.

Context (K : Host.Consts).

(** The loop [while (hash_find_id((id = uid_get())));] over the UIDs the
    generator yields: the first one not in the hash, and what the generator
    has left.  [None] when every UID in sight is taken (the C loop keeps
    spinning). *)
Fixpoint uid_loop (h : Host.t) (pending : list string)
    : option (string * list string) :=
  match pending with
  | [] => None
  | uid :: rest =>
      if decide (hash_find_id h uid = NULL) then Some (uid, rest)
      else uid_loop h rest
  end.

(** The line [":%s ENCAP * SASL %s %s D A"]. *)
Definition abort_line (h : Host.t) (uid ag : string) : string :=
  ":" +:+ me_id h +:+ " ENCAP * SASL " +:+ uid +:+ " " +:+ ag +:+ " D A".

(** [sasl_client_exit_hook].  The client record is only read when the
    session has an agent ([&&] evaluates left to right). *)
Definition sasl_client_exit_hook (st : State) (c : ClientPtr)
    : option (State * list Output) :=
  match sasl_find_session (sessions st) c with
  | Some (i, s) =>
      out ← (if decide (agent s = EmptyString) then Some []
             else cl ← deref (env st) c;
                  Some (if decide (id cl = EmptyString) then []
                        else [ToServers (abort_line (env st) (id cl) (agent s))]));
      Some (set_sessions st (sasl_clear_session (sessions st) i), out)
  | None => Some (st, [])
  end.

(** The early UID assignment of [mr_authenticate]. *)
Definition assign_uid (h : Host.t) (source : ClientPtr) (src : Client)
    : option (Host.t * Client) :=
  if decide (id src = EmptyString) then
    '(uid, rest) ← uid_loop h (uid_seq h);
    let src' := set_id src (strlcpy (id src) uid (sizeof_id K)) in
    h ← write_client h source (λ _, src');
    Some (mkHost (clients h) (<[id src' := source]> (id_hash h))
                 rest (me_id h) (caps h) (now h), src')
  else Some (h, src).

(** [mr_authenticate]: AUTHENTICATE from an unregistered client. *)
Definition mr_authenticate (st : State) (source : ClientPtr)
    (parv : list string) : option (State * list Output) :=
  src ← deref (env st) source;
  if negb (HasCap src CAP_SASL) then Some (st, []) else
  p1 ← parv !! 1%nat;
  if decide (p1 = "*") then
    let aborted :=
      Numeric source 906 (name src +:+ " :SASL authentication aborted") in
    match sasl_find_session (sessions st) source with
    | Some (i, s) =>
        Some (set_sessions st (sasl_clear_session (sessions st) i),
              (if decide (agent s ≠ EmptyString ∧ id src ≠ EmptyString)
               then [ToServers (abort_line (env st) (id src) (agent s))]
               else []) ++ [aborted])
    | None => Some (st, [aborted])
    end
  else
    '(h, src) ← assign_uid (env st) source src;
    match sasl_find_session (sessions st) source with
    | None =>
        match sasl_new_session (sessions st) source (now h) with
        | None =>
            Some (mkState h (sessions st),
                  [Numeric source 904
                     (name src +:+ " :SASL authentication failed")])
        | Some (_, ss) =>
            Some (mkState h ss,
                  [ToServers (":" +:+ me_id h +:+ " ENCAP * SASL " +:+ id src
                              +:+ " * H " +:+ host src +:+ " "
                              +:+ sockhost src);
                   ToServers (":" +:+ me_id h +:+ " ENCAP * SASL " +:+ id src
                              +:+ " * S " +:+ p1)])
        end
    | Some (i, s) =>
        let s := set_messages s (uint_incr (messages s)) in
        let ss := <[i := s]> (sessions st) in
        if (SASL_MAX_MESSAGES <? messages s)%Z then
          Some (mkState h (sasl_clear_session ss i),
                Numeric source 904
                  (name src +:+ " :SASL message limit exceeded")
                :: (if decide (agent s ≠ EmptyString)
                    then [ToServers (abort_line h (id src) (agent s))]
                    else []))
        else
          Some (mkState h ss,
                [ToServers (":" +:+ me_id h +:+ " ENCAP * SASL " +:+ id src
                            +:+ " "
                            +:+ (if decide (agent s ≠ EmptyString) then agent s
                                 else "*")
                            +:+ " C " +:+ p1)])
    end.

(** The body of numeric 904 that the [D] failure path and a full table
    produce. *)
Definition failed_body (c : Client) : string :=
  name c +:+ " :SASL authentication failed".

(** The body of numeric 900. *)
Definition logged_in_body (c : Client) : string :=
  name c +:+ " " +:+ name c +:+ "!" +:+ username c +:+ "@" +:+ host c
  +:+ " " +:+ account c +:+ " :You are now logged in as " +:+ account c.

(** [me_sasl]: SASL through the ENCAP dispatcher.  [parc] is the length of
    [parv]; an index past it is not read. *)
Definition me_sasl (st : State) (source : ClientPtr) (parv : list string)
    : option (State * list Output) :=
  let parc := length parv in
  p2 ← parv !! 2%nat;
  let target := hash_find_id (env st) p2 in
  if decide (target = NULL) then Some (st, []) else
  tc ← deref (env st) target;
  if negb (MyConnect tc) then Some (st, []) else
  let session := sasl_find_session (sessions st) target in
  p3 ← parv !! 3%nat;
  if Ascii.eqb (char0 p3) "C" then
    if decide (parc < 5)%nat then Some (st, []) else
    p4 ← parv !! 4%nat;
    p1 ← parv !! 1%nat;
    Some (match session with
          | Some (i, s) =>
              if decide (agent s = EmptyString) then
                set_sessions st
                  (<[i := set_agent s (strlcpy (agent s) p1 (IDLEN K + 1))]>
                     (sessions st))
              else st
          | None => st
          end,
          [ToOne target ("AUTHENTICATE " +:+ p4)])
  else if Ascii.eqb (char0 p3) "D" then
    if decide (5 ≤ parc ∧ char0 (default EmptyString (parv !! 4%nat)) = "S"%char)
    then
      Some (match session with
            | Some (i, s) =>
                set_sessions st
                  (sasl_clear_session
                     (<[i := set_complete s true]> (sessions st)) i)
            | None => st
            end,
            [Numeric target 900 (logged_in_body tc);
             Numeric target 903
               (name tc +:+ " :SASL authentication successful")])
    else
      match session with
      | Some (i, s) =>
          let s := set_failures s (uint_incr (failures s)) in
          let ss := <[i := s]> (sessions st) in
          if (SASL_MAX_FAILURES <=? failures s)%Z then
            Some (set_sessions st (sasl_clear_session ss i),
                  [Numeric target 904 (failed_body tc)])
          else
            Some (set_sessions st ss, [Numeric target 904 (failed_body tc)])
      | None => Some (st, [Numeric target 904 (failed_body tc)])
      end
  else if Ascii.eqb (char0 p3) "L" then
    if decide (5 ≤ parc)%nat then
      p4 ← parv !! 4%nat;
      h ← write_client (env st) target
            (λ c, set_account c (strlcpy (account c) p4 (sizeof_account K)));
      Some (mkState h (sessions st), [])
    else Some (st, [])
  else if Ascii.eqb (char0 p3) "M" then
    let mechs :=
      match parv !! 4%nat with
      | Some p4 => if string_is_empty p4 then None else Some p4
      | None => None
      end in
    Some (mkState
            (cap_register (cap_unregister (env st) "sasl") CAP_SASL "sasl"
               mechs)
            (sessions st), [])
  else Some (st, []).

(** One conditional field write of [me_svslogin]: the argument at index [i]
    is copied when [parc > i] and it is not ["*"]. *)
Definition svslogin_field (h : Host.t) (target : ClientPtr)
    (parv : list string) (i : nat) (write : Client → string → Client)
    : option Host.t :=
  match parv !! i with
  | Some p =>
      if decide (p ≠ "*") then write_client h target (λ c, write c p)
      else Some h
  | None => Some h
  end.

(** [me_svslogin]: SVSLOGIN through the ENCAP dispatcher. *)
Definition me_svslogin (st : State) (source : ClientPtr) (parv : list string)
    : option (State * list Output) :=
  src ← deref (env st) source;
  if negb (HasFlag src (FLAGS_SERVICE K)) && negb (IsServer src)
  then Some (st, []) else
  p1 ← parv !! 1%nat;
  let target := hash_find_id (env st) p1 in
  if decide (target = NULL) then Some (st, []) else
  h ← svslogin_field (env st) target parv 5
        (λ c p, set_account c (strlcpy (account c) p (sizeof_account K)));
  h ← svslogin_field h target parv 4
        (λ c p, set_host c (strlcpy (host c) p (sizeof_host K)));
  h ← svslogin_field h target parv 3
        (λ c p, set_username c (strlcpy (username c) p (sizeof_username K)));
  Some (mkState h (sessions st), []).

(** [me_mechlist]: MECHLIST through the ENCAP dispatcher. *)
Definition me_mechlist (st : State) (source : ClientPtr) (parv : list string)
    : option (State * list Output) :=
  let mechs :=
    match parv !! 1%nat with
    | Some p1 => if string_is_empty p1 then None else Some p1
    | None => None
    end in
  Some (mkState
          (cap_register (cap_unregister (env st) "sasl") CAP_SASL "sasl" mechs)
          (sessions st), []).

(** [init_handler] and [exit_handler], as far as they touch the state:
    the capability and the session table. *)
Definition init_handler (st : State) : State :=
  mkState (cap_register (env st) CAP_SASL "sasl" (Some "PLAIN")) (sessions st).

Definition exit_handler (st : State) : State :=
  mkState (cap_unregister (env st) "sasl")
          (replicate (length (sessions st)) session_zero).

(** ** Events

    What can happen to the state: the dispatcher calls one of the four
    handlers (only with at least [args_min] arguments, as the command tables
    say), a local client exits, the module is loaded or unloaded, or the host
    changes its own data. *)
Inductive Event :=
| EvAuthenticate (source : ClientPtr) (parv : list string)
| EvSasl (source : ClientPtr) (parv : list string)
| EvSvslogin (source : ClientPtr) (parv : list string)
| EvMechlist (source : ClientPtr) (parv : list string)
| EvClientExit (c : ClientPtr)
| EvInit
| EvExit
| EvHost (h : Host.t).

Definition with_args_min (args_min : nat) (parv : list string)
    (r : option (State * list Output)) : option (State * list Output) :=
  if decide (args_min ≤ length parv) then r else None.

Definition step (st : State) (ev : Event) : option (State * list Output) :=
  match ev with
  | EvAuthenticate source parv =>
      with_args_min 2 parv (mr_authenticate st source parv)
  | EvSasl source parv => with_args_min 4 parv (me_sasl st source parv)
  | EvSvslogin source parv => with_args_min 2 parv (me_svslogin st source parv)
  | EvMechlist source parv => with_args_min 1 parv (me_mechlist st source parv)
  | EvClientExit c => sasl_client_exit_hook st c
  | EvInit => Some (init_handler st, [])
  | EvExit => Some (exit_handler st, [])
  | EvHost h => Some (mkState h (sessions st), [])
  end.

(** The table as the loader leaves it: static storage, all zero. *)
Definition sessions_init : list sasl_session :=
  replicate SASL_MAX_SESSIONS session_zero.

(** States the module can be in: from a zeroed table, by any events. *)
Inductive reachable : State → Prop :=
| reachable_init h : reachable (mkState h sessions_init)
| reachable_step st ev st' out :
    reachable st → step st ev = Some (st', out) → reachable st'.

(** A run: the states before each event, the outputs, and the final state. *)
Fixpoint run (st : State) (evs : list Event)
    : option (list (State * Event * list Output) * State) :=
  match evs with
  | [] => Some ([], st)
  | ev :: evs =>
      '(st', out) ← step st ev;
      '(tr, st'') ← run st' evs;
      Some ((st, ev, out) :: tr, st'')
  end.

End Handlers.

End Sasl.

Import Sasl.

(** ** A small network to run the handlers on

    One server ([0HY]) with a local client that has enabled [sasl], the
    services server, and a client of another server. *)

Module Example.

Definition K0 : Host.Consts :=
  mkConsts 12 13 31 64 11 (Z.shiftl 1 10).

Definition alice : Client :=
  mkClient "alice" "C1" "al" "example.org" "192.0.2.7" "*"
           CAP_SASL 0 false true.

Definition services : Client :=
  mkClient "services.example.org" "00A" EmptyString EmptyString EmptyString "*" 0 0 true true.

Definition bob : Client :=
  mkClient "bob" "R1" "rob" "far.example.net" "198.51.100.3" "*"
           0 0 false false.

(** A client that has just connected: no UID yet. *)
Definition carol : Client :=
  mkClient "carol" EmptyString "ca" "example.com" "192.0.2.9" "*"
           CAP_SASL 0 false true.

Definition host0 : Host.t :=
  mkHost (<[1%positive := alice]> (<[2%positive := services]>
            (<[3%positive := bob]> (<[4%positive := carol]> ∅))))
         (<["C1" := 1%N]> (<["00A" := 2%N]> (<["R1" := 3%N]> ∅)))
         ["0HYAAAAAA"; "0HYAAAAAB"; "0HYAAAAAC"]
         "0HY"
         (<["sasl" := (CAP_SASL, Some "PLAIN")]> ∅)
         1000.

(** Nothing in progress. *)
Definition st_idle : State := mkState host0 sessions_init.

(** [alice] has selected a mechanism; services have not answered yet. *)
Definition st_open : State :=
  mkState host0 (<[0%nat := mkSession 1%N EmptyString 0 0 1000 false]> sessions_init).

(** Services have answered [alice] through agent [AG]. *)
Definition st_bound : State :=
  mkState host0
          (<[0%nat := mkSession 1%N "AG" 0 0 1000 false]> sessions_init).

(** Every slot taken, by clients at addresses 100, 101, ... *)
Definition st_full : State :=
  mkState host0
          ((λ n, mkSession (N.of_nat (100 + n)) EmptyString 0 0 1000 false)
             <$> seq 0 SASL_MAX_SESSIONS).

(** [alice] has sent 20 continuations since her session was bound. *)
Definition st_flooded : State :=
  mkState host0
          (<[0%nat := mkSession 1%N "AG" 20 0 1000 false]> sessions_init).

(** [alice] has sent one continuation since her session was bound. *)
Definition st_relayed : State :=
  mkState host0
          (<[0%nat := mkSession 1%N "AG" 1 0 1000 false]> sessions_init).

(** The events of the scenarios. *)
Definition ev_select : Event := EvAuthenticate 1%N ["AUTHENTICATE"; "PLAIN"].

Definition ev_bind : Event := EvSasl 2%N ["SASL"; "AG"; "C1"; "C"; "+"].

Definition ev_data : Event := EvAuthenticate 1%N ["AUTHENTICATE"; "dXNlcg=="].

Definition ev_rebind : Event := EvSasl 2%N ["SASL"; "AG2"; "C1"; "C"; "+"].

End Example.

(** ** The services module: [ns_force_prefix.cpp]

    The module forces a leading [~] on the nick of users that are not
    identified and takes it off again when they identify.  The Anope
    framework is not part of it: its lookups ([NickAlias::Find],
    [User::Find]), the protocol object [IRCD] and the clock [Anope::CurTime]
    are fields of [Env]; a [User*] or [NickCore*] is an address, 0 for
    [nullptr]. *)

Module ForcePrefix.

Definition PREFIX_CHAR : ascii := "~"%char.

Definition UserPtr := N.
Definition CorePtr := N.

(** What the module asks of [u->server]. *)
Record Server := mkServer {
  IsULined : bool;
  IsSynced : bool
}.

(** What the module reads of a [User]: [nick], [server] (which may be
    null), [Quitting()] and [Account()]. *)
Record User := mkUser {
  nick : string;
  server : option Server;
  Quitting : bool;
  Account : CorePtr
}.

Record NickAlias := mkAlias {
  nc : CorePtr
}.

(** What the module reads of [IRCD]. *)
Record IRCDProto := mkProto {
  CanSVSNick : bool;
  MaxNick : nat;
  IsNickValid : string → bool
}.

Record Env := mkEnv {
  users : gmap positive User;
  NickAlias_Find : string → option NickAlias;
  User_Find : string → UserPtr;
  IRCD : option IRCDProto;
  CurTime : Z
}.

(** [IRCD->SendForceNickChange(u, newnick, when)]. *)
Inductive Action :=
| SendForceNickChange (u : UserPtr) (newnick : string) (when : Z).

Definition deref (e : Env) (u : UserPtr) : option User :=
  match u with
  | N0 => None
  | Npos a => users e !! a
  end.

(** [nick.substr(1)]. *)
Definition substr1 (s : string) : string :=
  match s with
  | String _ rest => rest
  | EmptyString => EmptyString
  end.

(** [IsRegistered]: [na && na->nc]. *)
Definition IsRegistered (e : Env) (n : string) : bool :=
  match NickAlias_Find e n with
  | Some na => negb (nc na =? 0)%N
  | None => false
  end.

(** [IsIdentified]: [u->Account() != nullptr]. *)
Definition IsIdentified (u : User) : bool := negb (Account u =? 0)%N.

(** [ApplyPrefix].  [None] when [u] is neither null nor the address of a
    user. *)
Definition ApplyPrefix (e : Env) (u : UserPtr) : option (list Action) :=
  if decide (u = 0%N) then Some [] else
  usr ← deref e u;
  if Quitting usr then Some [] else
  match server usr with
  | None => Some []
  | Some sv =>
      if IsULined sv then Some [] else
      if IsIdentified usr then Some [] else
      if negb (String.eqb (nick usr) EmptyString)
         && Ascii.eqb (Host.char0 (nick usr)) PREFIX_CHAR
      then Some [] else
      if IsRegistered e (nick usr) then Some [] else
      match IRCD e with
      | None => Some []
      | Some proto =>
          if negb (CanSVSNick proto) then Some [] else
          let newNick := String PREFIX_CHAR (nick usr) in
          let newNick :=
            if negb (MaxNick proto =? 0)%nat
               && (MaxNick proto <? String.length newNick)%nat
            then String.substring 0 (MaxNick proto) newNick
            else newNick in
          if negb (IsNickValid proto newNick) then Some [] else
          if IsRegistered e newNick then Some [] else
          let existing := User_Find e newNick in
          if negb (existing =? 0)%N && negb (existing =? u)%N then Some []
          else Some [SendForceNickChange u newNick (CurTime e)]
      end
  end.

(** [OnUserConnect]; the [exempt] argument is not used. *)
Definition OnUserConnect (e : Env) (u : UserPtr) : option (list Action) :=
  if decide (u = 0%N) then Some [] else
  usr ← deref e u;
  if Quitting usr then Some [] else
  match server usr with
  | None => Some []
  | Some sv => if negb (IsSynced sv) then Some [] else ApplyPrefix e u
  end.

(** [OnUserNickChange]; the old nick is not used. *)
Definition OnUserNickChange (e : Env) (u : UserPtr) (oldnick : string)
    : option (list Action) :=
  if decide (u = 0%N) then Some [] else
  usr ← deref e u;
  if Quitting usr then Some [] else ApplyPrefix e u.

(** [OnNickIdentify]. *)
Definition OnNickIdentify (e : Env) (u : UserPtr) : option (list Action) :=
  if decide (u = 0%N) then Some [] else
  usr ← deref e u;
  if Quitting usr then Some [] else
  if String.eqb (nick usr) EmptyString
     || negb (Ascii.eqb (Host.char0 (nick usr)) PREFIX_CHAR)
  then Some [] else
  let originalNick := substr1 (nick usr) in
  match NickAlias_Find e originalNick with
  | None => Some []
  | Some na =>
      if (nc na =? 0)%N || negb (nc na =? Account usr)%N then Some [] else
      match IRCD e with
      | None => Some []
      | Some proto =>
          if negb (CanSVSNick proto) then Some [] else
          let existing := User_Find e originalNick in
          if negb (existing =? 0)%N && negb (existing =? u)%N then Some []
          else Some [SendForceNickChange u originalNick (CurTime e)]
      end
  end.

(** [OnUserLogin]. *)
Definition OnUserLogin (e : Env) (u : UserPtr) : option (list Action) :=
  if decide (u = 0%N) then Some [] else
  usr ← deref e u;
  if Quitting usr then Some [] else
  if String.eqb (nick usr) EmptyString
     || negb (Ascii.eqb (Host.char0 (nick usr)) PREFIX_CHAR)
  then Some [] else
  let originalNick := substr1 (nick usr) in
  match NickAlias_Find e originalNick with
  | None => Some []
  | Some na =>
      if (nc na =? 0)%N || negb (nc na =? Account usr)%N then Some [] else
      match IRCD e with
      | None => Some []
      | Some proto =>
          if negb (CanSVSNick proto) then Some [] else
          let existing := User_Find e originalNick in
          if negb (existing =? 0)%N && negb (existing =? u)%N then Some []
          else Some [SendForceNickChange u originalNick (CurTime e)]
      end
  end.

End ForcePrefix.

(** ** Vocabulary of the properties *)

(** A target the SASL handler accepts: the UID resolves and the client is
    locally connected. *)
Definition local_target (h : Host.t) (uid : string) (tc : Client) : Prop :=
  hash_find_id h uid ≠ NULL ∧
  deref h (hash_find_id h uid) = Some tc ∧
  MyConnect tc = true.

(** The target of a relay message does not resolve to a known, locally
    connected client. *)
Definition no_local_target (h : Host.t) (uid : string) : Prop :=
  hash_find_id h uid = NULL ∨
  ∃ tc, deref h (hash_find_id h uid) = Some tc ∧ MyConnect tc = false.

(** A handler call that drops its message: same state, nothing sent. *)
Definition dropped_silently (st : State)
    (r : option (State * list Output)) : Prop :=
  r = Some (st, []).

(** The slot of a session after one more failed outcome. *)
Definition after_failure (s : sasl_session) : sasl_session :=
  if (SASL_MAX_FAILURES <=? uint_incr (failures s))%Z then session_zero
  else set_failures s (uint_incr (failures s)).

(** What the SVSLOGIN description says a field holds afterwards: the
    argument (as far as the field can hold it) when it is present and not
    ["*"], the old value otherwise. *)
Definition svslogin_value (old : string) (arg : option string) (size : nat)
    : string :=
  match arg with
  | Some p => if decide (p = "*") then old else strlcpy old p size
  | None => old
  end.

(** The advertised value of [sasl] for a mechanism argument list: nothing
    for a missing or empty first argument. *)
Definition advertised (args : list string) : option string :=
  match args with
  | m :: _ => if decide (m = EmptyString) then None else Some m
  | [] => None
  end.

(** Every slot of the 256 is in use. *)
Definition table_full (ss : list sasl_session) : Prop :=
  length ss = SASL_MAX_SESSIONS ∧ Forall (λ s, client s ≠ NULL) ss.

(** What a slot must look like between events. *)
Definition slot_ok (s : sasl_session) : Prop :=
  (0 ≤ messages s ≤ SASL_MAX_MESSAGES)%Z ∧
  (0 ≤ failures s < SASL_MAX_FAILURES)%Z ∧
  complete s = false ∧
  (client s = NULL → s = session_zero).

(** The table between events: 256 slots, each one fine, and no client in
    two of them. *)
Definition table_ok (ss : list sasl_session) : Prop :=
  length ss = SASL_MAX_SESSIONS ∧
  Forall slot_ok ss ∧
  ∀ i j s s', ss !! i = Some s → ss !! j = Some s' →
              client s ≠ NULL → client s = client s' → i = j.

(** A continuation of client [c]: an AUTHENTICATE of [c] that is not ["*"],
    handled while [c] has the capability and a session. *)
Definition is_continuation (c : ClientPtr) (st : State) (ev : Event) : bool :=
  match ev with
  | EvAuthenticate source parv =>
      match deref (env st) source, parv !! 1%nat,
            sasl_find_session (sessions st) source with
      | Some src, Some data, Some _ =>
          bool_decide (source = c) && HasCap src CAP_SASL
          && negb (String.eqb data "*")
      | _, _, _ => false
      end
  | _ => false
  end.

(** How many continuations of [c] a run has seen. *)
Fixpoint continuations (c : ClientPtr)
    (tr : list (State * Event * list Output)) : nat :=
  match tr with
  | [] => 0
  | (st, ev, _) :: tr =>
      (if is_continuation c st ev then 1 else 0) + continuations c tr
  end.

(** Slot [i] holds a session. *)
Definition live_at (i : nat) (st : State) : Prop :=
  ∃ s, sessions st !! i = Some s ∧ client s ≠ NULL.

Section Effects.

Context (K : Host.Consts).

(** What one event can do to the slot of client [c]. *)
Inductive slot_effect (st : State) (ev : Event) (c : ClientPtr)
    (s : sasl_session) : sasl_session → Prop :=
| eff_clear : slot_effect st ev c s session_zero
| eff_cont :
    is_continuation c st ev = true →
    (uint_incr (messages s) ≤ SASL_MAX_MESSAGES)%Z →
    slot_effect st ev c s (set_messages s (uint_incr (messages s)))
| eff_fail source parv :
    ev = EvSasl source parv → c ≠ NULL →
    (uint_incr (failures s) < SASL_MAX_FAILURES)%Z →
    slot_effect st ev c s (set_failures s (uint_incr (failures s)))
| eff_bind source parv ag ty :
    ev = EvSasl source parv → c ≠ NULL →
    parv !! 1%nat = Some ag → parv !! 3%nat = Some ty →
    char0 ty = "C"%char → agent s = EmptyString →
    slot_effect st ev c s (set_agent s (strlcpy (agent s) ag (IDLEN K + 1))).

(** What one event can do to the table. *)
Inductive table_effect (st : State) (ev : Event)
    : list sasl_session → Prop :=
| te_same : table_effect st ev (sessions st)
| te_exit :
    ev = EvExit →
    table_effect st ev (replicate (length (sessions st)) session_zero)
| te_slot c i s s' :
    sasl_find_session (sessions st) c = Some (i, s) →
    slot_effect st ev c s s' →
    table_effect st ev (<[i := s']> (sessions st))
| te_new c parv i s0 time :
    ev = EvAuthenticate c parv → c ≠ NULL →
    sasl_find_session (sessions st) c = None →
    list_find (λ s, client s = NULL) (sessions st) = Some (i, s0) →
    table_effect st ev
      (<[i := set_start_time (set_client session_zero c) time]> (sessions st)).

End Effects.

(** The client whose session an event is about: the source of an
    AUTHENTICATE, the target of a SASL message, the client that exits. *)
Definition event_client (st : State) (ev : Event) : ClientPtr :=
  match ev with
  | EvAuthenticate source _ => source
  | EvSasl _ parv =>
      match parv !! 2%nat with
      | Some uid => hash_find_id (env st) uid
      | None => NULL
      end
  | EvClientExit c => c
  | _ => NULL
  end.

(** A failed outcome for client [c]: a SASL message of type [D] for [c] as
    a locally connected target whose data is absent or does not start with
    [S]. *)
Definition is_failed_outcome (c : ClientPtr) (st : State) (ev : Event)
    : bool :=
  match ev with
  | EvSasl _ parv =>
      match parv !! 2%nat, parv !! 3%nat with
      | Some uid, Some ty =>
          bool_decide (hash_find_id (env st) uid = c)
          && match deref (env st) c with
             | Some tc => MyConnect tc
             | None => false
             end
          && Ascii.eqb (char0 ty) "D"
          && negb match parv !! 4%nat with
                  | Some data => Ascii.eqb (char0 data) "S"
                  | None => false
                  end
      | _, _ => false
      end
  | _ => false
  end.

(** How many failed outcomes for [c] a run has seen. *)
Fixpoint failed_outcomes (c : ClientPtr)
    (tr : list (State * Event * list Output)) : nat :=
  match tr with
  | [] => 0
  | (st, ev, _) :: tr =>
      (if is_failed_outcome c st ev then 1 else 0) + failed_outcomes c tr
  end.

(** ** More of the small network, and a nick to prefix *)

Module Scenario.

Import Example.

(** Services report a failure to [alice]. *)
Definition ev_fail : Event := EvSasl 2%N ["SASL"; "AG"; "C1"; "D"; "F"].

(** [alice]'s session after two failures. *)
Definition st_two_failures : State :=
  mkState host0
          (<[0%nat := mkSession 1%N EmptyString 0 2 1000 false]> sessions_init).

(** [bob] connects with a nick nobody has registered. *)
Definition e_connect : ForcePrefix.Env :=
  ForcePrefix.mkEnv
    (<[1%positive := ForcePrefix.mkUser "bob"
                       (Some (ForcePrefix.mkServer false true)) false 0%N]> ∅)
    (λ _, None)
    (λ n, if String.eqb n "bob" then 1%N else 0%N)
    (Some (ForcePrefix.mkProto true 30 (λ _, true)))
    5000.

(** Later: his nick is [~bob], [bob] is registered to account 7 and he is
    logged in to it. *)
Definition e_identified : ForcePrefix.Env :=
  ForcePrefix.mkEnv
    (<[1%positive := ForcePrefix.mkUser "~bob"
                       (Some (ForcePrefix.mkServer false true)) false 7%N]> ∅)
    (λ n, if String.eqb n "bob" then Some (ForcePrefix.mkAlias 7%N) else None)
    (λ n, if String.eqb n "~bob" then 1%N else 0%N)
    (Some (ForcePrefix.mkProto true 30 (λ _, true)))
    5060.

End Scenario.

(** [new] is the first [n] bytes of [src]: all of [src] when it has no more
    than [n]. *)
Definition cut_to (n : nat) (src new : string) : Prop :=
  (∃ rest, src = new +:+ rest) ∧
  String.length new = Nat.min n (String.length src).

(** What a character array of [size] bytes that held [old] holds after
    [src] has been copied into it with room left for the terminating NUL:
    the first [size - 1] bytes of [src], and [old] when the array has no
    room at all. *)
Definition stored (size : nat) (src old new : string) : Prop :=
  match size with
  | O => new = old
  | S n => cut_to n src new
  end.

(** A field of [size] bytes after SVSLOGIN, for the argument that belongs
    to it: the argument is stored when it is there and is not ["*"], the
    field is as before otherwise. *)
Definition field_after (size : nat) (arg : option string) (old new : string)
    : Prop :=
  match arg with
  | Some p => if decide (p = "*") then new = old else stored size p old new
  | None => new = old
  end.

(** * Properties *)

(** ** The session table *)

Lemma find_session_Some (ss : list sasl_session) c i s :
  sasl_find_session ss c = Some (i, s) →
  ss !! i = Some s ∧ client s = c.
Proof.
  unfold sasl_find_session. intros H.
  apply list_find_Some in H. tauto.
Qed.

Lemma find_session_None (ss : list sasl_session) c :
  sasl_find_session ss c = None ↔ Forall (λ s, client s ≠ c) ss.
Proof. unfold sasl_find_session. apply list_find_None. Qed.

Lemma new_session_full (ss : list sasl_session) c time :
  Forall (λ s, client s ≠ NULL) ss → sasl_new_session ss c time = None.
Proof.
  intros H. unfold sasl_new_session.
  assert (list_find (λ s, client s = NULL) ss = None) as ->; [|done].
  by apply list_find_None.
Qed.


Lemma substring_cut_to n s : cut_to n s (String.substring 0 n s).
Proof.
  unfold cut_to. revert s.
  induction n as [|n IH]; intros [|a s]; simpl.
  - split; [by exists EmptyString|done].
  - split; [by exists (String a s)|done].
  - split; [by exists EmptyString|done].
  - destruct (IH s) as [[rest Hrest] Hlen]. split.
    + exists rest.
      change (String a s = String a (String.substring 0 n s +:+ rest)).
      by rewrite <- Hrest.
    + by rewrite Hlen.
Qed.

Lemma cut_to_fits n src new :
  cut_to n src new → String.length src ≤ n → new = src.
Proof.
  intros [[rest ->] Hlen] Hfit. revert n Hlen Hfit.
  induction new as [|a new IH]; intros n; simpl.
  - destruct rest; simpl; [done|]. destruct n; simpl; [lia|done].
  - destruct n as [|n]; simpl; [lia|]. intros Hlen Hfit.
    change (String a new = String a (new +:+ rest)).
    f_equal. apply (IH n); lia.
Qed.

(** [cut_to] names one string. *)
Lemma cut_to_substring n src new :
  cut_to n src new → new = String.substring 0 n src.
Proof.
  intros [[rest ->] Hlen]. revert n Hlen.
  induction new as [|a new IH]; intros n; simpl.
  - destruct n as [|n]; destruct rest; simpl; try done.
  - destruct n as [|n]; simpl; [done|]. intros Hlen.
    change (String a new = String a (String.substring 0 n (new +:+ rest))).
    f_equal. apply IH. lia.
Qed.

(** [strlcpy] stores: the destination ends up with the first [size - 1]
    bytes of the source. *)
Lemma strlcpy_stored dst src size : stored size src dst (strlcpy dst src size).
Proof. destruct size as [|n]; simpl; [done|]. apply substring_cut_to. Qed.

Lemma stored_fits size src old new :
  stored size src old new → String.length src < size → new = src.
Proof.
  destruct size as [|n]; simpl; [lia|]. intros Hcut Hfit.
  apply (cut_to_fits n); [done|lia].
Qed.

Lemma svslogin_value_field_after size arg old :
  field_after size arg old (svslogin_value old arg size).
Proof.
  unfold field_after, svslogin_value. destruct arg as [p|]; [|done].
  case_decide; [done|]. apply strlcpy_stored.
Qed.

(** ** Single handler calls *)

Section Relay.

Context (K : Host.Consts).

(** A field write of SVSLOGIN through a valid target succeeds and leaves a
    valid target. *)
Lemma svslogin_field_total h target c parv i write :
  deref h target = Some c →
  ∃ h' c', svslogin_field h target parv i write = Some h' ∧
           deref h' target = Some c'.
Proof.
  intros Hc. unfold svslogin_field.
  destruct (parv !! i) as [p|]; [|by exists h, c].
  case_decide; [|by exists h, c].
  destruct target as [|a]; [done|]. simpl in *. rewrite Hc. simpl.
  eexists _, (write c p). split; [reflexivity|]. simpl.
  by rewrite lookup_insert_eq.
Qed.

Lemma svslogin_field_spec h a c parv i write :
  clients h !! a = Some c →
  svslogin_field h (Npos a) parv i write
  = Some (set_clients h
            (<[a := match parv !! i with
                    | Some p => if decide (p = "*") then c else write c p
                    | None => c
                    end]> (clients h))).
Proof.
  intros Hc. unfold svslogin_field.
  assert (set_clients h (<[a := c]> (clients h)) = h) as Hid.
  { rewrite insert_id by done. by destruct h. }
  destruct (parv !! i) as [p|]; [|by rewrite Hid].
  destruct (decide (p = "*")).
  - rewrite decide_False by tauto. by rewrite Hid.
  - rewrite decide_True by done. simpl. by rewrite Hc.
Qed.

Local Ltac sasl_local H2 H3 Hloc :=
  let Hnn := fresh in let Htc := fresh in let Hmy := fresh in
  destruct Hloc as (Hnn & Htc & Hmy);
  unfold me_sasl; rewrite H2; simpl;
  rewrite decide_False by done; rewrite Htc; simpl; rewrite Hmy; simpl;
  rewrite H3; simpl.

(** The failure branch of type [D], whatever made the success test fail. *)
Lemma sasl_done_failure st source parv uid ty tc :
  parv !! 2%nat = Some uid → parv !! 3%nat = Some ty →
  local_target (env st) uid tc →
  char0 ty = "D"%char →
  ¬ (5 ≤ length parv ∧
     char0 (default EmptyString (parv !! 4%nat)) = "S"%char) →
  me_sasl K st source parv
  = Some (match sasl_find_session (sessions st) (hash_find_id (env st) uid)
          with
          | Some (i, s) =>
              set_sessions st (<[i := after_failure s]> (sessions st))
          | None => st
          end,
          [Numeric (hash_find_id (env st) uid) 904 (failed_body tc)]).
Proof.
  intros H2 H3 Hloc Hty Hfail. sasl_local H2 H3 Hloc.
  rewrite Hty. simpl. rewrite decide_False by done.
  destruct (sasl_find_session _ _) as [[i s]|]; [|done].
  unfold after_failure, sasl_clear_session.
  destruct (_ <=? _)%Z; [|done].
  by rewrite list_insert_insert_eq.
Qed.

(** C8: a [D S] message for a locally connected target sends 900 and 903 to
    it whether or not it has a session; the table is touched only when a
    session exists, and then the slot is cleared. *)
Theorem sasl_done_success st source parv uid ty data tc :
  parv !! 2%nat = Some uid → parv !! 3%nat = Some ty →
  parv !! 4%nat = Some data →
  local_target (env st) uid tc →
  char0 ty = "D"%char → char0 data = "S"%char →
  ∃ st',
    me_sasl K st source parv
    = Some (st', [Numeric (hash_find_id (env st) uid) 900 (logged_in_body tc);
                  Numeric (hash_find_id (env st) uid) 903
                    (name tc +:+ " :SASL authentication successful")]) ∧
    env st' = env st ∧
    match sasl_find_session (sessions st) (hash_find_id (env st) uid) with
    | Some (i, _) => sessions st' = <[i := session_zero]> (sessions st)
    | None => st' = st
    end.
Proof.
  intros H2 H3 H4 Hloc Hty Hdata. sasl_local H2 H3 Hloc.
  rewrite Hty. simpl. rewrite H4. simpl.
  assert (5 ≤ length parv) by (apply lookup_lt_Some in H4; lia).
  rewrite decide_True by done.
  eexists. split; [reflexivity|].
  destruct (sasl_find_session _ _) as [[i s]|]; simpl; [|done].
  split; [done|]. unfold sasl_clear_session.
  by rewrite list_insert_insert_eq.
Qed.

(** C1 (amended): a [D] message without data for a locally connected target
    is not dropped; it takes the failure branch.  Numeric 904 goes to the
    target, and a session of the target gets its failures counter
    incremented and is cleared when the counter reaches the cap. *)
Theorem sasl_done_missing_data st source parv uid ty tc :
  parv !! 2%nat = Some uid → parv !! 3%nat = Some ty →
  length parv < 5 →
  local_target (env st) uid tc →
  char0 ty = "D"%char →
  ∃ st',
    me_sasl K st source parv
    = Some (st', [Numeric (hash_find_id (env st) uid) 904
                    (name tc +:+ " :SASL authentication failed")]) ∧
    env st' = env st ∧
    match sasl_find_session (sessions st) (hash_find_id (env st) uid) with
    | Some (i, s) =>
        sessions st'
        = <[i := if (3 <=? uint_incr (failures s))%Z then session_zero
                 else set_failures s (uint_incr (failures s))]> (sessions st)
    | None => st' = st
    end.
Proof.
  intros H2 H3 Hlen Hloc Hty.
  rewrite (sasl_done_failure st source parv uid ty tc) by (done || lia).
  eexists. split; [reflexivity|].
  by destruct (sasl_find_session _ _) as [[i s]|].
Qed.

(** C3 (amended): a SASL message whose target is unknown or not locally
    connected, and an SVSLOGIN message whose target is unknown, are dropped:
    same state, nothing sent.  SVSLOGIN for any known target, local or not,
    sends nothing and leaves the session table alone. *)
Theorem relay_unresolved_target st source src parv :
  deref (env st) source = Some src →
  (∀ uid, 4 ≤ length parv → parv !! 2%nat = Some uid →
          no_local_target (env st) uid →
          dropped_silently st (me_sasl K st source parv)) ∧
  (∀ uid, parv !! 1%nat = Some uid → hash_find_id (env st) uid = NULL →
          dropped_silently st (me_svslogin K st source parv)) ∧
  (∀ uid tc, parv !! 1%nat = Some uid →
             deref (env st) (hash_find_id (env st) uid) = Some tc →
             ∃ st', me_svslogin K st source parv = Some (st', []) ∧
                    sessions st' = sessions st).
Proof.
  intros Hsrc. split; [|split].
  - intros uid Hlen H2 Hno. unfold dropped_silently, me_sasl.
    rewrite H2. simpl. destruct Hno as [->|(tc & Htc & Hmy)].
    + by rewrite decide_True.
    + case_decide; [done|]. rewrite Htc. simpl. by rewrite Hmy.
  - intros uid H1 Hnull. unfold dropped_silently, me_svslogin.
    rewrite Hsrc. simpl. destruct (_ && _); [done|].
    rewrite H1. simpl. by rewrite decide_True.
  - intros uid tc H1 Htc. unfold me_svslogin.
    rewrite Hsrc. simpl. destruct (_ && _); [by eexists|].
    rewrite H1. simpl. case_decide; [by eexists|].
    destruct (svslogin_field_total (env st) _ tc parv 5
                (λ c p, set_account c
                          (strlcpy (account c) p (sizeof_account K))) Htc)
      as (h1 & c1 & -> & Hc1). simpl.
    destruct (svslogin_field_total h1 _ c1 parv 4
                (λ c p, set_host c (strlcpy (host c) p (sizeof_host K))) Hc1)
      as (h2 & c2 & -> & Hc2). simpl.
    destruct (svslogin_field_total h2 _ c2 parv 3
                (λ c p, set_username c
                          (strlcpy (username c) p (sizeof_username K))) Hc2)
      as (h3 & c3 & -> & Hc3). simpl.
    by eexists.
Qed.

(** The record SVSLOGIN leaves at the target, field by field as the three
    guarded copies compute it. *)
Lemma svslogin_record st source src parv uid a tc :
  deref (env st) source = Some src →
  HasFlag src (FLAGS_SERVICE K) = true ∨ IsServer src = true →
  parv !! 1%nat = Some uid →
  hash_find_id (env st) uid = Npos a →
  clients (env st) !! a = Some tc →
  ∃ st',
    me_svslogin K st source parv = Some (st', []) ∧
    sessions st' = sessions st ∧
    clients (env st') !! a
    = Some (mkClient (name tc) (id tc)
              (svslogin_value (username tc) (parv !! 3%nat)
                 (sizeof_username K))
              (svslogin_value (host tc) (parv !! 4%nat) (sizeof_host K))
              (sockhost tc)
              (svslogin_value (account tc) (parv !! 5%nat)
                 (sizeof_account K))
              (cap tc) (flags tc) (server tc) (local tc)) ∧
    (∀ b, b ≠ a → clients (env st') !! b = clients (env st) !! b) ∧
    id_hash (env st') = id_hash (env st) ∧
    caps (env st') = caps (env st).
Proof.
  intros Hsrc Horigin H1 Ha Htc. unfold me_svslogin.
  rewrite Hsrc. simpl.
  assert (negb (HasFlag src (FLAGS_SERVICE K)) && negb (IsServer src) = false)
    as ->.
  { destruct Horigin as [-> | ->]; [done|]. apply andb_false_r. }
  rewrite H1. simpl. rewrite Ha. rewrite decide_False by done.
  erewrite svslogin_field_spec by done. simpl.
  erewrite svslogin_field_spec by (simpl; apply lookup_insert_eq). simpl.
  erewrite svslogin_field_spec by (simpl; apply lookup_insert_eq). simpl.
  eexists. split; [reflexivity|]. simpl.
  split; [done|]. split; [|split; [|done]].
  - rewrite lookup_insert_eq. unfold svslogin_value.
    destruct tc; simpl.
    repeat (match goal with
            | |- context [parv !! ?i] => destruct (parv !! i)
            end);
      repeat case_decide; done.
  - intros b Hb. by rewrite !lookup_insert_ne.
Qed.

(** C9: SVSLOGIN from a server or a service, for a known target, leaves the
    target with [username], [host] and [account] set from the ident, vhost
    and account arguments, each one on its own and only when the argument is
    there and is not ["*"]: the field then holds the argument, that is its
    first bytes up to one less than the size of the field, and the whole
    argument when it is shorter than the field.  With the argument absent or
    ["*"] the field is as before.  The nick of the target, its other
    fields, all other clients and the session table stay as they were. *)
Theorem svslogin_writes st source src parv uid a tc :
  deref (env st) source = Some src →
  HasFlag src (FLAGS_SERVICE K) = true ∨ IsServer src = true →
  parv !! 1%nat = Some uid →
  hash_find_id (env st) uid = Npos a →
  clients (env st) !! a = Some tc →
  ∃ st' tc',
    me_svslogin K st source parv = Some (st', []) ∧
    sessions st' = sessions st ∧
    clients (env st') !! a = Some tc' ∧
    field_after (sizeof_username K) (parv !! 3%nat) (username tc)
      (username tc') ∧
    field_after (sizeof_host K) (parv !! 4%nat) (host tc) (host tc') ∧
    field_after (sizeof_account K) (parv !! 5%nat) (account tc)
      (account tc') ∧
    (∀ p, parv !! 3%nat = Some p → p ≠ "*" →
          String.length p < sizeof_username K → username tc' = p) ∧
    (∀ p, parv !! 4%nat = Some p → p ≠ "*" →
          String.length p < sizeof_host K → host tc' = p) ∧
    (∀ p, parv !! 5%nat = Some p → p ≠ "*" →
          String.length p < sizeof_account K → account tc' = p) ∧
    name tc' = name tc ∧ id tc' = id tc ∧ sockhost tc' = sockhost tc ∧
    cap tc' = cap tc ∧ flags tc' = flags tc ∧
    server tc' = server tc ∧ local tc' = local tc ∧
    (∀ b, b ≠ a → clients (env st') !! b = clients (env st) !! b) ∧
    id_hash (env st') = id_hash (env st) ∧
    caps (env st') = caps (env st).
Proof.
  intros Hsrc Horigin H1 Ha Htc.
  destruct (svslogin_record st source src parv uid a tc Hsrc Horigin H1 Ha Htc)
    as (st' & Hrun & Hsess & Hrec & Hothers & Hhash & Hcaps).
  assert (∀ size arg old new p,
            field_after size arg old new → arg = Some p → p ≠ "*" →
            String.length p < size → new = p) as Hfits.
  { intros size arg old new p Hfield -> Hstar Hlen. simpl in Hfield.
    rewrite decide_False in Hfield by done. by eapply stored_fits. }
  pose proof (svslogin_value_field_after (sizeof_username K) (parv !! 3%nat)
                (username tc)) as Huser.
  pose proof (svslogin_value_field_after (sizeof_host K) (parv !! 4%nat)
                (host tc)) as Hhost.
  pose proof (svslogin_value_field_after (sizeof_account K) (parv !! 5%nat)
                (account tc)) as Hacc.
  eexists st', _. split; [exact Hrun|]. split; [exact Hsess|].
  split; [exact Hrec|]. simpl. split_and!; try done.
  - intros p. by apply (Hfits _ _ _ _ _ Huser).
  - intros p. by apply (Hfits _ _ _ _ _ Hhost).
  - intros p. by apply (Hfits _ _ _ _ _ Hacc).
Qed.

(** C4 (amended): when the target of a SASL message of type [M] is a locally
    connected client, the message and a MECHLIST message with the same
    mechanism arguments lead to the same state: [sasl] is advertised with the
    first argument as its value, and without a value when that argument is
    missing or empty; no other capability changes. *)
Theorem mechlist_like_sasl_M st src1 src2 cmd1 cmd2 ag uid ty args tc :
  local_target (env st) uid tc →
  char0 ty = "M"%char →
  ∃ st',
    me_mechlist st src1 (cmd1 :: args) = Some (st', []) ∧
    me_sasl K st src2 (cmd2 :: ag :: uid :: ty :: args) = Some (st', []) ∧
    sessions st' = sessions st ∧
    caps (env st') !! "sasl" = Some (CAP_SASL, advertised args) ∧
    ∀ c, c ≠ "sasl" → caps (env st') !! c = caps (env st) !! c.
Proof.
  intros Hloc Hty.
  destruct Hloc as (Hnn & Htc & Hmy). unfold me_sasl. simpl.
  rewrite decide_False by done. rewrite Htc. simpl. rewrite Hmy. simpl.
  rewrite Hty. simpl.
  unfold me_mechlist. simpl.
  eexists. split; [reflexivity|].
  split; [reflexivity|]. simpl. split; [done|]. split.
  - rewrite lookup_insert_eq. unfold advertised, string_is_empty.
    destruct args as [|m args]; simpl; [done|].
    destruct (String.eqb_spec m EmptyString); by case_decide.
  - intros c Hc. rewrite lookup_insert_ne by done.
    by rewrite lookup_delete_ne.
Qed.

End Relay.

Section Runs.

Context (K : Host.Consts).

Lemma deref_not_null h p c : deref h p = Some c → p ≠ NULL.
Proof. by destruct p. Qed.

Local Ltac same_table H := injection H as <- <-; simpl; apply te_same.

Lemma step_table_effect st ev st' out :
  step K st ev = Some (st', out) → table_effect K st ev (sessions st').
Proof.
  destruct ev as [source parv|source parv|source parv|source parv|c| | |h];
    simpl; unfold with_args_min; intros Hstep;
    try (case_decide; [|done]).
  - (* AUTHENTICATE *)
    unfold mr_authenticate in Hstep.
    destruct (deref (env st) source) as [src|] eqn:Hsrc; [|done].
    simpl in Hstep.
    destruct (HasCap src CAP_SASL) eqn:Hcap; simpl in Hstep;
      [|same_table Hstep].
    destruct (parv !! 1%nat) as [p1|] eqn:Hp1; [|done]. simpl in Hstep.
    destruct (decide (p1 = "*")) as [->|Hstar].
    + destruct (sasl_find_session _ _) as [[i s]|] eqn:Hfind;
        injection Hstep as <- <-; simpl; [|constructor].
      eapply te_slot; [done|constructor].
    + destruct (assign_uid K (env st) source src) as [[h src']|]; [|done].
      simpl in Hstep.
      destruct (sasl_find_session _ _) as [[i s]|] eqn:Hfind.
      * destruct (_ <? _)%Z eqn:Hlim; injection Hstep as <- <-; simpl.
        -- unfold sasl_clear_session. rewrite list_insert_insert_eq.
           eapply te_slot; [done|constructor].
        -- eapply te_slot; [done|]. apply eff_cont; [|simpl in Hlim; lia].
           simpl. rewrite Hsrc, Hp1, Hfind, Hcap.
           rewrite bool_decide_eq_true_2 by done. simpl.
           by destruct (String.eqb_spec p1 "*").
      * unfold sasl_new_session in Hstep.
        destruct (list_find _ _) as [[i s0]|] eqn:Hfree;
          injection Hstep as <- <-; simpl; [|constructor].
        eapply te_new; eauto using deref_not_null.
  - (* SASL *)
    unfold me_sasl in Hstep.
    destruct (parv !! 2%nat) as [p2|]; [|done]. simpl in Hstep.
    case_decide as Hnull; [same_table Hstep|].
    destruct (deref _ _) as [tc|]; [|done]. simpl in Hstep.
    destruct (MyConnect tc); simpl in Hstep;
      [|same_table Hstep].
    destruct (parv !! 3%nat) as [p3|] eqn:Hp3; [|done]. simpl in Hstep.
    destruct (Ascii.eqb_spec (char0 p3) "C") as [HC|_].
    { case_decide; [same_table Hstep|].
      destruct (parv !! 4%nat) as [p4|]; [|done]. simpl in Hstep.
      destruct (parv !! 1%nat) as [p1|] eqn:Hp1; [|done]. simpl in Hstep.
      destruct (sasl_find_session _ _) as [[i s]|] eqn:Hfind;
        [|same_table Hstep].
      case_decide; injection Hstep as <- <-; simpl; [|constructor].
      eapply te_slot; [done|]. by eapply eff_bind. }
    destruct (Ascii.eqb_spec (char0 p3) "D") as [HD|_].
    { case_decide.
      - destruct (sasl_find_session _ _) as [[i s]|] eqn:Hfind;
          injection Hstep as <- <-; simpl; [|constructor].
        unfold sasl_clear_session. rewrite list_insert_insert_eq.
        eapply te_slot; [done|constructor].
      - destruct (sasl_find_session _ _) as [[i s]|] eqn:Hfind;
          [|same_table Hstep].
        destruct (_ <=? _)%Z eqn:Hcap; injection Hstep as <- <-; simpl.
        + unfold sasl_clear_session. rewrite list_insert_insert_eq.
          eapply te_slot; [done|constructor].
        + eapply te_slot; [done|]. eapply eff_fail; [done..|].
          simpl in Hcap. lia. }
    destruct (Ascii.eqb_spec (char0 p3) "L") as [HL|_].
    { case_decide; [|same_table Hstep].
      destruct (parv !! 4%nat) as [p4|]; [|done]. simpl in Hstep.
      destruct (write_client _ _ _); [|done].
      same_table Hstep. }
    destruct (Ascii.eqb_spec (char0 p3) "M") as [HM|_];
      same_table Hstep.
  - (* SVSLOGIN *)
    unfold me_svslogin in Hstep.
    destruct (deref _ _) as [src|]; [|done]. simpl in Hstep.
    destruct (_ && _); [same_table Hstep|].
    destruct (parv !! 1%nat) as [p1|]; [|done]. simpl in Hstep.
    case_decide; [same_table Hstep|].
    repeat (destruct (svslogin_field _ _ _ _ _); [|done]; simpl in Hstep).
    same_table Hstep.
  - (* MECHLIST *)
    unfold me_mechlist in Hstep. same_table Hstep.
  - (* client exit *)
    unfold sasl_client_exit_hook in Hstep.
    destruct (sasl_find_session _ _) as [[i s]|] eqn:Hfind;
      [|same_table Hstep].
    destruct (if decide (agent s = EmptyString) then _ else _); [|done].
    injection Hstep as <- <-. simpl.
    eapply te_slot; [done|constructor].
  - same_table Hstep.
  - injection Hstep as <- <-. by constructor.
  - same_table Hstep.
Qed.



Lemma uint_incr_small x : (0 ≤ x < 2 ^ 32 - 1)%Z → uint_incr x = (x + 1)%Z.
Proof. intros H. unfold uint_incr. apply Z.mod_small. lia. Qed.

Lemma uint_incr_nonneg x : (0 ≤ uint_incr x)%Z.
Proof. unfold uint_incr. apply Z.mod_pos_bound. lia. Qed.

Lemma is_continuation_inv c st ev :
  is_continuation c st ev = true →
  ∃ parv src data,
    ev = EvAuthenticate c parv ∧ deref (env st) c = Some src ∧
    HasCap src CAP_SASL = true ∧ parv !! 1%nat = Some data ∧ data ≠ "*" ∧
    is_Some (sasl_find_session (sessions st) c).
Proof.
  destruct ev as [source parv| | | | | | |]; simpl; try done.
  destruct (deref _ _) as [src|] eqn:Hsrc; [|done].
  destruct (parv !! 1%nat) as [data|] eqn:Hdata; [|done].
  destruct (sasl_find_session _ _) as [x|] eqn:Hfind; [|done].
  intros H. apply andb_true_iff in H as [H Hstar].
  apply andb_true_iff in H as [Hc Hcap].
  apply bool_decide_eq_true in Hc as ->.
  exists parv, src, data. rewrite Hfind. repeat split; try done.
  intros ->. done.
Qed.

Lemma slot_effect_ok st ev c s s' :
  client s = c → slot_ok s → slot_effect K st ev c s s' → slot_ok s'.
Proof.
  intros Hc (Hm & Hf & Hcomp & Hz) Heff.
  assert (slot_ok session_zero) as Hzero.
  { unfold slot_ok, SASL_MAX_MESSAGES, SASL_MAX_FAILURES; simpl;
    split_and!; done || lia. }
  destruct Heff as [|Hcont Hle|source parv -> Hnn Hlt
                    |source parv ag ty -> Hnn _ _ _ _]; [done|..].
  - apply is_continuation_inv in Hcont as (? & ? & ? & _ & Hsrc & _).
    apply deref_not_null in Hsrc.
    unfold slot_ok; simpl; split_and!;
      first [done | lia | apply uint_incr_nonneg | intros ?; congruence].
  - unfold slot_ok; simpl; split_and!;
      first [done | lia | apply uint_incr_nonneg | intros ?; congruence].
  - unfold slot_ok; simpl; split_and!;
      first [done | lia | intros ?; congruence].
Qed.

Lemma slot_effect_client st ev c s s' :
  slot_effect K st ev c s s' → s' = session_zero ∨ client s' = client s.
Proof. destruct 1; auto. Qed.

Lemma unique_insert (ss : list sasl_session) i s s' :
  (∀ i j s s', ss !! i = Some s → ss !! j = Some s' →
               client s ≠ NULL → client s = client s' → i = j) →
  ss !! i = Some s →
  client s' = NULL ∨ client s' = client s ∨
    Forall (λ x, client x ≠ client s') ss →
  ∀ a b sa sb, <[i := s']> ss !! a = Some sa → <[i := s']> ss !! b = Some sb →
               client sa ≠ NULL → client sa = client sb → a = b.
Proof.
  intros Huniq Hi Hs' a b sa sb Ha Hb Hnn Heq.
  assert (i < length ss) as Hlt by by eapply lookup_lt_Some.
  assert (∀ j x, j ≠ i → ss !! j = Some x → client x = client s' →
                 client s' ≠ NULL → False) as Hother.
  { intros j x Hj Hx Hcx Hnn'. destruct Hs' as [?|[Hsame|Hall]]; [done|..].
    - apply Hj. apply (Huniq j i x s); [done..|congruence|congruence].
    - rewrite Forall_lookup in Hall. by apply (Hall j x). }
  destruct (decide (a = i)) as [->|Ha'], (decide (b = i)) as [->|Hb'];
    [done|..].
  - rewrite list_lookup_insert_eq in Ha by done.
    rewrite list_lookup_insert_ne in Hb by done. simplify_eq.
    exfalso. by apply (Hother b sb).
  - rewrite list_lookup_insert_ne in Ha by done.
    rewrite list_lookup_insert_eq in Hb by done. simplify_eq.
    exfalso. apply (Hother a sa); [done..|congruence].
  - rewrite list_lookup_insert_ne in Ha by done.
    rewrite list_lookup_insert_ne in Hb by done. by eapply Huniq.
Qed.

Lemma table_effect_ok st ev ss' :
  table_ok (sessions st) → table_effect K st ev ss' → table_ok ss'.
Proof.
  intros (Hlen & Hall & Huniq) Heff.
  destruct Heff as [|_|c i s s' Hfind Hslot|c parv i s0 time _ Hnn Hnone Hfree].
  - done.
  - split_and!.
    + by rewrite length_replicate.
    + apply Forall_replicate.
      unfold slot_ok, SASL_MAX_MESSAGES, SASL_MAX_FAILURES; simpl;
        split_and!; done || lia.
    + intros i j s s' Hi _ Hnn _. apply lookup_replicate in Hi as [-> _].
      done.
  - apply find_session_Some in Hfind as [Hi Hc].
    split_and!.
    + by rewrite length_insert.
    + apply Forall_insert; [done|].
      eapply slot_effect_ok; [done| |done].
      rewrite Forall_lookup in Hall. by eapply Hall.
    + eapply unique_insert; [done..|].
      apply slot_effect_client in Hslot as [->|?]; auto.
  - apply list_find_Some in Hfree as (Hi & _ & _).
    apply find_session_None in Hnone.
    split_and!.
    + by rewrite length_insert.
    + apply Forall_insert; [done|].
      unfold slot_ok, SASL_MAX_MESSAGES, SASL_MAX_FAILURES; simpl;
        split_and!; done || lia.
    + eapply unique_insert; [done..|]. right; right. simpl.
      eapply Forall_impl; [done|]. simpl. auto.
Qed.

Lemma reachable_table_ok st : reachable K st → table_ok (sessions st).
Proof.
  induction 1 as [h|st ev st' out _ IH Hstep].
  - simpl. split_and!.
    + apply length_replicate.
    + apply Forall_replicate.
      unfold slot_ok, SASL_MAX_MESSAGES, SASL_MAX_FAILURES; simpl;
        split_and!; done || lia.
    + intros i j s s' Hi _ Hnn _. apply lookup_replicate in Hi as [-> _].
      done.
  - eapply table_effect_ok; [done|]. by eapply step_table_effect.
Qed.


(** C10: in a reachable state no session in use has [complete] set. *)
Theorem live_session_not_complete st i s :
  reachable K st → sessions st !! i = Some s → client s ≠ NULL →
  complete s = false.
Proof.
  intros Hreach Hi _. apply reachable_table_ok in Hreach as (_ & Hall & _).
  rewrite Forall_lookup in Hall. by apply (Hall i s Hi).
Qed.

Lemma assign_uid_spec h source src h' src' :
  deref h source = Some src →
  assign_uid K h source src = Some (h', src') →
  deref h' source = Some src' ∧
  src' = set_id src (id src') ∧
  (id src ≠ EmptyString → h' = h ∧ src' = src) ∧
  me_id h' = me_id h ∧ caps h' = caps h ∧ now h' = now h ∧
  ∀ p, p ≠ source → deref h' p = deref h p.
Proof.
  intros Hsrc. unfold assign_uid. case_decide as Hid.
  - destruct (uid_loop _ _) as [[uid rest]|]; [|done]. simpl.
    destruct source as [|a]; [done|]. simpl in *. rewrite Hsrc. simpl.
    intros [= <- <-]. simpl. rewrite lookup_insert_eq.
    split_and!; try done.
    intros [|b] Hb; [done|]. simpl. apply lookup_insert_ne. congruence.
  - intros [= <- <-]. split_and!; try done. by destruct src.
Qed.

(** C7: with every slot in use, a mechanism selection from a client without
    a session gets numeric 904 and nothing else happens: no line goes to the
    servers, the table is as before, and the client record is still there,
    still locally connected (only its UID may have been assigned). *)
Theorem authenticate_table_full st source src parv mech h src' :
  deref (env st) source = Some src → HasCap src CAP_SASL = true →
  parv !! 1%nat = Some mech → mech ≠ "*" →
  sasl_find_session (sessions st) source = None →
  table_full (sessions st) →
  assign_uid K (env st) source src = Some (h, src') →
  ∃ st',
    mr_authenticate K st source parv
    = Some (st', [Numeric source 904
                    (name src +:+ " :SASL authentication failed")]) ∧
    sessions st' = sessions st ∧
    deref (env st') source = Some src' ∧
    MyConnect src' = MyConnect src.
Proof.
  intros Hsrc Hcap H1 Hstar Hnone [_ Hfull] Huid.
  unfold mr_authenticate. rewrite Hsrc. simpl. rewrite Hcap. simpl.
  rewrite H1. simpl. rewrite decide_False by done.
  rewrite Huid. simpl. rewrite Hnone.
  rewrite new_session_full by done.
  destruct (assign_uid_spec _ _ _ _ _ Hsrc Huid) as (Hd & Heq & _).
  exists (mkState h (sessions st)). simpl. split_and!; try done.
  - by rewrite Heq.
  - by rewrite Heq.
Qed.


(** What one step does to a given slot. *)
Lemma step_slot st ev st' out i s s' :
  table_ok (sessions st) →
  step K st ev = Some (st', out) →
  sessions st !! i = Some s → sessions st' !! i = Some s' →
  s' = s ∨ s' = session_zero ∨
  (client s ≠ NULL ∧ slot_effect K st ev (client s) s s') ∨
  (s = session_zero ∧
   ∃ c time, c ≠ NULL ∧ s' = set_start_time (set_client session_zero c) time).
Proof.
  intros (_ & Hall & _) Hstep Hi Hi'.
  apply step_table_effect in Hstep.
  assert (i < length (sessions st)) as Hlt by by eapply lookup_lt_Some.
  destruct Hstep as [|_|c j sj sj' Hfind Hslot|c parv j s0 time _ Hnn _ Hfree].
  - left. congruence.
  - right; left. by apply lookup_replicate in Hi' as [-> _].
  - destruct (decide (j = i)) as [->|Hne].
    + rewrite list_lookup_insert_eq in Hi' by done.
      apply find_session_Some in Hfind as [Hj Hc].
      assert (sj = s) as -> by congruence.
      assert (sj' = s') as -> by congruence. subst c.
      destruct (decide (client s = NULL)) as [Hnull|Hnn].
      * destruct Hslot as [|Hcont _| |]; [by auto|..|done|done].
        apply is_continuation_inv in Hcont as (? & ? & ? & _ & Hsrc & _).
        by apply deref_not_null in Hsrc.
      * right; right; left. done.
    + rewrite list_lookup_insert_ne in Hi' by done. left. congruence.
  - destruct (decide (j = i)) as [->|Hne].
    + rewrite list_lookup_insert_eq in Hi' by done.
      apply list_find_Some in Hfree as (Hj & Hfree & _).
      assert (s0 = s) as -> by congruence.
      right; right; right. split; [|exists c, time; split; congruence].
      rewrite Forall_lookup in Hall. by apply (Hall i s Hi).
    + rewrite list_lookup_insert_ne in Hi' by done. left. congruence.
Qed.


(** A property of all states before the events of a run and of its final
    state holds of the first state. *)
Lemma run_first (P : State → Prop) evs st tr st' :
  run K st evs = Some (tr, st') →
  Forall (λ x, P x.1.1) tr → P st' → P st.
Proof.
  destruct evs as [|ev evs]; simpl.
  - by intros [= _ <-].
  - destruct (step K st ev) as [[st1 out]|]; [|done]. simpl.
    destruct (run K st1 evs) as [[tr1 st2]|]; [|done]. simpl.
    intros [= <- _] Hall _. by inversion Hall.
Qed.

(** C6: a non-empty [agent] stays what it is for as long as the slot holds
    the session, whatever events come; and the one step that can put a new
    non-empty value into [agent] is a SASL message of type [C] for a session
    whose [agent] is empty. *)
Theorem agent_bound_once st i s :
  reachable K st → sessions st !! i = Some s →
  (∀ evs tr st',
     agent s ≠ EmptyString →
     run K st evs = Some (tr, st') →
     Forall (λ x, live_at i x.1.1) tr → live_at i st' →
     ∃ s', sessions st' !! i = Some s' ∧
           client s' = client s ∧ agent s' = agent s) ∧
  (∀ ev st' out s',
     step K st ev = Some (st', out) → sessions st' !! i = Some s' →
     agent s' ≠ EmptyString → agent s' ≠ agent s →
     client s' = client s ∧ agent s = EmptyString ∧
     ∃ source parv ag ty,
       ev = EvSasl source parv ∧ parv !! 1%nat = Some ag ∧
       parv !! 3%nat = Some ty ∧ char0 ty = "C"%char ∧
       s' = set_agent s (strlcpy (agent s) ag (IDLEN K + 1))).
Proof.
  intros Hreach Hi. split.
  - intros evs. revert st s Hreach Hi.
    induction evs as [|ev evs IH]; intros st s Hreach Hi tr st' Hag; simpl.
    + intros [= _ <-] _ _. by exists s.
    + destruct (step K st ev) as [[st1 out]|] eqn:Hstep; [|done]. simpl.
      destruct (run K st1 evs) as [[tr1 st2]|] eqn:Hrun; [|done]. simpl.
      intros [= <- <-] Hall Hlive. inversion Hall as [|? ? _ Hall1]; subst.
      destruct (run_first (live_at i) _ _ _ _ Hrun Hall1 Hlive)
        as (s1 & Hi1 & Hnn1).
      assert (client s1 = client s ∧ agent s1 = agent s) as [Hc1 Ha1].
      { destruct (step_slot st ev st1 out i s s1) as [->|[->|[[_ Heff]|[-> _]]]];
          [by apply reachable_table_ok|done..| | | |]; try done.
        destruct Heff; try done. }
      destruct (IH st1 s1) with (tr := tr1) (st' := st2)
        as (s' & Hi' & Hc' & Ha'); try done.
      * by eapply reachable_step.
      * congruence.
      * exists s'. split; [done|]. split; congruence.
  - intros ev st' out s' Hstep Hi' Hne Hchg.
    destruct (step_slot st ev st' out i s s') as [->|[->|[[_ Heff]|[-> Hnew]]]];
      [by apply reachable_table_ok|done..| | | |]; try done.
    + destruct Heff as [| | |source parv ag ty -> _ H1 H3 Hty Hempty];
        try done.
      split; [done|]. split; [done|]. by exists source, parv, ag, ty.
    + by destruct Hnew as (c & time & _ & ->).
Qed.


(** *** The session of a client across a step *)

Lemma find_insert_other (ss : list sasl_session) c i s j s' :
  sasl_find_session ss c = Some (i, s) → j ≠ i → client s' ≠ c →
  sasl_find_session (<[j := s']> ss) c = Some (i, s).
Proof.
  unfold sasl_find_session. intros Hfind Hne Hc.
  apply list_find_Some in Hfind as (Hi & Hs & Hbefore).
  apply list_find_Some. split_and!; [|done|].
  - by rewrite list_lookup_insert_ne.
  - intros k y Hk Hlt. destruct (decide (k = j)) as [->|Hkj].
    + apply list_lookup_insert_Some in Hk as [(_ & <- & _)|(? & _)]; done.
    + rewrite list_lookup_insert_ne in Hk by done. by eapply Hbefore.
Qed.

Lemma find_insert_same (ss : list sasl_session) c i s s' :
  sasl_find_session ss c = Some (i, s) → client s' = c →
  sasl_find_session (<[i := s']> ss) c = Some (i, s').
Proof.
  unfold sasl_find_session. intros Hfind Hc.
  apply list_find_Some in Hfind as (Hi & Hs & Hbefore).
  apply list_find_Some. split_and!; [|done|].
  - apply list_lookup_insert_eq. by eapply lookup_lt_Some.
  - intros k y Hk Hlt. rewrite list_lookup_insert_ne in Hk by lia.
    by eapply Hbefore.
Qed.

Lemma find_insert_gone (ss : list sasl_session) c i s s' :
  table_ok ss → c ≠ NULL →
  sasl_find_session ss c = Some (i, s) → client s' ≠ c →
  sasl_find_session (<[i := s']> ss) c = None.
Proof.
  intros (_ & _ & Huniq) Hnn Hfind Hc.
  apply find_session_Some in Hfind as [Hi Hs].
  apply find_session_None, Forall_lookup. intros k y Hk.
  destruct (decide (k = i)) as [->|Hki].
  - apply list_lookup_insert_Some in Hk as [(_ & <- & _)|(? & _)]; done.
  - rewrite list_lookup_insert_ne in Hk by done. intros Hy.
    apply Hki. apply (Huniq k i y s); congruence.
Qed.

Lemma find_session_fun (ss : list sasl_session) c c' i s s' :
  sasl_find_session ss c = Some (i, s) →
  sasl_find_session ss c' = Some (i, s') → c = c'.
Proof.
  intros [H1 <-]%find_session_Some [H2 <-]%find_session_Some. congruence.
Qed.

(** Across one step a session that survives keeps its slot, and its
    message count grows by one exactly when the step is a continuation. *)
Lemma step_session_messages st ev st' out c i s i' s' :
  table_ok (sessions st) → c ≠ NULL →
  sasl_find_session (sessions st) c = Some (i, s) →
  step K st ev = Some (st', out) →
  sasl_find_session (sessions st') c = Some (i', s') →
  i' = i ∧
  messages s'
  = (messages s + Z.of_nat (if is_continuation c st ev then 1 else 0))%Z.
Proof.
  intros Hok Hnn Hfind Hstep Hfind'.
  pose proof (proj1 (find_session_Some _ _ _ _ Hfind)) as Hi.
  destruct Hok as (Hlen & Hall & Huniq).
  assert (slot_ok s) as (Hm & _).
  { rewrite Forall_lookup in Hall. by apply (Hall i s). }
  assert (table_ok (sessions st)) as Hok by done.
  destruct (is_continuation c st ev) eqn:Hcont.
  - apply is_continuation_inv in Hcont
      as (parv & src & data & -> & Hsrc & Hcap & H1 & Hstar & _).
    simpl in Hstep. unfold with_args_min in Hstep.
    case_decide; [|done]. unfold mr_authenticate in Hstep.
    rewrite Hsrc in Hstep. simpl in Hstep. rewrite Hcap in Hstep.
    simpl in Hstep. rewrite H1 in Hstep. simpl in Hstep.
    rewrite decide_False in Hstep by done.
    destruct (assign_uid _ _ _ _) as [[h src']|]; [|done]. simpl in Hstep.
    rewrite Hfind in Hstep.
    destruct (_ <? _)%Z eqn:Hlim; injection Hstep as <- <-; simpl in Hfind'.
    + unfold sasl_clear_session in Hfind'.
      rewrite list_insert_insert_eq in Hfind'.
      rewrite (find_insert_gone _ c i s) in Hfind'; done.
    + rewrite (find_insert_same _ c i s) in Hfind'
        by (done || by apply find_session_Some in Hfind as [_ ?]).
      injection Hfind' as <- <-. split; [done|]. simpl.
      unfold SASL_MAX_MESSAGES in *. apply uint_incr_small. lia.
  - rewrite Z.add_0_r.
    apply step_table_effect in Hstep.
    destruct Hstep as [|_|c0 j sj sj' Hfind0 Hslot
                       |c0 parv j s0 time _ Hnn0 Hnone Hfree].
    + rewrite Hfind in Hfind'. by injection Hfind' as <- <-.
    + apply find_session_Some in Hfind' as [Hz <-].
      by apply lookup_replicate in Hz as [-> _].
    + destruct (decide (j = i)) as [->|Hne].
      * assert (c0 = c) as -> by by eapply find_session_fun.
        assert (sj = s) as -> by congruence.
        destruct Hslot as [| |source parv -> _ _|source parv ag ty -> _ _ _ _ _].
        -- rewrite (find_insert_gone _ c i s) in Hfind'; done.
        -- congruence.
        -- rewrite (find_insert_same _ c i s) in Hfind'
             by (done || by apply find_session_Some in Hfind as [_ ?]).
           by injection Hfind' as <- <-.
        -- rewrite (find_insert_same _ c i s) in Hfind'
             by (done || by apply find_session_Some in Hfind as [_ ?]).
           by injection Hfind' as <- <-.
      * rewrite (find_insert_other _ c i s) in Hfind'; [|done..|].
        { by injection Hfind' as <- <-. }
        apply slot_effect_client in Hslot as [-> | Hcl];
          [simpl; congruence|].
        rewrite Hcl. apply find_session_Some in Hfind0 as [Hj Hc0]. intros Hc.
        apply Hne. apply find_session_Some in Hfind as [_ <-].
        apply (Huniq j i sj s); congruence.
    + apply list_find_Some in Hfree as (Hj & Hfree & _).
      rewrite (find_insert_other _ c i s) in Hfind'.
      * by injection Hfind' as <- <-.
      * done.
      * intros ->. apply find_session_Some in Hfind as [_ Hc]. congruence.
      * simpl. intros ->. congruence.
Qed.


(** A session that appears in a step starts with a zero message count. *)
Lemma opening_fresh st ev st0 out c i s :
  table_ok (sessions st) →
  sasl_find_session (sessions st) c = None →
  step K st ev = Some (st0, out) →
  sasl_find_session (sessions st0) c = Some (i, s) →
  messages s = 0%Z.
Proof.
  intros Hok Hnone Hstep Hfind.
  apply find_session_Some in Hfind as [Hi Hc].
  assert (∀ x, sessions st !! i = Some x → client x ≠ c) as Hold.
  { intros x Hx. apply find_session_None in Hnone.
    rewrite Forall_lookup in Hnone. by apply (Hnone i x). }
  apply step_table_effect in Hstep.
  destruct Hstep as [|_|c0 j sj sj' Hfind0 Hslot
                     |c0 parv j s0 time _ Hnn0 _ Hfree].
  - by destruct (Hold s Hi).
  - by apply lookup_replicate in Hi as [-> _].
  - apply list_lookup_insert_Some in Hi as [(-> & <- & _)|(_ & Hi)];
      [|by destruct (Hold s Hi)].
    apply find_session_Some in Hfind0 as [Hj Hc0].
    apply slot_effect_client in Hslot as [-> | Hcl]; [done|].
    destruct (Hold sj Hj). congruence.
  - apply list_lookup_insert_Some in Hi as [(_ & <- & _)|(_ & Hi)];
      [done|by destruct (Hold s Hi)].
Qed.

(** Along a run that a session survives, its message count is the number
    of continuations so far. *)
Lemma run_session_messages c evs st tr st' i s i' s' :
  reachable K st → c ≠ NULL →
  sasl_find_session (sessions st) c = Some (i, s) →
  run K st evs = Some (tr, st') →
  Forall (λ x, is_Some (sasl_find_session (sessions x.1.1) c)) tr →
  sasl_find_session (sessions st') c = Some (i', s') →
  i' = i ∧ messages s' = (messages s + Z.of_nat (continuations c tr))%Z.
Proof.
  intros Hreach Hnn. revert st tr i s Hreach.
  induction evs as [|ev evs IH]; intros st tr i s Hreach Hfind; simpl.
  - intros [= <- <-] _ Hfind'. rewrite Hfind in Hfind'.
    injection Hfind' as <- <-. simpl. split; [done|lia].
  - destruct (step K st ev) as [[st1 out]|] eqn:Hstep; [|done]. simpl.
    destruct (run K st1 evs) as [[tr1 st2]|] eqn:Hrun; [|done]. simpl.
    intros [= <- <-] Hall Hfind'. inversion Hall as [|? ? _ Hall1]; subst.
    destruct (run_first (λ x, is_Some (sasl_find_session (sessions x) c))
                _ _ _ _ Hrun Hall1) as [[i1 s1] Hfind1]; [by eexists|].
    destruct (step_session_messages st ev st1 out c i s i1 s1)
      as [-> Hm1]; [by apply reachable_table_ok|done..|].
    destruct (IH st1 tr1 i s1) as [-> Hm']; [by eapply reachable_step|done..|].
    split; [done|]. simpl. rewrite Hm', Hm1.
    destruct (is_continuation c st ev); lia.
Qed.

(** C2 (amended): in a session that has lived since its mechanism
    selection, a continuation that follows fewer than 20 earlier ones (so
    the 20th too) is relayed to the servers as a [C] line and the session
    stays, one message further; the 21st gets numeric 904 with the text
    [SASL message limit exceeded], a [D A] line when an agent is bound, and
    the session is cleared. *)
Theorem message_budget st_pre ev0 out0 st0 evs tr st c src parv data h src'
    i s :
  reachable K st_pre →
  sasl_find_session (sessions st_pre) c = None →
  step K st_pre ev0 = Some (st0, out0) →
  run K st0 evs = Some (tr, st) →
  Forall (λ x, is_Some (sasl_find_session (sessions x.1.1) c)) tr →
  sasl_find_session (sessions st) c = Some (i, s) →
  deref (env st) c = Some src → HasCap src CAP_SASL = true →
  parv !! 1%nat = Some data → data ≠ "*" →
  assign_uid K (env st) c src = Some (h, src') →
  (continuations c tr < 20 →
   mr_authenticate K st c parv
   = Some (mkState h
             (<[i := set_messages s (Z.of_nat (continuations c tr + 1))]>
                (sessions st)),
           [ToServers (":" +:+ me_id h +:+ " ENCAP * SASL " +:+ id src'
                       +:+ " "
                       +:+ (if decide (agent s ≠ EmptyString) then agent s
                            else "*")
                       +:+ " C " +:+ data)])) ∧
  (continuations c tr = 20 →
   mr_authenticate K st c parv
   = Some (mkState h (<[i := session_zero]> (sessions st)),
           Numeric c 904 (name src +:+ " :SASL message limit exceeded")
           :: (if decide (agent s ≠ EmptyString)
               then [ToServers (abort_line h (id src') (agent s))]
               else []))).
Proof.
  intros Hreach Hnone Hstep Hrun Hall Hfind Hsrc Hcap H1 Hstar Huid.
  assert (reachable K st0) as Hreach0 by by eapply reachable_step.
  destruct (run_first (λ x, is_Some (sasl_find_session (sessions x) c))
              _ _ _ _ Hrun Hall) as [[i0 s0] Hfind0]; [by eexists|].
  assert (messages s0 = 0%Z) as Hm0.
  { eapply opening_fresh; [|done..]. by apply reachable_table_ok. }
  destruct (run_session_messages c evs st0 tr st i0 s0 i s) as [-> Hm];
    [done|by eapply deref_not_null|done..|].
  rewrite Hm0 in Hm. simpl in Hm.
  assert (name src' = name src) as Hname.
  { destruct (assign_uid_spec _ _ _ _ _ Hsrc Huid) as (_ & -> & _). done. }
  unfold mr_authenticate. rewrite Hsrc. simpl. rewrite Hcap. simpl.
  rewrite H1. simpl. rewrite decide_False by done.
  rewrite Huid. simpl. rewrite Hfind. simpl.
  unfold SASL_MAX_MESSAGES. split.
  - intros Hlt. rewrite uint_incr_small by lia.
    destruct (Z.ltb_spec 20 (messages s + 1)); [lia|].
    repeat f_equal; lia.
  - intros Heq. rewrite uint_incr_small by lia.
    destruct (Z.ltb_spec 20 (messages s + 1)); [|lia].
    unfold sasl_clear_session. rewrite list_insert_insert_eq.
    by rewrite Hname.
Qed.

(** C5: a failed [D] outcome for a client with a session sends 904 and
    counts: the session's slot afterwards holds one failure more than
    before.  While that count is below 3 the session stays, everything else
    in it as it was, and is still the client's session; when the count
    reaches 3 the slot is all zero and the client has no session any more.
    No other slot changes. *)
Theorem failure_counts st source parv uid ty tc i s :
  reachable K st →
  parv !! 2%nat = Some uid → parv !! 3%nat = Some ty →
  local_target (env st) uid tc →
  char0 ty = "D"%char →
  (∀ data, parv !! 4%nat = Some data → char0 data ≠ "S"%char) →
  sasl_find_session (sessions st) (hash_find_id (env st) uid) = Some (i, s) →
  ∃ st' s',
    me_sasl K st source parv
    = Some (st', [Numeric (hash_find_id (env st) uid) 904
                    (name tc +:+ " :SASL authentication failed")]) ∧
    env st' = env st ∧
    length (sessions st') = length (sessions st) ∧
    sessions st' !! i = Some s' ∧
    (∀ j, j ≠ i → sessions st' !! j = sessions st !! j) ∧
    ((failures s + 1 < 3)%Z ∧
       failures s' = (failures s + 1)%Z ∧
       client s' = client s ∧ agent s' = agent s ∧
       messages s' = messages s ∧ start_time s' = start_time s ∧
       complete s' = complete s ∧
       sasl_find_session (sessions st') (hash_find_id (env st) uid)
       = Some (i, s')
     ∨ (failures s + 1 = 3)%Z ∧
       s' = mkSession NULL EmptyString 0 0 0 false ∧
       sasl_find_session (sessions st') (hash_find_id (env st) uid) = None).
Proof.
  intros Hreach H2 H3 Hloc Hty Hfail Hfind.
  pose proof (reachable_table_ok st Hreach) as Hok.
  pose proof Hok as (_ & Hall & _).
  pose proof (proj1 (find_session_Some _ _ _ _ Hfind)) as Hi.
  pose proof (proj2 (find_session_Some _ _ _ _ Hfind)) as Hc.
  assert (i < length (sessions st)) as Hlt by by eapply lookup_lt_Some.
  assert (hash_find_id (env st) uid ≠ NULL) as Hnn by by destruct Hloc.
  rewrite Forall_lookup in Hall. destruct (Hall i s Hi) as (_ & Hf & _).
  unfold SASL_MAX_FAILURES in Hf.
  rewrite (sasl_done_failure K st source parv uid ty tc); [|done..|].
  - rewrite Hfind. exists (set_sessions st
                             (<[i := after_failure s]> (sessions st))),
      (after_failure s).
    split; [reflexivity|]. simpl. split_and!.
    + done.
    + apply length_insert.
    + by apply list_lookup_insert_eq.
    + intros j Hj. by apply list_lookup_insert_ne.
    + unfold after_failure, SASL_MAX_FAILURES.
      rewrite uint_incr_small by lia.
      destruct (Z.leb_spec 3 (failures s + 1)); [right|left].
      * split_and!; [lia|done|].
        by apply (find_insert_gone _ _ i s).
      * split_and!; try done.
        by apply (find_insert_same _ _ i s).
  - intros [Hlen HS]. destruct (parv !! 4%nat) as [data|] eqn:H4.
    + by apply (Hfail data).
    + apply lookup_ge_None in H4. lia.
Qed.

End Runs.

(** ** The properties on the example network *)

Import Example.

Lemma reachable_idle : reachable K0 st_idle.
Proof. apply reachable_init. Qed.

Lemma reachable_open : reachable K0 st_open.
Proof.
  apply (reachable_step K0 st_idle ev_select st_open
           [ToServers ":0HY ENCAP * SASL C1 * H example.org 192.0.2.7";
            ToServers ":0HY ENCAP * SASL C1 * S PLAIN"]).
  - apply reachable_idle.
  - vm_compute. reflexivity.
Qed.

Lemma reachable_bound : reachable K0 st_bound.
Proof.
  apply (reachable_step K0 st_open ev_bind st_bound
           [ToOne 1%N "AUTHENTICATE +"]).
  - apply reachable_open.
  - vm_compute. reflexivity.
Qed.

Lemma sasl_done_success_witness :
  ∃ st',
    me_sasl K0 st_idle 2%N ["SASL"; "AG"; "C1"; "D"; "S"]
    = Some (st', [Numeric (hash_find_id (env st_idle) "C1") 900
                    (logged_in_body alice);
                  Numeric (hash_find_id (env st_idle) "C1") 903
                    (name alice +:+ " :SASL authentication successful")]) ∧
    env st' = env st_idle ∧
    match sasl_find_session (sessions st_idle) (hash_find_id (env st_idle) "C1")
    with
    | Some (i, _) => sessions st' = <[i := session_zero]> (sessions st_idle)
    | None => st' = st_idle
    end.
Proof.
  apply (sasl_done_success K0 st_idle 2%N ["SASL"; "AG"; "C1"; "D"; "S"]
           "C1" "D" "S" alice); try reflexivity.
  vm_compute. split_and!; done.
Defined.

Lemma sasl_done_missing_data_witness :
  ∃ st',
    me_sasl K0 st_open 2%N ["SASL"; "AG"; "C1"; "D"]
    = Some (st', [Numeric (hash_find_id (env st_open) "C1") 904
                    (name alice +:+ " :SASL authentication failed")]) ∧
    env st' = env st_open ∧
    match sasl_find_session (sessions st_open) (hash_find_id (env st_open) "C1")
    with
    | Some (i, s) =>
        sessions st'
        = <[i := if (3 <=? uint_incr (failures s))%Z then session_zero
                 else set_failures s (uint_incr (failures s))]>
            (sessions st_open)
    | None => st' = st_open
    end.
Proof.
  apply (sasl_done_missing_data K0 st_open 2%N ["SASL"; "AG"; "C1"; "D"]
           "C1" "D" alice); try reflexivity.
  - simpl. lia.
  - vm_compute. split_and!; done.
Defined.

(** C1, as stated, fails: the message is not dropped.  [alice] gets 904 and
    her session counts a failure. *)
Lemma sasl_done_missing_data_not_dropped :
  local_target (env st_open) "C1" alice ∧
  length ["SASL"; "AG"; "C1"; "D"] < 5 ∧
  me_sasl K0 st_open 2%N ["SASL"; "AG"; "C1"; "D"]
  = Some (mkState host0
            (<[0%nat := mkSession 1%N EmptyString 0 1 1000 false]>
               sessions_init),
          [Numeric 1%N 904 "alice :SASL authentication failed"]) ∧
  ¬ dropped_silently st_open
      (me_sasl K0 st_open 2%N ["SASL"; "AG"; "C1"; "D"]).
Proof.
  split_and!.
  - vm_compute. split_and!; done.
  - simpl. lia.
  - vm_compute. reflexivity.
  - unfold dropped_silently. vm_compute. discriminate.
Qed.

Lemma reachable_two_failures : reachable K0 Scenario.st_two_failures.
Proof.
  apply (reachable_step K0
           (mkState host0
              (<[0%nat := mkSession 1%N EmptyString 0 1 1000 false]>
                 sessions_init))
           Scenario.ev_fail Scenario.st_two_failures
           [Numeric 1%N 904 "alice :SASL authentication failed"]).
  - apply (reachable_step K0 st_open Scenario.ev_fail _
             [Numeric 1%N 904 "alice :SASL authentication failed"]).
    + apply reachable_open.
    + vm_compute. reflexivity.
  - vm_compute. reflexivity.
Qed.

Lemma find_alice_open :
  sasl_find_session (sessions st_open) (hash_find_id (env st_open) "C1")
  = Some (0, mkSession 1%N EmptyString 0 0 1000 false).
Proof. vm_compute. reflexivity. Qed.

Lemma find_alice_bound :
  sasl_find_session (sessions st_bound) (hash_find_id (env st_bound) "C1")
  = Some (0, mkSession 1%N "AG" 0 0 1000 false).
Proof. vm_compute. reflexivity. Qed.

Lemma find_alice_two_failures :
  sasl_find_session (sessions Scenario.st_two_failures)
    (hash_find_id (env Scenario.st_two_failures) "C1")
  = Some (0, mkSession 1%N EmptyString 0 2 1000 false).
Proof. vm_compute. reflexivity. Qed.

Lemma alice_is_local st :
  env st = host0 → local_target (env st) "C1" alice.
Proof. intros ->. vm_compute. split_and!; done. Qed.

Lemma failure_counts_witness :
  (∃ st',
     me_sasl K0 st_open 2%N ["SASL"; "AG"; "C1"; "D"; "F"]
     = Some (st', [Numeric (hash_find_id (env st_open) "C1") 904
                     (name alice +:+ " :SASL authentication failed")]) ∧
     sessions st' !! 0%nat = Some (mkSession 1%N EmptyString 0 1 1000 false) ∧
     sasl_find_session (sessions st') (hash_find_id (env st_open) "C1")
     = Some (0, mkSession 1%N EmptyString 0 1 1000 false)) ∧
  (∃ st',
     me_sasl K0 Scenario.st_two_failures 2%N ["SASL"; "AG"; "C1"; "D"; "F"]
     = Some (st', [Numeric (hash_find_id (env Scenario.st_two_failures) "C1")
                     904 (name alice +:+ " :SASL authentication failed")]) ∧
     sessions st' !! 0%nat = Some (mkSession 0%N EmptyString 0 0 0 false) ∧
     sasl_find_session (sessions st')
       (hash_find_id (env Scenario.st_two_failures) "C1") = None).
Proof.
  assert (∀ data, ["SASL"; "AG"; "C1"; "D"; "F"] !! 4%nat = Some data →
                  char0 data ≠ "S"%char) as Hfail.
  { intros data [= <-]. discriminate. }
  split.
  - destruct (failure_counts K0 st_open 2%N ["SASL"; "AG"; "C1"; "D"; "F"]
                "C1" "D" alice 0 (mkSession 1%N EmptyString 0 0 1000 false)
                reachable_open eq_refl eq_refl (alice_is_local st_open eq_refl)
                eq_refl Hfail find_alice_open)
      as (st' & s' & Hrun & _ & _ & Hi & _ & Hcase).
    exists st'. split; [exact Hrun|].
    destruct Hcase as [(_ & Hf & Hc & Ha & Hm & Ht & Hco & Hfind)
                      | (Hcap & _)]; [|discriminate Hcap].
    destruct s' as [c a m f t co]. simpl in Hf, Hc, Ha, Hm, Ht, Hco.
    subst c a m f t co. split; [exact Hi|exact Hfind].
  - destruct (failure_counts K0 Scenario.st_two_failures 2%N
                ["SASL"; "AG"; "C1"; "D"; "F"]
                "C1" "D" alice 0 (mkSession 1%N EmptyString 0 2 1000 false)
                reachable_two_failures eq_refl eq_refl
                (alice_is_local Scenario.st_two_failures eq_refl)
                eq_refl Hfail find_alice_two_failures)
      as (st' & s' & Hrun & _ & _ & Hi & _ & Hcase).
    exists st'. split; [exact Hrun|].
    destruct Hcase as [(Hlt & _) | (_ & Hs & Hfind)]; [discriminate Hlt|].
    subst s'. split; [exact Hi|exact Hfind].
Defined.

Lemma relay_unresolved_target_witness :
  dropped_silently st_open
    (me_sasl K0 st_open 2%N ["SASL"; "AG"; "R1"; "D"; "S"]) ∧
  dropped_silently st_open
    (me_svslogin K0 st_open 2%N ["SVSLOGIN"; "ZZ"; "*"; "*"; "*"; "alice"]) ∧
  ∃ st', me_svslogin K0 st_open 2%N
           ["SVSLOGIN"; "R1"; "*"; "*"; "*"; "robert"] = Some (st', []) ∧
         sessions st' = sessions st_open.
Proof.
  split_and!.
  - apply (proj1 (relay_unresolved_target K0 st_open 2%N services
                    ["SASL"; "AG"; "R1"; "D"; "S"] eq_refl) "R1");
      [simpl; lia|reflexivity|].
    right. exists bob. vm_compute. split_and!; done.
  - apply (proj1 (proj2 (relay_unresolved_target K0 st_open 2%N services
                    ["SVSLOGIN"; "ZZ"; "*"; "*"; "*"; "alice"] eq_refl)) "ZZ");
      reflexivity.
  - apply (proj2 (proj2 (relay_unresolved_target K0 st_open 2%N services
                    ["SVSLOGIN"; "R1"; "*"; "*"; "*"; "robert"] eq_refl))
             "R1" bob); reflexivity.
Defined.

(** C3, as stated, fails for SVSLOGIN: [bob] is known but not locally
    connected, and his account is written all the same. *)
Lemma svslogin_remote_target_written :
  no_local_target (env st_open) "R1" ∧
  ∃ st',
    me_svslogin K0 st_open 2%N ["SVSLOGIN"; "R1"; "*"; "*"; "*"; "robert"]
    = Some (st', []) ∧
    account <$> deref (env st_open) 3%N = Some "*" ∧
    account <$> deref (env st') 3%N = Some "robert" ∧
    ¬ dropped_silently st_open
        (me_svslogin K0 st_open 2%N
           ["SVSLOGIN"; "R1"; "*"; "*"; "*"; "robert"]).
Proof.
  split.
  - right. exists bob. vm_compute. split_and!; done.
  - eexists. split; [vm_compute; reflexivity|].
    split_and!; [vm_compute; reflexivity..|].
    unfold dropped_silently. vm_compute. discriminate.
Qed.

Lemma mechlist_like_sasl_M_witness :
  ∃ st',
    me_mechlist st_idle 2%N ["MECHLIST"; "PLAIN EXTERNAL"] = Some (st', []) ∧
    me_sasl K0 st_idle 2%N ["SASL"; "AG"; "C1"; "M"; "PLAIN EXTERNAL"]
    = Some (st', []) ∧
    sessions st' = sessions st_idle ∧
    caps (env st') !! "sasl"
    = Some (CAP_SASL, advertised ["PLAIN EXTERNAL"]) ∧
    ∀ c, c ≠ "sasl" → caps (env st') !! c = caps (env st_idle) !! c.
Proof.
  apply (mechlist_like_sasl_M K0 st_idle 2%N 2%N "MECHLIST" "SASL" "AG" "C1"
           "M" ["PLAIN EXTERNAL"] alice); [|reflexivity].
  vm_compute. split_and!; done.
Defined.

(** C4, as stated, fails: a SASL [M] message whose target does not resolve
    (services address it to ["*"]) changes nothing, while MECHLIST with the
    same list replaces the advertised value. *)
Lemma sasl_M_unresolved_differs :
  ∃ st1 st2,
    me_mechlist st_idle 2%N ["MECHLIST"; "PLAIN EXTERNAL"] = Some (st1, []) ∧
    me_sasl K0 st_idle 2%N ["SASL"; "AG"; "*"; "M"; "PLAIN EXTERNAL"]
    = Some (st2, []) ∧
    caps (env st1) !! "sasl" = Some (CAP_SASL, Some "PLAIN EXTERNAL") ∧
    caps (env st2) !! "sasl" = Some (CAP_SASL, Some "PLAIN") ∧
    caps (env st1) ≠ caps (env st2).
Proof.
  exists (mkState (cap_register (cap_unregister host0 "sasl") CAP_SASL "sasl"
                     (Some "PLAIN EXTERNAL")) sessions_init), st_idle.
  split_and!; [vm_compute; reflexivity..|].
  intros Heq. apply (f_equal (λ m, m !! "sasl")) in Heq.
  vm_compute in Heq. discriminate.
Qed.

Lemma svslogin_writes_witness :
  (∃ st',
     me_svslogin K0 st_open 2%N
       ["SVSLOGIN"; "C1"; "*"; "*"; "cloak.example"; "alice"]
     = Some (st', []) ∧
     sessions st' = sessions st_open ∧
     clients (env st') !! 1%positive
     = Some (mkClient "alice" "C1" "al" "cloak.example" "192.0.2.7" "alice"
               CAP_SASL 0 false true)) ∧
  (∃ st',
     me_svslogin K0 st_open 2%N ["SVSLOGIN"; "C1"; "*"; "averylongident"]
     = Some (st', []) ∧
     sessions st' = sessions st_open ∧
     clients (env st') !! 1%positive
     = Some (mkClient "alice" "C1" "averylongi" "example.org" "192.0.2.7" "*"
               CAP_SASL 0 false true)).
Proof.
  split.
  - destruct (svslogin_writes K0 st_open 2%N services
                ["SVSLOGIN"; "C1"; "*"; "*"; "cloak.example"; "alice"] "C1"
                1%positive alice eq_refl (or_intror eq_refl) eq_refl eq_refl
                eq_refl)
      as (st' & tc' & Hrun & Hsess & Hrec & Hu & _ & _ & _ & Hh & Ha
          & Hn & Hid & Hsock & Hcap & Hfl & Hsrv & Hloc & _).
    exists st'. split; [exact Hrun|]. split; [exact Hsess|].
    rewrite Hrec. f_equal.
    destruct tc' as [n i u h sh ac cp fl sv lo].
    simpl in Hn, Hid, Hsock, Hcap, Hfl, Hsrv, Hloc.
    subst n i sh cp fl sv lo.
    assert (u = "al") as -> by exact Hu.
    assert (h = "cloak.example") as ->.
    { apply Hh; [reflexivity|discriminate|]. vm_compute. lia. }
    assert (ac = "alice") as ->.
    { apply Ha; [reflexivity|discriminate|]. vm_compute. lia. }
    reflexivity.
  - destruct (svslogin_writes K0 st_open 2%N services
                ["SVSLOGIN"; "C1"; "*"; "averylongident"] "C1"
                1%positive alice eq_refl (or_intror eq_refl) eq_refl eq_refl
                eq_refl)
      as (st' & tc' & Hrun & Hsess & Hrec & Hu & Hh & Ha & _ & _ & _
          & Hn & Hid & Hsock & Hcap & Hfl & Hsrv & Hloc & _).
    exists st'. split; [exact Hrun|]. split; [exact Hsess|].
    rewrite Hrec. f_equal.
    destruct tc' as [n i u h sh ac cp fl sv lo].
    simpl in Hn, Hid, Hsock, Hcap, Hfl, Hsrv, Hloc.
    subst n i sh cp fl sv lo.
    assert (u = "averylongi") as ->.
    { apply (cut_to_substring 10 "averylongident"). exact Hu. }
    assert (h = "example.org") as -> by exact Hh.
    assert (ac = "*") as -> by exact Ha.
    reflexivity.
Defined.

Lemma live_session_not_complete_witness :
  complete (mkSession 1%N "AG" 0 0 1000 false) = false.
Proof.
  apply (live_session_not_complete K0 st_bound 0
           (mkSession 1%N "AG" 0 0 1000 false)).
  - apply reachable_bound.
  - reflexivity.
  - discriminate.
Defined.

Lemma authenticate_table_full_witness :
  ∃ st',
    mr_authenticate K0 st_full 4%N ["AUTHENTICATE"; "PLAIN"]
    = Some (st', [Numeric 4%N 904
                    (name carol +:+ " :SASL authentication failed")]) ∧
    sessions st' = sessions st_full ∧
    deref (env st') 4%N = Some (set_id carol "0HYAAAAAA") ∧
    MyConnect (set_id carol "0HYAAAAAA") = MyConnect carol.
Proof.
  eapply (authenticate_table_full K0 st_full 4%N carol
            ["AUTHENTICATE"; "PLAIN"] "PLAIN"); try reflexivity.
  - discriminate.
  - split; [reflexivity|].
    unfold st_full. cbn [sessions]. apply Forall_fmap, Forall_forall.
    intros n _. unfold NULL. simpl. lia.
Defined.

(** The events between [alice]'s mechanism selection and her 21st
    continuation: services bind the agent, then she sends 20 chunks. *)
Lemma flood_run :
  ∃ tr,
    run K0 st_open (ev_bind :: replicate 20 ev_data) = Some (tr, st_flooded) ∧
    Forall (λ x, is_Some (sasl_find_session (sessions x.1.1) 1%N)) tr ∧
    continuations 1%N tr = 20.
Proof.
  eexists. split; [vm_compute; reflexivity|]. split.
  - apply (bool_decide_unpack _). vm_compute. exact I.
  - vm_compute. reflexivity.
Qed.

Lemma step_select :
  step K0 st_idle ev_select
  = Some (st_open,
          [ToServers ":0HY ENCAP * SASL C1 * H example.org 192.0.2.7";
           ToServers ":0HY ENCAP * SASL C1 * S PLAIN"]).
Proof. vm_compute. reflexivity. Qed.

Lemma message_budget_witness :
  mr_authenticate K0 st_flooded 1%N ["AUTHENTICATE"; "dXNlcg=="]
  = Some (mkState host0 (<[0%nat := session_zero]> (sessions st_flooded)),
          Numeric 1%N 904 (name alice +:+ " :SASL message limit exceeded")
          :: (if decide (agent (mkSession 1%N "AG" 20 0 1000 false)
                         ≠ EmptyString)
              then [ToServers (abort_line host0 (id alice)
                                 (agent (mkSession 1%N "AG" 20 0 1000 false)))]
              else [])).
Proof.
  destruct flood_run as (tr & Hrun & Hall & Hcount).
  assert (sasl_find_session (sessions st_idle) 1%N = None) as Hnone
    by (vm_compute; reflexivity).
  assert (sasl_find_session (sessions st_flooded) 1%N
          = Some (0, mkSession 1%N "AG" 20 0 1000 false)) as Hfind
    by (vm_compute; reflexivity).
  assert (deref (env st_flooded) 1%N = Some alice) as Hsrc
    by (vm_compute; reflexivity).
  assert (assign_uid K0 (env st_flooded) 1%N alice = Some (host0, alice))
    as Huid by (vm_compute; reflexivity).
  assert ("dXNlcg==" ≠ "*") as Hstar by discriminate.
  exact (proj2 (message_budget K0 st_idle ev_select _ st_open
                  (ev_bind :: replicate 20 ev_data) tr st_flooded
                  1%N alice ["AUTHENTICATE"; "dXNlcg=="] "dXNlcg==" host0
                  alice 0 (mkSession 1%N "AG" 20 0 1000 false)
                  reachable_idle Hnone step_select Hrun Hall Hfind Hsrc
                  eq_refl eq_refl Hstar Huid)
           Hcount).
Defined.

(** C2, as stated, fails in the text of the numeric: [alice]'s 21st
    continuation is answered with 904 [SASL message limit exceeded], and no
    904 [SASL authentication failed] is sent. *)
Lemma message_budget_other_text :
  step K0 st_idle ev_select
  = Some (st_open,
          [ToServers ":0HY ENCAP * SASL C1 * H example.org 192.0.2.7";
           ToServers ":0HY ENCAP * SASL C1 * S PLAIN"]) ∧
  (∃ tr, run K0 st_open (ev_bind :: replicate 20 ev_data)
         = Some (tr, st_flooded) ∧ continuations 1%N tr = 20) ∧
  step K0 st_flooded ev_data
  = Some (st_idle,
          [Numeric 1%N 904 "alice :SASL message limit exceeded";
           ToServers ":0HY ENCAP * SASL C1 AG D A"]) ∧
  Numeric 1%N 904 "alice :SASL authentication failed"
  ∉ [Numeric 1%N 904 "alice :SASL message limit exceeded";
     ToServers ":0HY ENCAP * SASL C1 AG D A"].
Proof.
  split; [apply step_select|]. split; [|split].
  - destruct flood_run as (tr & Hrun & _ & Hcount).
    exists tr. split; assumption.
  - vm_compute. reflexivity.
  - intros Hin. apply elem_of_cons in Hin as [Heq|Hin]; [discriminate Heq|].
    apply elem_of_cons in Hin as [Heq|Hin]; [discriminate Heq|].
    by apply elem_of_nil in Hin.
Qed.

Lemma relay_run :
  run K0 st_bound [ev_data; ev_rebind]
  = Some ([(st_bound, ev_data,
            [ToServers ":0HY ENCAP * SASL C1 AG C dXNlcg=="]);
           (st_relayed, ev_rebind, [ToOne 1%N "AUTHENTICATE +"])],
          st_relayed).
Proof. vm_compute. reflexivity. Qed.

Lemma step_bind :
  step K0 st_open ev_bind = Some (st_bound, [ToOne 1%N "AUTHENTICATE +"]).
Proof. vm_compute. reflexivity. Qed.

Lemma agent_bound_once_witness :
  (∃ s', sessions st_relayed !! 0%nat = Some s' ∧
         client s' = client (mkSession 1%N "AG" 0 0 1000 false) ∧
         agent s' = agent (mkSession 1%N "AG" 0 0 1000 false)) ∧
  (client (mkSession 1%N "AG" 0 0 1000 false)
   = client (mkSession 1%N EmptyString 0 0 1000 false) ∧
   agent (mkSession 1%N EmptyString 0 0 1000 false) = EmptyString ∧
   ∃ source parv ag ty,
     ev_bind = EvSasl source parv ∧ parv !! 1%nat = Some ag ∧
     parv !! 3%nat = Some ty ∧ char0 ty = "C"%char ∧
     mkSession 1%N "AG" 0 0 1000 false
     = set_agent (mkSession 1%N EmptyString 0 0 1000 false)
         (strlcpy (agent (mkSession 1%N EmptyString 0 0 1000 false)) ag
            (IDLEN K0 + 1))).
Proof.
  assert (live_at 0 st_bound) as Hlive1.
  { exists (mkSession 1%N "AG" 0 0 1000 false). split; [reflexivity|done]. }
  assert (live_at 0 st_relayed) as Hlive2.
  { exists (mkSession 1%N "AG" 1 0 1000 false). split; [reflexivity|done]. }
  split.
  - apply (proj1 (agent_bound_once K0 st_bound 0
                    (mkSession 1%N "AG" 0 0 1000 false)
                    reachable_bound eq_refl) [ev_data; ev_rebind] _ st_relayed
             ltac:(discriminate) relay_run).
    + constructor; [exact Hlive1|]. constructor; [exact Hlive2|].
      constructor.
    + exact Hlive2.
  - apply (proj2 (agent_bound_once K0 st_open 0
                    (mkSession 1%N EmptyString 0 0 1000 false)
                    reachable_open eq_refl) ev_bind st_bound
             [ToOne 1%N "AUTHENTICATE +"] (mkSession 1%N "AG" 0 0 1000 false)
             step_bind eq_refl); discriminate.
Defined.

(** * Further properties of the code *)

(** ** The session table and its three helpers *)

Section TableHelpers.

Context (K : Host.Consts).

(** X1: in a reachable state no client has two slots: two slots in use with
    the same client are the same slot. *)
Theorem reachable_sessions_unique st i j s s' :
  reachable K st →
  sessions st !! i = Some s → sessions st !! j = Some s' →
  client s ≠ NULL → client s = client s' → i = j.
Proof.
  intros Hreach. apply reachable_table_ok in Hreach as (_ & _ & Huniq).
  apply Huniq.
Qed.

(** X2: in a reachable state the table has 256 slots, a slot's message count
    is at most 20 and its failure count at most 2, and a slot that is not in
    use is all zero. *)
Theorem reachable_slots_bounded st i s :
  reachable K st → sessions st !! i = Some s →
  length (sessions st) = 256 ∧
  (0 ≤ messages s ≤ 20)%Z ∧ (0 ≤ failures s ≤ 2)%Z ∧
  (client s = NULL → s = session_zero).
Proof.
  intros Hreach Hi. apply reachable_table_ok in Hreach as (Hlen & Hall & _).
  rewrite Forall_lookup in Hall. destruct (Hall i s Hi) as (Hm & Hf & _ & Hz).
  unfold SASL_MAX_MESSAGES, SASL_MAX_FAILURES in *.
  split_and!; done || lia.
Qed.

(** Writing to a slot that neither held nor comes to hold a session of [c]
    does not change what [sasl_find_session] returns for [c]. *)
Lemma find_insert_irrelevant (ss : list sasl_session) c i s s' :
  ss !! i = Some s → client s ≠ c → client s' ≠ c →
  sasl_find_session (<[i := s']> ss) c = sasl_find_session ss c.
Proof.
  unfold sasl_find_session. revert i.
  induction ss as [|x ss IH]; intros [|i] Hi Hs Hs'; simpl in *; try done.
  - injection Hi as ->. by rewrite !decide_False.
  - destruct (decide (client x = c)); [done|]. by rewrite (IH i).
Qed.

Lemma new_session_found (ss : list sasl_session) c time i ss' :
  c ≠ NULL →
  sasl_find_session ss c = None →
  sasl_new_session ss c time = Some (i, ss') →
  sasl_find_session ss' c
  = Some (i, mkSession c EmptyString 0 0 time false) ∧
  length ss' = length ss ∧
  ∀ c', c' ≠ c → c' ≠ NULL →
        sasl_find_session ss' c' = sasl_find_session ss c'.
Proof.
  intros Hnn Hnone. unfold sasl_new_session.
  destruct (list_find _ ss) as [[j s0]|] eqn:Hfree; [|done].
  intros [= <- <-].
  apply list_find_Some in Hfree as (Hj & Hs0 & _).
  apply find_session_None in Hnone. rewrite Forall_lookup in Hnone.
  split_and!.
  - unfold sasl_find_session. apply list_find_Some. split_and!.
    + apply list_lookup_insert_eq. by eapply lookup_lt_Some.
    + done.
    + intros k y Hk Hlt. rewrite list_lookup_insert_ne in Hk by lia.
      by eapply Hnone.
  - apply length_insert.
  - intros c' Hc' Hnn'. apply (find_insert_irrelevant ss c' j s0).
    + done.
    + congruence.
    + simpl. congruence.
Qed.

(** X3: a session allocated for a client that had none is the one
    [sasl_find_session] returns for it afterwards, with zero counters, no
    agent and the given start time; the table keeps its size and the
    sessions of all other clients are found as before. *)
Theorem new_session_then_find (ss : list sasl_session) c time i ss' :
  c ≠ NULL →
  sasl_find_session ss c = None →
  sasl_new_session ss c time = Some (i, ss') →
  sasl_find_session ss' c
  = Some (i, mkSession c EmptyString 0 0 time false) ∧
  length ss' = length ss ∧
  ∀ c', c' ≠ c → c' ≠ NULL →
        sasl_find_session ss' c' = sasl_find_session ss c'.
Proof. apply new_session_found. Qed.

(** X4: allocation fails exactly when no slot is free. *)
Theorem new_session_none_iff_full (ss : list sasl_session) c time :
  sasl_new_session ss c time = None ↔ Forall (λ s, client s ≠ NULL) ss.
Proof.
  unfold sasl_new_session. split.
  - destruct (list_find _ ss) as [[j s0]|] eqn:Hfree; [done|].
    intros _. by apply list_find_None in Hfree.
  - apply new_session_full.
Qed.

(** X5: in a well-formed table, clearing the slot [sasl_find_session] found
    for a client leaves that client without a session, leaves every other
    client's session as it was, and makes room for a new session. *)
Theorem clear_session_then_find (ss : list sasl_session) c i s :
  table_ok ss → c ≠ NULL →
  sasl_find_session ss c = Some (i, s) →
  sasl_find_session (sasl_clear_session ss i) c = None ∧
  (∀ c', c' ≠ c → c' ≠ NULL →
         sasl_find_session (sasl_clear_session ss i) c'
         = sasl_find_session ss c') ∧
  ∀ c' time, is_Some (sasl_new_session (sasl_clear_session ss i) c' time).
Proof.
  intros Hok Hnn Hfind. unfold sasl_clear_session. split_and!.
  - by apply (find_insert_gone ss c i s).
  - intros c' Hc' Hnn'. apply find_session_Some in Hfind as [Hi Hs].
    apply (find_insert_irrelevant ss c' i s); [done|congruence|done].
  - intros c' time. apply find_session_Some in Hfind as [Hi _].
    unfold sasl_new_session.
    destruct (list_find _ _) as [[j s0]|] eqn:Hfree; [by eexists|].
    apply list_find_None in Hfree. rewrite Forall_lookup in Hfree.
    destruct (Hfree i session_zero); [|done].
    apply list_lookup_insert_eq. by eapply lookup_lt_Some.
Qed.

End TableHelpers.

(** ** AUTHENTICATE: opening, aborting, UID assignment *)

Section Authenticate.

Context (K : Host.Consts).

Lemma uid_loop_spec h pending uid rest :
  uid_loop h pending = Some (uid, rest) →
  ∃ skipped,
    pending = skipped ++ uid :: rest ∧
    Forall (λ u, hash_find_id h u ≠ NULL) skipped ∧
    hash_find_id h uid = NULL.
Proof.
  induction pending as [|u pending IH]; simpl; [done|].
  case_decide as Hu.
  - intros [= <- <-]. by exists [].
  - intros Hloop. destruct (IH Hloop) as (skipped & -> & Hall & Hfree).
    exists (u :: skipped). split_and!; [done| |done]. by constructor.
Qed.

Lemma uid_loop_total h pending uid :
  uid ∈ pending → hash_find_id h uid = NULL → is_Some (uid_loop h pending).
Proof.
  induction pending as [|u pending IH]; simpl; [by intros ?%elem_of_nil|].
  intros Hin Hfree. case_decide; [by eexists|].
  apply elem_of_cons in Hin as [->|Hin]; [done|]. by apply IH.
Qed.

(** X6: the early UID assignment.  A client that has a UID keeps it and
    nothing changes.  A client without one gets the first UID the generator
    yields that is not in the hash: the ones before it are all taken and the
    generator is left right after it.  The client's [id] is that UID, that
    is its first bytes up to one less than the size of the field, and the
    whole UID when it is shorter than the field; nothing else in the client
    record changes.  The client is registered in the hash under its new
    [id]; no other hash entry and no other client changes.  The assignment
    succeeds as soon as one pending UID is free. *)
Theorem assign_uid_first_free h source src :
  deref h source = Some src →
  (id src ≠ EmptyString → assign_uid K h source src = Some (h, src)) ∧
  (id src = EmptyString →
   ∀ h' src', assign_uid K h source src = Some (h', src') →
     ∃ skipped uid,
       uid_seq h = skipped ++ uid :: uid_seq h' ∧
       Forall (λ u, hash_find_id h u ≠ NULL) skipped ∧
       hash_find_id h uid = NULL ∧
       stored (sizeof_id K) uid EmptyString (id src') ∧
       (String.length uid < sizeof_id K → id src' = uid) ∧
       name src' = name src ∧ username src' = username src ∧
       host src' = host src ∧ sockhost src' = sockhost src ∧
       account src' = account src ∧ cap src' = cap src ∧
       flags src' = flags src ∧ server src' = server src ∧
       local src' = local src ∧
       deref h' source = Some src' ∧
       hash_find_id h' (id src') = source ∧
       (∀ u, u ≠ id src' → hash_find_id h' u = hash_find_id h u) ∧
       (∀ p, p ≠ source → deref h' p = deref h p) ∧
       me_id h' = me_id h ∧ caps h' = caps h ∧ now h' = now h) ∧
  (id src = EmptyString →
   ∀ uid, uid ∈ uid_seq h → hash_find_id h uid = NULL →
          is_Some (assign_uid K h source src)).
Proof.
  intros Hsrc. unfold assign_uid. split_and!.
  - intros Hid. by rewrite decide_False.
  - intros Hid h' src'. rewrite decide_True by done.
    destruct (uid_loop h (uid_seq h)) as [[uid rest]|] eqn:Hloop; [|done].
    simpl. destruct source as [|a]; [done|]. simpl in *. rewrite Hsrc. simpl.
    intros [= <- <-]. simpl.
    destruct (uid_loop_spec _ _ _ _ Hloop) as (skipped & Hseq & Hall & Hfree).
    exists skipped, uid. rewrite Hid.
    pose proof (strlcpy_stored EmptyString uid (sizeof_id K)) as Hstored.
    split_and!; try done.
    + by apply (stored_fits _ _ EmptyString).
    + apply lookup_insert_eq.
    + unfold hash_find_id. simpl. by rewrite lookup_insert_eq.
    + intros u Hu. unfold hash_find_id. simpl.
      by rewrite lookup_insert_ne.
    + intros [|b] Hb; [done|]. simpl. apply lookup_insert_ne. congruence.
  - intros Hid uid Hin Hfree. rewrite decide_True by done.
    destruct (uid_loop_total h (uid_seq h) uid Hin Hfree) as [[u rest] ->].
    simpl. destruct source as [|a]; [done|]. simpl in *. rewrite Hsrc.
    by eexists.
Qed.

(** X7: a mechanism selection from a client without a session, with a free
    slot in the table, sends the [H] line and then the [S] line to the
    servers and nothing else, and leaves the client with a session that has
    zero counters, no agent and the current time; the sessions of all other
    clients are as before. *)
Theorem authenticate_select_opens st source src parv mech h src' :
  deref (env st) source = Some src → HasCap src CAP_SASL = true →
  parv !! 1%nat = Some mech → mech ≠ "*" →
  sasl_find_session (sessions st) source = None →
  ¬ Forall (λ s, client s ≠ NULL) (sessions st) →
  assign_uid K (env st) source src = Some (h, src') →
  ∃ i ss',
    mr_authenticate K st source parv
    = Some (mkState h ss',
            [ToServers (":" +:+ me_id h +:+ " ENCAP * SASL " +:+ id src'
                        +:+ " * H " +:+ host src' +:+ " " +:+ sockhost src');
             ToServers (":" +:+ me_id h +:+ " ENCAP * SASL " +:+ id src'
                        +:+ " * S " +:+ mech)]) ∧
    sasl_find_session ss' source
    = Some (i, mkSession source EmptyString 0 0 (now h) false) ∧
    length ss' = length (sessions st) ∧
    ∀ c', c' ≠ source → c' ≠ NULL →
          sasl_find_session ss' c' = sasl_find_session (sessions st) c'.
Proof.
  intros Hsrc Hcap H1 Hstar Hnone Hfree Huid.
  unfold mr_authenticate. rewrite Hsrc. simpl. rewrite Hcap. simpl.
  rewrite H1. simpl. rewrite decide_False by done.
  rewrite Huid. simpl. rewrite Hnone.
  destruct (sasl_new_session (sessions st) source (now h))
    as [[i ss']|] eqn:Hnew.
  - exists i, ss'. split; [done|].
    apply (new_session_found (sessions st) source (now h) i ss');
      [by eapply deref_not_null|done..].
  - destruct Hfree. unfold sasl_new_session in Hnew.
    destruct (list_find _ _) as [[j s0]|] eqn:Hf; [done|].
    by apply list_find_None in Hf.
Qed.

(** X8: [AUTHENTICATE *].  The client gets numeric 906, after a [D A] line
    to the servers when it had a session with an agent and has a UID; the
    host is untouched (no UID is assigned); afterwards the client has no
    session and every other client's session is as before.  Without a
    session the state does not change at all, and a second [AUTHENTICATE *]
    right after the first gets 906 alone. *)
Theorem authenticate_abort st source src parv :
  table_ok (sessions st) →
  deref (env st) source = Some src → HasCap src CAP_SASL = true →
  parv !! 1%nat = Some "*" →
  ∃ st' notice,
    mr_authenticate K st source parv
    = Some (st', notice ++ [Numeric source 906
                              (name src +:+ " :SASL authentication aborted")]) ∧
    env st' = env st ∧
    match sasl_find_session (sessions st) source with
    | Some (i, s) =>
        notice = (if decide (agent s ≠ EmptyString ∧ id src ≠ EmptyString)
                  then [ToServers (abort_line (env st) (id src) (agent s))]
                  else [])
    | None => notice = [] ∧ st' = st
    end ∧
    sasl_find_session (sessions st') source = None ∧
    (∀ c', c' ≠ source → c' ≠ NULL →
           sasl_find_session (sessions st') c'
           = sasl_find_session (sessions st) c') ∧
    mr_authenticate K st' source parv
    = Some (st', [Numeric source 906
                    (name src +:+ " :SASL authentication aborted")]).
Proof.
  intros Hok Hsrc Hcap H1.
  assert (source ≠ NULL) as Hnn by by eapply deref_not_null.
  assert (∀ st1, env st1 = env st →
            sasl_find_session (sessions st1) source = None →
            mr_authenticate K st1 source parv
            = Some (st1, [Numeric source 906
                            (name src +:+ " :SASL authentication aborted")]))
    as Hidle.
  { intros st1 Henv Hnone. unfold mr_authenticate. rewrite Henv, Hsrc. simpl.
    rewrite Hcap. simpl. rewrite H1. simpl. by rewrite Hnone. }
  destruct (sasl_find_session (sessions st) source) as [[i s]|] eqn:Hfind.
  - eexists (set_sessions st (sasl_clear_session (sessions st) i)), _.
    split_and!.
    + unfold mr_authenticate. rewrite Hsrc. simpl. rewrite Hcap. simpl.
      rewrite H1. simpl. rewrite Hfind. reflexivity.
    + done.
    + done.
    + simpl. by apply (find_insert_gone _ source i s).
    + intros c' Hc' Hnn'. simpl. unfold sasl_clear_session.
      apply find_session_Some in Hfind as [Hi Hs].
      apply (find_insert_irrelevant _ c' i s); [done|congruence|done].
    + apply Hidle; [done|]. simpl. by apply (find_insert_gone _ source i s).
  - exists st, []. split_and!; try done; by apply Hidle.
Qed.

End Authenticate.

(** ** Client exit and the SASL message types [C] and [L] *)

Section Services.

Context (K : Host.Consts).

(** X9: the exit hook.  The exiting client's session, if it has one, is
    cleared, after a [D A] line to the servers when the session has an agent
    and the client a UID; nothing is ever sent to the client, the host is
    untouched and other clients keep their sessions.  Without a session the
    hook does nothing, so a second exit does nothing either. *)
Theorem client_exit_clears st c cl :
  table_ok (sessions st) →
  deref (env st) c = Some cl →
  ∃ st' out,
    sasl_client_exit_hook st c = Some (st', out) ∧
    env st' = env st ∧
    match sasl_find_session (sessions st) c with
    | Some (i, s) =>
        out = (if decide (agent s ≠ EmptyString ∧ id cl ≠ EmptyString)
               then [ToServers (abort_line (env st) (id cl) (agent s))]
               else [])
    | None => out = [] ∧ st' = st
    end ∧
    sasl_find_session (sessions st') c = None ∧
    (∀ c', c' ≠ c → c' ≠ NULL →
           sasl_find_session (sessions st') c'
           = sasl_find_session (sessions st) c') ∧
    sasl_client_exit_hook st' c = Some (st', []).
Proof.
  intros Hok Hcl.
  assert (c ≠ NULL) as Hnn by by eapply deref_not_null.
  assert (∀ st1, sasl_find_session (sessions st1) c = None →
                 sasl_client_exit_hook st1 c = Some (st1, [])) as Hidle.
  { intros st1 Hnone. unfold sasl_client_exit_hook. by rewrite Hnone. }
  destruct (sasl_find_session (sessions st) c) as [[i s]|] eqn:Hfind.
  - assert (sasl_find_session (sasl_clear_session (sessions st) i) c = None)
      as Hgone by by apply (find_insert_gone _ c i s).
    exists (set_sessions st (sasl_clear_session (sessions st) i)),
      (if decide (agent s ≠ EmptyString ∧ id cl ≠ EmptyString)
       then [ToServers (abort_line (env st) (id cl) (agent s))] else []).
    split_and!.
    + unfold sasl_client_exit_hook. rewrite Hfind.
      destruct (decide (agent s = EmptyString)) as [Hag|Hag]; simpl.
      * rewrite decide_False by tauto. reflexivity.
      * rewrite Hcl. simpl.
        destruct (decide (id cl = EmptyString)) as [Hid|Hid].
        -- rewrite decide_False by tauto. reflexivity.
        -- rewrite decide_True by tauto. reflexivity.
    + done.
    + done.
    + done.
    + intros c' Hc' Hnn'. simpl. unfold sasl_clear_session.
      apply find_session_Some in Hfind as [Hi Hs].
      apply (find_insert_irrelevant _ c' i s); [done|congruence|done].
    + by apply Hidle.
  - exists st, []. split_and!; try done; by apply Hidle.
Qed.

Local Ltac enter_sasl H2 H3 Hloc :=
  let Hnn := fresh in let Htc := fresh in let Hmy := fresh in
  destruct Hloc as (Hnn & Htc & Hmy);
  unfold me_sasl; rewrite H2; simpl;
  rewrite decide_False by done; rewrite Htc; simpl; rewrite Hmy; simpl;
  rewrite H3; simpl.

Lemma sasl_client_data st source parv ag uid ty data tc :
  parv !! 1%nat = Some ag → parv !! 2%nat = Some uid →
  parv !! 3%nat = Some ty → parv !! 4%nat = Some data →
  local_target (env st) uid tc →
  char0 ty = "C"%char →
  me_sasl K st source parv
  = Some (match sasl_find_session (sessions st) (hash_find_id (env st) uid)
          with
          | Some (i, s) =>
              if decide (agent s = EmptyString) then
                set_sessions st
                  (<[i := set_agent s (strlcpy (agent s) ag (IDLEN K + 1))]>
                     (sessions st))
              else st
          | None => st
          end,
          [ToOne (hash_find_id (env st) uid) ("AUTHENTICATE " +:+ data)]).
Proof.
  intros H1 H2 H3 H4 Hloc Hty. enter_sasl H2 H3 Hloc.
  rewrite Hty. simpl.
  assert (¬ length parv < 5) by (apply lookup_lt_Some in H4; lia).
  rewrite decide_False by done. rewrite H4. simpl. by rewrite H1.
Qed.

(** X10: a [C] message with data for a locally connected target is handed
    to the target as [AUTHENTICATE <data>], with or without a session, and
    the host is untouched.  A session without an agent takes the sender's
    agent UID: its [agent] afterwards is the first [IDLEN] bytes of that
    UID, the whole UID when it is no longer than that, and nothing else in
    the session or in any other slot changes.  A session that has an agent
    is left as it is. *)
Theorem sasl_client_data_relayed st source parv ag uid ty data tc :
  parv !! 1%nat = Some ag → parv !! 2%nat = Some uid →
  parv !! 3%nat = Some ty → parv !! 4%nat = Some data →
  local_target (env st) uid tc →
  char0 ty = "C"%char →
  ∃ st',
    me_sasl K st source parv
    = Some (st', [ToOne (hash_find_id (env st) uid)
                    ("AUTHENTICATE " +:+ data)]) ∧
    env st' = env st ∧
    length (sessions st') = length (sessions st) ∧
    match sasl_find_session (sessions st) (hash_find_id (env st) uid) with
    | Some (i, s) =>
        (agent s = EmptyString →
         ∃ s',
           sessions st' !! i = Some s' ∧
           cut_to (IDLEN K) ag (agent s') ∧
           (String.length ag ≤ IDLEN K → agent s' = ag) ∧
           client s' = client s ∧ messages s' = messages s ∧
           failures s' = failures s ∧ start_time s' = start_time s ∧
           complete s' = complete s ∧
           ∀ j, j ≠ i → sessions st' !! j = sessions st !! j) ∧
        (agent s ≠ EmptyString → st' = st)
    | None => st' = st
    end.
Proof.
  intros H1 H2 H3 H4 Hloc Hty.
  rewrite (sasl_client_data st source parv ag uid ty data tc) by done.
  eexists. split; [reflexivity|].
  destruct (sasl_find_session _ _) as [[i s]|] eqn:Hfind; [|done].
  apply find_session_Some in Hfind as [Hi _].
  assert (i < length (sessions st)) as Hlt by by eapply lookup_lt_Some.
  destruct (decide (agent s = EmptyString)) as [Hag|Hag]; simpl.
  - split; [done|]. split; [apply length_insert|]. split; [|done]. intros _.
    pose proof (strlcpy_stored (agent s) ag (IDLEN K + 1)) as Hstored.
    rewrite Nat.add_1_r in Hstored. simpl in Hstored.
    eexists. split; [by apply list_lookup_insert_eq|]. simpl.
    split_and!; try done.
    + rewrite Nat.add_1_r. exact Hstored.
    + intros Hfit. rewrite Nat.add_1_r. by apply (cut_to_fits (IDLEN K)).
    + intros j Hj. by apply list_lookup_insert_ne.
  - done.
Qed.


(** X12: what the SASL handler ignores.  For a locally connected target, a
    [C] or [L] message without data and a message whose type starts with
    none of [C], [D], [L], [M] change nothing and send nothing. *)
Theorem sasl_ignored st source parv uid ty tc :
  parv !! 2%nat = Some uid → parv !! 3%nat = Some ty →
  local_target (env st) uid tc →
  (char0 ty = "C"%char ∨ char0 ty = "L"%char) ∧ length parv < 5 ∨
  char0 ty ≠ "C"%char ∧ char0 ty ≠ "D"%char ∧
    char0 ty ≠ "L"%char ∧ char0 ty ≠ "M"%char →
  dropped_silently st (me_sasl K st source parv).
Proof.
  intros H2 H3 Hloc Hcase. unfold dropped_silently. enter_sasl H2 H3 Hloc.
  destruct Hcase as [[[Hty|Hty] Hlen]|(HC & HD & HL & HM)].
  - rewrite Hty. simpl. by rewrite decide_True.
  - rewrite Hty. simpl. rewrite decide_False by lia. done.
  - destruct (Ascii.eqb_spec (char0 ty) "C"); [done|].
    destruct (Ascii.eqb_spec (char0 ty) "D"); [done|].
    destruct (Ascii.eqb_spec (char0 ty) "L"); [done|].
    by destruct (Ascii.eqb_spec (char0 ty) "M").
Qed.

Lemma sasl_login st source parv uid ty data a tc :
  parv !! 2%nat = Some uid → parv !! 3%nat = Some ty →
  parv !! 4%nat = Some data →
  hash_find_id (env st) uid = Npos a →
  clients (env st) !! a = Some tc → MyConnect tc = true →
  char0 ty = "L"%char →
  me_sasl K st source parv
  = Some (mkState
            (set_clients (env st)
               (<[a := set_account tc
                         (strlcpy (account tc) data (sizeof_account K))]>
                  (clients (env st))))
            (sessions st), []).
Proof.
  intros H2 H3 H4 Ha Htc Hmy Hty. unfold me_sasl. rewrite H2. simpl.
  rewrite Ha. rewrite decide_False by done. simpl. rewrite Htc. simpl.
  rewrite Hmy. simpl. rewrite H3. simpl. rewrite Hty. simpl.
  assert (5 ≤ length parv) by (apply lookup_lt_Some in H4; lia).
  rewrite decide_True by done. rewrite H4. simpl. reflexivity.
Qed.

(** X13: an [L] message with data for a locally connected target writes the
    data into the target's [account], whether or not the target has a
    session: the account afterwards is the first bytes of the data up to one
    less than the size of the field, and the whole data when it is shorter
    than the field.  Every other field of the target, every other client,
    the hash, the capabilities and the session table stay as they were, and
    nothing is sent. *)
Theorem sasl_login_sets_account st source parv uid ty data a tc :
  parv !! 2%nat = Some uid → parv !! 3%nat = Some ty →
  parv !! 4%nat = Some data →
  hash_find_id (env st) uid = Npos a →
  clients (env st) !! a = Some tc → MyConnect tc = true →
  char0 ty = "L"%char →
  ∃ st' tc',
    me_sasl K st source parv = Some (st', []) ∧
    sessions st' = sessions st ∧
    clients (env st') !! a = Some tc' ∧
    stored (sizeof_account K) data (account tc) (account tc') ∧
    (String.length data < sizeof_account K → account tc' = data) ∧
    name tc' = name tc ∧ id tc' = id tc ∧ username tc' = username tc ∧
    host tc' = host tc ∧ sockhost tc' = sockhost tc ∧
    cap tc' = cap tc ∧ flags tc' = flags tc ∧
    server tc' = server tc ∧ local tc' = local tc ∧
    (∀ b, b ≠ a → clients (env st') !! b = clients (env st) !! b) ∧
    id_hash (env st') = id_hash (env st) ∧
    caps (env st') = caps (env st).
Proof.
  intros H2 H3 H4 Ha Htc Hmy Hty.
  rewrite (sasl_login st source parv uid ty data a tc) by done.
  pose proof (strlcpy_stored (account tc) data (sizeof_account K)) as Hstored.
  eexists _, _. split; [reflexivity|]. simpl. split; [done|].
  split; [by rewrite lookup_insert_eq|]. simpl. split_and!; try done.
  - by apply (stored_fits _ _ (account tc)).
  - intros b Hb. by rewrite lookup_insert_ne.
Qed.

(** X14: the account services set with [L] is the one the success numeric
    reports.  An [L] message followed by [D S] for the same target sends
    900 with the new account in both places of its text. *)
Theorem login_then_success_reports_account st source parv uid ty data a tc
    source' parv' ty' data' :
  parv !! 2%nat = Some uid → parv !! 3%nat = Some ty →
  parv !! 4%nat = Some data →
  hash_find_id (env st) uid = Npos a →
  clients (env st) !! a = Some tc → MyConnect tc = true →
  char0 ty = "L"%char →
  parv' !! 2%nat = Some uid → parv' !! 3%nat = Some ty' →
  parv' !! 4%nat = Some data' →
  char0 ty' = "D"%char → char0 data' = "S"%char →
  ∃ st1 st2 acc,
    acc = strlcpy (account tc) data (sizeof_account K) ∧
    me_sasl K st source parv = Some (st1, []) ∧
    me_sasl K st1 source' parv'
    = Some (st2,
            [Numeric (Npos a) 900
               (name tc +:+ " " +:+ name tc +:+ "!" +:+ username tc +:+ "@"
                +:+ host tc +:+ " " +:+ acc
                +:+ " :You are now logged in as " +:+ acc);
             Numeric (Npos a) 903
               (name tc +:+ " :SASL authentication successful")]).
Proof.
  intros H2 H3 H4 Ha Htc Hmy Hty H2' H3' H4' Hty' Hdata'.
  rewrite (sasl_login st source parv uid ty data a tc) by done.
  eexists _, _, _. split; [reflexivity|]. split; [reflexivity|].
  unfold me_sasl. rewrite H2'. simpl.
  assert (hash_find_id
            (set_clients (env st)
               (<[a := set_account tc
                         (strlcpy (account tc) data (sizeof_account K))]>
                  (clients (env st)))) uid = Npos a) as ->.
  { exact Ha. }
  rewrite decide_False by done. simpl. rewrite lookup_insert_eq. simpl.
  unfold MyConnect in Hmy. rewrite Hmy. simpl.
  rewrite H3'. simpl. rewrite Hty'. simpl.
  rewrite H4'. simpl.
  assert (5 ≤ length parv') by (apply lookup_lt_Some in H4'; lia).
  rewrite decide_True by done. reflexivity.
Qed.

End Services.

(** ** SVSLOGIN, MECHLIST and the module's load and unload *)

Section Identity.

Context (K : Host.Consts).

(** X15: SVSLOGIN from a client that is neither a server nor flagged as a
    service is dropped: no field of any client is written. *)
Theorem svslogin_untrusted_dropped st source src parv :
  deref (env st) source = Some src →
  HasFlag src (FLAGS_SERVICE K) = false → IsServer src = false →
  dropped_silently st (me_svslogin K st source parv).
Proof.
  intros Hsrc Hflag Hserver. unfold dropped_silently, me_svslogin.
  rewrite Hsrc. simpl. by rewrite Hflag, Hserver.
Qed.

Lemma svslogin_value_again old arg size :
  svslogin_value (svslogin_value old arg size) arg size
  = svslogin_value old arg size.
Proof.
  unfold svslogin_value. destruct arg as [p|]; [|done].
  case_decide; [done|]. by destruct size.
Qed.

Lemma svslogin_result st source src parv uid a tc :
  deref (env st) source = Some src →
  HasFlag src (FLAGS_SERVICE K) = true ∨ IsServer src = true →
  parv !! 1%nat = Some uid →
  hash_find_id (env st) uid = Npos a →
  clients (env st) !! a = Some tc →
  me_svslogin K st source parv
  = Some (mkState
            (set_clients (env st)
               (<[a := mkClient (name tc) (id tc)
                         (svslogin_value (username tc) (parv !! 3%nat)
                            (sizeof_username K))
                         (svslogin_value (host tc) (parv !! 4%nat)
                            (sizeof_host K))
                         (sockhost tc)
                         (svslogin_value (account tc) (parv !! 5%nat)
                            (sizeof_account K))
                         (cap tc) (flags tc) (server tc) (local tc)]>
                  (clients (env st))))
            (sessions st), []).
Proof.
  intros Hsrc Horigin H1 Ha Htc. unfold me_svslogin.
  rewrite Hsrc. simpl.
  assert (negb (HasFlag src (FLAGS_SERVICE K)) && negb (IsServer src) = false)
    as ->.
  { destruct Horigin as [-> | ->]; [done|]. apply andb_false_r. }
  rewrite H1. simpl. rewrite Ha. rewrite decide_False by done.
  erewrite svslogin_field_spec by done. simpl.
  erewrite svslogin_field_spec by (simpl; apply lookup_insert_eq). simpl.
  erewrite svslogin_field_spec by (simpl; apply lookup_insert_eq). simpl.
  rewrite !insert_insert_eq. do 4 f_equal.
  unfold svslogin_value. destruct tc; simpl.
  repeat (match goal with
          | |- context [parv !! ?i] => destruct (parv !! i)
          end);
    repeat case_decide; done.
Qed.

(** X16: SVSLOGIN is idempotent.  From an accepted origin and for a known
    target, the same message a second time finds every field already at the
    value it writes and leaves the state as the first one left it. *)
Theorem svslogin_twice st source src parv uid a tc :
  deref (env st) source = Some src →
  HasFlag src (FLAGS_SERVICE K) = true ∨ IsServer src = true →
  parv !! 1%nat = Some uid →
  hash_find_id (env st) uid = Npos a →
  clients (env st) !! a = Some tc →
  ∃ st1,
    me_svslogin K st source parv = Some (st1, []) ∧
    me_svslogin K st1 source parv = Some (st1, []).
Proof.
  intros Hsrc Horigin H1 Ha Htc.
  rewrite (svslogin_result st source src parv uid a tc) by done.
  eexists. split; [reflexivity|].
  set (tc1 := mkClient _ _ _ _ _ _ _ _ _ _).
  assert (∃ src1, deref (set_clients (env st) (<[a := tc1]> (clients (env st))))
                    source = Some src1 ∧
                  flags src1 = flags src ∧ server src1 = server src)
    as (src1 & Hsrc1 & Hf1 & Hs1).
  { destruct source as [|b]; [done|]. simpl in *.
    destruct (decide (b = a)) as [->|Hb].
    - exists tc1. rewrite lookup_insert_eq. split; [done|].
      assert (src = tc) as -> by congruence. done.
    - exists src. by rewrite lookup_insert_ne. }
  rewrite (svslogin_result _ source src1 parv uid a tc1).
  - simpl. rewrite insert_insert_eq. subst tc1. simpl.
    by rewrite !svslogin_value_again.
  - done.
  - unfold HasFlag, IsServer in *. by rewrite Hf1, Hs1.
  - done.
  - done.
  - simpl. apply lookup_insert_eq.
Qed.

(** X17: the last mechanism list wins.  A MECHLIST message after another
    one leaves the state that it alone would have left; the same list twice
    is the same as once. *)
Theorem mechlist_last_wins st source1 parv1 source2 parv2 :
  ('(st1, _) ← me_mechlist st source1 parv1; me_mechlist st1 source2 parv2)
  = me_mechlist st source2 parv2.
Proof.
  unfold me_mechlist, cap_register, cap_unregister. simpl.
  by rewrite delete_insert_eq, delete_delete_eq.
Qed.

(** X18: unloading and loading.  [exit_handler] leaves a table of the same
    size in which no client has a session, and takes [sasl] out of the
    capabilities without touching the others; [init_handler] after it
    advertises [sasl] with the value [PLAIN]. *)
Theorem module_exit_resets st :
  length (sessions (exit_handler st)) = length (sessions st) ∧
  (∀ c, c ≠ NULL → sasl_find_session (sessions (exit_handler st)) c = None) ∧
  caps (env (exit_handler st)) !! "sasl" = None ∧
  (∀ k, k ≠ "sasl" →
        caps (env (exit_handler st)) !! k = caps (env st) !! k) ∧
  caps (env (init_handler (exit_handler st))) !! "sasl"
  = Some (CAP_SASL, Some "PLAIN").
Proof.
  unfold exit_handler, init_handler. simpl. split_and!.
  - apply length_replicate.
  - intros c Hc. apply find_session_None, Forall_replicate. simpl. done.
  - apply lookup_delete_eq.
  - intros k Hk. by apply lookup_delete_ne.
  - apply lookup_insert_eq.
Qed.

End Identity.

(** ** Every event: who is written to, whose session is touched *)

Section Events.

Context (K : Host.Consts).

Local Ltac resolve_members H :=
  repeat first
    [ apply elem_of_nil in H; destruct H
    | apply elem_of_cons in H as [->|H]
    | apply elem_of_app in H as [H|H] ].

(** X19: what a handler sends and to whom.  A numeric or an AUTHENTICATE
    line goes only to the client the event is about (the source of an
    AUTHENTICATE, the target of a SASL message), which is a client record of
    the host; the numerics are 900, 903, 904 and 906 and no others; lines to
    the servers come only from AUTHENTICATE and from a client's exit.
    SVSLOGIN, MECHLIST, loading and unloading send nothing. *)
Theorem outputs_of_a_step st ev st' out o :
  step K st ev = Some (st', out) → o ∈ out →
  match o with
  | Numeric to n _ =>
      to = event_client st ev ∧ is_Some (deref (env st) to) ∧
      (n = 900 ∨ n = 903 ∨ n = 904 ∨ n = 906)%Z
  | ToOne to _ =>
      to = event_client st ev ∧ is_Some (deref (env st) to) ∧
      ∃ source parv, ev = EvSasl source parv
  | ToServers _ =>
      (∃ source parv, ev = EvAuthenticate source parv) ∨
      (∃ c, ev = EvClientExit c)
  end.
Proof.
  destruct ev as [source parv|source parv|source parv|source parv|c| | |h];
    simpl; unfold with_args_min; intros Hstep Ho;
    try (case_decide; [|done]).
  - (* AUTHENTICATE *)
    unfold mr_authenticate in Hstep.
    destruct (deref (env st) source) as [src|] eqn:Hsrc; [|done].
    simpl in Hstep.
    destruct (HasCap src CAP_SASL); simpl in Hstep;
      [|injection Hstep as <- <-; by resolve_members Ho].
    destruct (parv !! 1%nat) as [p1|]; [|done]. simpl in Hstep.
    destruct (decide (p1 = "*")).
    + destruct (sasl_find_session _ _) as [[i s]|];
        injection Hstep as <- <-; repeat case_decide;
        resolve_members Ho; eauto 10.
    + destruct (assign_uid K (env st) source src) as [[h src']|]; [|done].
      simpl in Hstep.
      destruct (sasl_find_session _ _) as [[i s]|].
      * destruct (_ <? _)%Z; injection Hstep as <- <-; repeat case_decide;
          resolve_members Ho; eauto 10.
      * destruct (sasl_new_session _ _ _) as [[i ss]|];
          injection Hstep as <- <-; resolve_members Ho; eauto 10.
  - (* SASL *)
    unfold me_sasl in Hstep.
    destruct (parv !! 2%nat) as [p2|]; [|done]. simpl in Hstep.
    case_decide; [injection Hstep as <- <-; by resolve_members Ho|].
    destruct (deref _ _) as [tc|] eqn:Htc; [|done]. simpl in Hstep.
    destruct (MyConnect tc); simpl in Hstep;
      [|injection Hstep as <- <-; by resolve_members Ho].
    destruct (parv !! 3%nat) as [p3|]; [|done]. simpl in Hstep.
    destruct (Ascii.eqb (char0 p3) "C").
    { case_decide; [injection Hstep as <- <-; by resolve_members Ho|].
      destruct (parv !! 4%nat) as [p4|]; [|done]. simpl in Hstep.
      destruct (parv !! 1%nat) as [p1|]; [|done]. simpl in Hstep.
      injection Hstep as <- <-. resolve_members Ho. eauto 10. }
    destruct (Ascii.eqb (char0 p3) "D").
    { case_decide.
      - injection Hstep as <- <-. resolve_members Ho; eauto 10.
      - destruct (sasl_find_session _ _) as [[i s]|].
        + destruct (_ <=? _)%Z; injection Hstep as <- <-;
            resolve_members Ho; eauto 10.
        + injection Hstep as <- <-. resolve_members Ho; eauto 10. }
    destruct (Ascii.eqb (char0 p3) "L").
    { case_decide; [|injection Hstep as <- <-; by resolve_members Ho].
      destruct (parv !! 4%nat) as [p4|]; [|done]. simpl in Hstep.
      destruct (write_client _ _ _); [|done].
      injection Hstep as <- <-. by resolve_members Ho. }
    destruct (Ascii.eqb (char0 p3) "M");
      injection Hstep as <- <-; by resolve_members Ho.
  - (* SVSLOGIN *)
    unfold me_svslogin in Hstep.
    destruct (deref _ _) as [src|]; [|done]. simpl in Hstep.
    destruct (_ && _); [injection Hstep as <- <-; by resolve_members Ho|].
    destruct (parv !! 1%nat) as [p1|]; [|done]. simpl in Hstep.
    case_decide; [injection Hstep as <- <-; by resolve_members Ho|].
    repeat (destruct (svslogin_field _ _ _ _ _); [|done]; simpl in Hstep).
    injection Hstep as <- <-. by resolve_members Ho.
  - (* MECHLIST *)
    unfold me_mechlist in Hstep. injection Hstep as <- <-.
    by resolve_members Ho.
  - (* client exit *)
    unfold sasl_client_exit_hook in Hstep.
    destruct (sasl_find_session _ _) as [[i s]|];
      [|injection Hstep as <- <-; by resolve_members Ho].
    case_decide; simpl in Hstep.
    + injection Hstep as <- <-. by resolve_members Ho.
    + destruct (deref _ _) as [cl|]; [|done]. simpl in Hstep.
      injection Hstep as <- <-. case_decide; resolve_members Ho. eauto.
  - injection Hstep as <- <-. by resolve_members Ho.
  - injection Hstep as <- <-. by resolve_members Ho.
  - injection Hstep as <- <-. by resolve_members Ho.
Qed.

(** The slot an event writes is the slot of the client it is about. *)
Lemma step_touches_event_client st ev st' out :
  step K st ev = Some (st', out) →
  sessions st' = sessions st ∨
  ev = EvExit ∧
    sessions st' = replicate (length (sessions st)) session_zero ∨
  (∃ i s s',
     sasl_find_session (sessions st) (event_client st ev) = Some (i, s) ∧
     sessions st' = <[i := s']> (sessions st) ∧
     (s' = session_zero ∨ client s' = client s)) ∨
  (∃ i s0 time,
     event_client st ev ≠ NULL ∧
     sasl_find_session (sessions st) (event_client st ev) = None ∧
     list_find (λ s, client s = NULL) (sessions st) = Some (i, s0) ∧
     sessions st'
     = <[i := set_start_time (set_client session_zero (event_client st ev))
                time]> (sessions st)).
Proof.
  destruct ev as [source parv|source parv|source parv|source parv|c| | |h];
    simpl; unfold with_args_min; intros Hstep;
    try (case_decide; [|done]).
  - unfold mr_authenticate in Hstep.
    destruct (deref (env st) source) as [src|] eqn:Hsrc; [|done].
    simpl in Hstep.
    destruct (HasCap src CAP_SASL); simpl in Hstep;
      [|injection Hstep as <- <-; by left].
    destruct (parv !! 1%nat) as [p1|]; [|done]. simpl in Hstep.
    destruct (decide (p1 = "*")).
    + destruct (sasl_find_session _ _) as [[i s]|] eqn:Hfind;
        injection Hstep as <- <-; [|by left].
      right; right; left. exists i, s, session_zero. auto.
    + destruct (assign_uid K (env st) source src) as [[h src']|]; [|done].
      simpl in Hstep.
      destruct (sasl_find_session _ _) as [[i s]|] eqn:Hfind.
      * destruct (_ <? _)%Z; injection Hstep as <- <-; simpl;
          right; right; left.
        -- exists i, s, session_zero. unfold sasl_clear_session.
           rewrite list_insert_insert_eq. auto.
        -- eexists i, s, _. split_and!; [done|reflexivity|by right].
      * unfold sasl_new_session in Hstep.
        destruct (list_find _ _) as [[i s0]|] eqn:Hfree;
          injection Hstep as <- <-; simpl; [|by left].
        right; right; right. exists i, s0, (now h).
        split_and!; try done. by eapply deref_not_null.
  - unfold me_sasl in Hstep.
    destruct (parv !! 2%nat) as [p2|]; [|done]. simpl in Hstep.
    case_decide; [injection Hstep as <- <-; by left|].
    destruct (deref _ _) as [tc|]; [|done]. simpl in Hstep.
    destruct (MyConnect tc); simpl in Hstep;
      [|injection Hstep as <- <-; by left].
    destruct (parv !! 3%nat) as [p3|]; [|done]. simpl in Hstep.
    destruct (Ascii.eqb (char0 p3) "C").
    { case_decide; [injection Hstep as <- <-; by left|].
      destruct (parv !! 4%nat) as [p4|]; [|done]. simpl in Hstep.
      destruct (parv !! 1%nat) as [p1|]; [|done]. simpl in Hstep.
      destruct (sasl_find_session _ _) as [[i s]|] eqn:Hfind;
        [|injection Hstep as <- <-; by left].
      case_decide; injection Hstep as <- <-; simpl; [|by left].
      right; right; left. eexists i, s, _.
      split_and!; [done|reflexivity|by right]. }
    destruct (Ascii.eqb (char0 p3) "D").
    { destruct (sasl_find_session _ _) as [[i s]|] eqn:Hfind.
      - right; right; left. case_decide.
        + injection Hstep as <- <-. simpl. exists i, s, session_zero.
          unfold sasl_clear_session. rewrite list_insert_insert_eq. auto.
        + destruct (_ <=? _)%Z; injection Hstep as <- <-; simpl.
          * exists i, s, session_zero. unfold sasl_clear_session.
            rewrite list_insert_insert_eq. auto.
          * eexists i, s, _. split_and!; [done|reflexivity|by right].
      - case_decide; injection Hstep as <- <-; by left. }
    destruct (Ascii.eqb (char0 p3) "L").
    { case_decide; [|injection Hstep as <- <-; by left].
      destruct (parv !! 4%nat) as [p4|]; [|done]. simpl in Hstep.
      destruct (write_client _ _ _); [|done].
      injection Hstep as <- <-. by left. }
    destruct (Ascii.eqb (char0 p3) "M"); injection Hstep as <- <-; by left.
  - unfold me_svslogin in Hstep.
    destruct (deref _ _) as [src|]; [|done]. simpl in Hstep.
    destruct (_ && _); [injection Hstep as <- <-; by left|].
    destruct (parv !! 1%nat) as [p1|]; [|done]. simpl in Hstep.
    case_decide; [injection Hstep as <- <-; by left|].
    repeat (destruct (svslogin_field _ _ _ _ _); [|done]; simpl in Hstep).
    injection Hstep as <- <-. by left.
  - unfold me_mechlist in Hstep. injection Hstep as <- <-. by left.
  - unfold sasl_client_exit_hook in Hstep.
    destruct (sasl_find_session _ _) as [[i s]|] eqn:Hfind;
      [|injection Hstep as <- <-; by left].
    destruct (if decide (agent s = EmptyString) then _ else _); [|done].
    injection Hstep as <- <-. simpl.
    right; right; left. exists i, s, session_zero. auto.
  - injection Hstep as <- <-. by left.
  - injection Hstep as <- <-. right; left. done.
  - injection Hstep as <- <-. by left.
Qed.

Lemma find_after_other_event st ev st' out c :
  step K st ev = Some (st', out) →
  c ≠ NULL → event_client st ev ≠ c → ev ≠ EvExit →
  sasl_find_session (sessions st') c = sasl_find_session (sessions st) c.
Proof.
  intros Hstep Hnn Hother Hexit.
  destruct (step_touches_event_client _ _ _ _ Hstep)
    as [-> |[[? _]|[(i & s & s' & Hfind & -> & Hs')
                  |(i & s0 & time & _ & _ & Hfree & ->)]]]; [done..| |].
  - apply find_session_Some in Hfind as [Hi Hc].
    apply (find_insert_irrelevant _ c i s); [done|congruence|].
    destruct Hs' as [-> | ->]; [done|congruence].
  - apply list_find_Some in Hfree as (Hi & Hfree & _).
    apply (find_insert_irrelevant _ c i s0); [done|congruence|done].
Qed.

(** X20: sessions do not disturb each other.  Whatever an event about one
    client does (unloading the module apart), every other client has the
    same session afterwards, in the same slot and with the same content, or
    still none. *)
Theorem other_sessions_undisturbed st ev st' out c :
  step K st ev = Some (st', out) →
  c ≠ NULL → event_client st ev ≠ c → ev ≠ EvExit →
  sasl_find_session (sessions st') c = sasl_find_session (sessions st) c.
Proof. apply find_after_other_event. Qed.

(** X21: only a mechanism selection opens a session.  When a client that
    had no session has one after an event, the event was an AUTHENTICATE of
    that client with a parameter other than ["*"] while it had the [sasl]
    capability, and the session is new: zero counters, no agent, the current
    time. *)
Theorem session_opened_by_authenticate st ev st' out c :
  step K st ev = Some (st', out) →
  c ≠ NULL →
  sasl_find_session (sessions st) c = None →
  is_Some (sasl_find_session (sessions st') c) →
  ∃ parv src mech i,
    ev = EvAuthenticate c parv ∧
    deref (env st) c = Some src ∧ HasCap src CAP_SASL = true ∧
    parv !! 1%nat = Some mech ∧ mech ≠ "*" ∧
    sasl_find_session (sessions st') c
    = Some (i, mkSession c EmptyString 0 0 (now (env st')) false).
Proof.
  intros Hstep Hnn Hnone Hsome.
  assert (∀ j x, sessions st !! j = Some x → client x ≠ c) as Hold.
  { intros j x Hj. apply find_session_None in Hnone.
    rewrite Forall_lookup in Hnone. by apply (Hnone j x). }
  assert (∃ parv, ev = EvAuthenticate c parv) as [parv ->].
  { pose proof (step_table_effect K _ _ _ _ Hstep) as Ht.
    inversion Ht as [Hs|? Hs|c1 j sj sj' Hf Hslot Hs
                     |c0 parv j s0 time Hev _ _ Hfree Hs].
    - exfalso. rewrite <- Hs, Hnone in Hsome. by destruct Hsome.
    - exfalso. rewrite <- Hs in Hsome. destruct Hsome as [[i s] Hs'].
      apply find_session_Some in Hs' as [Hi Hc].
      apply lookup_replicate in Hi as [-> _]. done.
    - exfalso. rewrite <- Hs in Hsome.
      apply find_session_Some in Hf as [Hj _].
      rewrite (find_insert_irrelevant _ c j sj) in Hsome.
      + rewrite Hnone in Hsome. by destruct Hsome.
      + done.
      + by apply (Hold j sj).
      + apply slot_effect_client in Hslot as [-> | ->]; [done|].
        by apply (Hold j sj).
    - exists parv. destruct (decide (c0 = c)) as [->|Hc0]; [done|].
      exfalso. rewrite <- Hs in Hsome.
      apply list_find_Some in Hfree as (Hj & _ & _).
      rewrite (find_insert_irrelevant _ c j s0) in Hsome.
      + rewrite Hnone in Hsome. by destruct Hsome.
      + done.
      + by apply (Hold j s0).
      + done. }
  simpl in Hstep. unfold with_args_min in Hstep.
  case_decide; [|done]. unfold mr_authenticate in Hstep.
  destruct (deref (env st) c) as [src|] eqn:Hsrc; [|done].
  simpl in Hstep.
  destruct (HasCap src CAP_SASL) eqn:Hcap; simpl in Hstep; last first.
  { injection Hstep as <- <-. rewrite Hnone in Hsome. by destruct Hsome. }
  destruct (parv !! 1%nat) as [p1|] eqn:H1; [|done]. simpl in Hstep.
  rewrite Hnone in Hstep.
  destruct (decide (p1 = "*")).
  { injection Hstep as <- <-. rewrite Hnone in Hsome. by destruct Hsome. }
  destruct (assign_uid K (env st) c src) as [[h src']|] eqn:Huid; [|done].
  simpl in Hstep.
  destruct (sasl_new_session _ _ _) as [[i ss]|] eqn:Hnew;
    injection Hstep as <- <-; simpl in *; last first.
  { rewrite Hnone in Hsome. by destruct Hsome. }
  exists parv, src, p1, i. split_and!; try done.
  by apply (new_session_found (sessions st) c (now h) i ss).
Qed.

End Events.

(** ** The failure budget over a run *)

Section Strikes.

Context (K : Host.Consts).

(** A session that survives a step keeps its slot and is either untouched
    or changed in one of the ways of [slot_effect]. *)
Lemma step_session_kept st ev st' out c i s i' s' :
  table_ok (sessions st) → c ≠ NULL →
  sasl_find_session (sessions st) c = Some (i, s) →
  step K st ev = Some (st', out) →
  sasl_find_session (sessions st') c = Some (i', s') →
  i' = i ∧ (s' = s ∨ slot_effect K st ev c s s').
Proof.
  intros Hok Hnn Hfind Hstep Hfind'.
  pose proof (proj1 (find_session_Some _ _ _ _ Hfind)) as Hi.
  pose proof (proj2 (find_session_Some _ _ _ _ Hfind)) as Hc.
  pose proof Hok as (Hlen & Hall & Huniq).
  apply step_table_effect in Hstep.
  destruct Hstep as [|_|c0 j sj sj' Hfind0 Hslot
                     |c0 parv j s0 time _ Hnn0 Hnone Hfree].
  - rewrite Hfind in Hfind'. injection Hfind' as <- <-. auto.
  - apply find_session_Some in Hfind' as [Hz <-].
    by apply lookup_replicate in Hz as [-> _].
  - destruct (decide (j = i)) as [->|Hne].
    + assert (c0 = c) as -> by by eapply find_session_fun.
      assert (sj = s) as -> by congruence.
      destruct (decide (client sj' = c)) as [Hsame|Hdiff].
      * rewrite (find_insert_same _ c i s) in Hfind' by done.
        injection Hfind' as <- <-. auto.
      * rewrite (find_insert_gone _ c i s) in Hfind'; done.
    + rewrite (find_insert_other _ c i s) in Hfind'; [|done..|].
      { injection Hfind' as <- <-. auto. }
      apply slot_effect_client in Hslot as [-> | Hcl];
        [simpl; congruence|].
      rewrite Hcl. apply find_session_Some in Hfind0 as [Hj Hc0]. intros Hc'.
      apply Hne. apply (Huniq j i sj s); congruence.
  - apply list_find_Some in Hfree as (Hj & Hfree & _).
    rewrite (find_insert_other _ c i s) in Hfind'.
    + injection Hfind' as <- <-. auto.
    + done.
    + intros ->. congruence.
    + simpl. intros ->. congruence.
Qed.

(** Across one step a session that survives counts one more failure exactly
    when the step is a failed outcome for its client. *)
Lemma step_session_failures st ev st' out c i s i' s' :
  table_ok (sessions st) → c ≠ NULL →
  sasl_find_session (sessions st) c = Some (i, s) →
  step K st ev = Some (st', out) →
  sasl_find_session (sessions st') c = Some (i', s') →
  i' = i ∧
  failures s'
  = (failures s + Z.of_nat (if is_failed_outcome c st ev then 1 else 0))%Z.
Proof.
  intros Hok Hnn Hfind Hstep Hfind'.
  destruct (step_session_kept _ _ _ _ _ _ _ _ _ Hok Hnn Hfind Hstep Hfind')
    as [-> Hkept].
  split; [done|].
  pose proof (proj1 (find_session_Some _ _ _ _ Hfind)) as Hi.
  pose proof (proj2 (find_session_Some _ _ _ _ Hfind)) as Hc.
  pose proof Hok as (_ & Hall & _).
  assert (slot_ok s) as (_ & Hf & _).
  { rewrite Forall_lookup in Hall. by apply (Hall i s). }
  destruct ev as [source parv|source parv|source parv|source parv|c0| | |h];
    try (simpl; rewrite Z.add_0_r;
         destruct Hkept as [->|Heff]; [done|];
         destruct Heff as [|? ?|? ? Hev|? ? ? ? Hev]; try done;
         apply find_session_Some in Hfind' as [_ Hc']; simpl in Hc';
         congruence).
  (* a SASL message *)
  pose proof Hstep as Hstep0. simpl in Hstep. unfold with_args_min in Hstep. case_decide; [|done].
  unfold me_sasl in Hstep. simpl.
  destruct (parv !! 2%nat) as [uid|] eqn:H2; [|done]. simpl in Hstep.
  destruct (decide (hash_find_id (env st) uid = c)) as [Htarget|Htarget];
    last first.
  { rewrite bool_decide_eq_false_2 by done. simpl.
    destruct (parv !! 3%nat); rewrite Z.add_0_r.
    all: assert (sasl_find_session (sessions st') c
                 = sasl_find_session (sessions st) c) as Hsame.
    1,3: apply (find_after_other_event K st _ st' out c Hstep0);
      [done | simpl; by rewrite H2 | done].
    all: rewrite Hfind, Hfind' in Hsame; by injection Hsame as ->. }
  rewrite Htarget in Hstep. rewrite decide_False in Hstep by done.
  rewrite bool_decide_eq_true_2 by done. simpl.
  destruct (deref (env st) c) as [tc|]; [|done]. simpl in Hstep.
  destruct (MyConnect tc); simpl in Hstep; last first.
  { injection Hstep as <- <-. rewrite Hfind in Hfind'.
    injection Hfind' as <-. destruct (parv !! 3%nat); simpl; lia. }
  destruct (parv !! 3%nat) as [ty|] eqn:H3; [|done]. simpl in Hstep.
  rewrite Hfind in Hstep.
  destruct (Ascii.eqb_spec (char0 ty) "C") as [HC|HnC].
  { rewrite HC. simpl. rewrite Z.add_0_r.
    case_decide; [injection Hstep as <- <-; congruence|].
    destruct (parv !! 4%nat) as [p4|]; [|done]. simpl in Hstep.
    destruct (parv !! 1%nat) as [p1|]; [|done]. simpl in Hstep.
    case_decide; injection Hstep as <- <-; simpl in Hfind'.
    - rewrite (find_insert_same _ c i s) in Hfind' by done.
      by injection Hfind' as <-.
    - congruence. }
  destruct (Ascii.eqb_spec (char0 ty) "D") as [HD|HnD]; simpl.
  { case_decide as Hsucc.
    - injection Hstep as <- <-. simpl in Hfind'.
      unfold sasl_clear_session in Hfind'.
      rewrite list_insert_insert_eq in Hfind'.
      rewrite (find_insert_gone _ c i s) in Hfind'; done.
    - assert (match parv !! 4%nat with
              | Some data => Ascii.eqb (char0 data) "S"
              | None => false
              end = false) as ->.
      { destruct (parv !! 4%nat) as [data|] eqn:H4; [|done]. simpl in Hsucc.
        destruct (Ascii.eqb_spec (char0 data) "S"); [|done].
        destruct Hsucc. split; [|done]. apply lookup_lt_Some in H4. lia. }
      simpl. destruct (_ <=? _)%Z eqn:Hcap; injection Hstep as <- <-;
        simpl in Hfind'.
      + unfold sasl_clear_session in Hfind'.
        rewrite list_insert_insert_eq in Hfind'.
        rewrite (find_insert_gone _ c i s) in Hfind'; done.
      + rewrite (find_insert_same _ c i s) in Hfind' by done.
        injection Hfind' as <-. simpl. unfold SASL_MAX_FAILURES in *.
        apply uint_incr_small. lia. }
  rewrite Z.add_0_r.
  destruct (Ascii.eqb (char0 ty) "L").
  { case_decide; [|injection Hstep as <- <-; congruence].
    destruct (parv !! 4%nat) as [p4|]; [|done]. simpl in Hstep.
    destruct (write_client _ _ _); [|done].
    injection Hstep as <- <-. simpl in Hfind'. congruence. }
  destruct (Ascii.eqb (char0 ty) "M"); injection Hstep as <- <-;
    simpl in Hfind'; congruence.
Qed.

(** A session that appears in a step starts without failures. *)
Lemma opening_without_failures st ev st0 out c i s :
  sasl_find_session (sessions st) c = None →
  step K st ev = Some (st0, out) →
  sasl_find_session (sessions st0) c = Some (i, s) →
  failures s = 0%Z.
Proof.
  intros Hnone Hstep Hfind.
  apply find_session_Some in Hfind as [Hi Hc].
  assert (∀ x, sessions st !! i = Some x → client x ≠ c) as Hold.
  { intros x Hx. apply find_session_None in Hnone.
    rewrite Forall_lookup in Hnone. by apply (Hnone i x). }
  apply step_table_effect in Hstep.
  destruct Hstep as [|_|c0 j sj sj' Hfind0 Hslot
                     |c0 parv j s0 time _ Hnn0 _ Hfree].
  - by destruct (Hold s Hi).
  - by apply lookup_replicate in Hi as [-> _].
  - apply list_lookup_insert_Some in Hi as [(-> & <- & _)|(_ & Hi)];
      [|by destruct (Hold s Hi)].
    apply find_session_Some in Hfind0 as [Hj Hc0].
    apply slot_effect_client in Hslot as [-> | Hcl]; [done|].
    destruct (Hold sj Hj). congruence.
  - apply list_lookup_insert_Some in Hi as [(_ & <- & _)|(_ & Hi)];
      [done|by destruct (Hold s Hi)].
Qed.

(** Along a run that a session survives, its failure count is the number
    of failed outcomes so far. *)
Lemma run_session_failures c evs st tr st' i s i' s' :
  reachable K st → c ≠ NULL →
  sasl_find_session (sessions st) c = Some (i, s) →
  run K st evs = Some (tr, st') →
  Forall (λ x, is_Some (sasl_find_session (sessions x.1.1) c)) tr →
  sasl_find_session (sessions st') c = Some (i', s') →
  i' = i ∧ failures s' = (failures s + Z.of_nat (failed_outcomes c tr))%Z.
Proof.
  intros Hreach Hnn. revert st tr i s Hreach.
  induction evs as [|ev evs IH]; intros st tr i s Hreach Hfind; simpl.
  - intros [= <- <-] _ Hfind'. rewrite Hfind in Hfind'.
    injection Hfind' as <- <-. simpl. split; [done|lia].
  - destruct (step K st ev) as [[st1 out]|] eqn:Hstep; [|done]. simpl.
    destruct (run K st1 evs) as [[tr1 st2]|] eqn:Hrun; [|done]. simpl.
    intros [= <- <-] Hall Hfind'. inversion Hall as [|? ? _ Hall1]; subst.
    destruct (run_first K (λ x, is_Some (sasl_find_session (sessions x) c))
                _ _ _ _ Hrun Hall1) as [[i1 s1] Hfind1]; [by eexists|].
    destruct (step_session_failures st ev st1 out c i s i1 s1)
      as [-> Hf1]; [by apply (reachable_table_ok K)|done..|].
    destruct (IH st1 tr1 i s1) as [-> Hf']; [by eapply reachable_step|done..|].
    split; [done|]. simpl. rewrite Hf', Hf1.
    destruct (is_failed_outcome c st ev); lia.
Qed.

(** X22: three strikes.  In a session that has lived since it was opened,
    whatever else has happened in between, a failed outcome that follows
    fewer than two earlier ones gets 904 and the session stays with one more
    failure counted; the one that follows two earlier ones gets 904 and the
    session is cleared.  A live session never has more than two failed
    outcomes behind it. *)
Theorem three_strikes st_pre ev0 out0 st0 evs tr st c source parv uid ty tc
    i s :
  reachable K st_pre →
  sasl_find_session (sessions st_pre) c = None →
  step K st_pre ev0 = Some (st0, out0) →
  run K st0 evs = Some (tr, st) →
  Forall (λ x, is_Some (sasl_find_session (sessions x.1.1) c)) tr →
  sasl_find_session (sessions st) c = Some (i, s) →
  parv !! 2%nat = Some uid → parv !! 3%nat = Some ty →
  hash_find_id (env st) uid = c →
  local_target (env st) uid tc →
  char0 ty = "D"%char →
  (∀ data, parv !! 4%nat = Some data → char0 data ≠ "S"%char) →
  failed_outcomes c tr ≤ 2 ∧
  (failed_outcomes c tr < 2 →
   me_sasl K st source parv
   = Some (set_sessions st
             (<[i := set_failures s (Z.of_nat (failed_outcomes c tr + 1))]>
                (sessions st)),
           [Numeric c 904 (name tc +:+ " :SASL authentication failed")])) ∧
  (failed_outcomes c tr = 2 →
   me_sasl K st source parv
   = Some (set_sessions st (<[i := session_zero]> (sessions st)),
           [Numeric c 904 (name tc +:+ " :SASL authentication failed")])).
Proof.
  intros Hreach Hnone Hstep Hrun Hall Hfind H2 H3 Htarget Hloc Hty Hfail.
  assert (reachable K st0) as Hreach0 by by eapply reachable_step.
  destruct (run_first K (λ x, is_Some (sasl_find_session (sessions x) c))
              _ _ _ _ Hrun Hall) as [[i0 s0] Hfind0]; [by eexists|].
  assert (failures s0 = 0%Z) as Hf0 by by eapply opening_without_failures.
  assert (c ≠ NULL) as Hnn by (destruct Hloc as (? & _); congruence).
  destruct (run_session_failures c evs st0 tr st i0 s0 i s) as [Heq Hf];
    [done..|]. subst i0.
  rewrite Hf0 in Hf. simpl in Hf.
  assert (reachable K st) as Hreach'.
  { clear -Hreach0 Hrun. revert st0 tr Hreach0 Hrun.
    induction evs as [|ev evs IH]; intros st0 tr Hreach0; simpl.
    - by intros [= _ <-].
    - destruct (step K st0 ev) as [[st1 out]|] eqn:Hstep; [|done]. simpl.
      destruct (run K st1 evs) as [[tr1 st2]|] eqn:Hrun; [|done]. simpl.
      intros [= _ <-]. eapply IH; [|done]. by eapply reachable_step. }
  apply reachable_table_ok in Hreach' as (_ & Hall' & _).
  pose proof (proj1 (find_session_Some _ _ _ _ Hfind)) as Hi.
  rewrite Forall_lookup in Hall'. destruct (Hall' i s Hi) as (_ & Hb & _).
  unfold SASL_MAX_FAILURES in Hb.
  rewrite (sasl_done_failure K st source parv uid ty tc); [|done..|].
  - rewrite Htarget, Hfind. unfold after_failure, SASL_MAX_FAILURES.
    rewrite uint_incr_small by lia. split_and!.
    + lia.
    + intros Hlt. destruct (Z.leb_spec 3 (failures s + 1)); [lia|].
      unfold failed_body. repeat f_equal. lia.
    + intros Heq. destruct (Z.leb_spec 3 (failures s + 1)); [|lia]. done.
  - intros [Hlen HS]. destruct (parv !! 4%nat) as [data|] eqn:H4.
    + by apply (Hfail data).
    + apply lookup_ge_None in H4. lia.
Qed.

End Strikes.

(** ** The nick prefix module *)

Section Prefix.

Import ForcePrefix.

Lemma substring_length_le n s : String.length (String.substring 0 n s) ≤ n.
Proof.
  revert s. induction n as [|n IH]; intros [|a s]; simpl; try lia.
  specialize (IH s). lia.
Qed.

(** The nick [ApplyPrefix] puts together. *)
Lemma prefixed_nick_shape (max : nat) (old : string) :
  let full := String PREFIX_CHAR old in
  let n := if negb (max =? 0)%nat && (max <? String.length full)%nat
           then String.substring 0 max full else full in
  char0 n = PREFIX_CHAR ∧
  (max ≠ 0 → String.length n ≤ max) ∧
  (max = 0 ∨ String.length old < max → n = full).
Proof.
  simpl. destruct (Nat.eqb_spec max 0) as [->|Hmax]; simpl.
  - split_and!; done || lia.
  - destruct (Nat.ltb_spec max (S (String.length old))) as [Hlt|Hge].
    + destruct max as [|m]; [done|]. simpl. split_and!.
      * done.
      * intros _. pose proof (substring_length_le m old). lia.
      * intros [?|?]; lia.
    + split_and!; [done| |done]. simpl. lia.
Qed.

Lemma ApplyPrefix_inv e u acts a :
  ApplyPrefix e u = Some acts → a ∈ acts →
  ∃ usr sv proto n,
    ForcePrefix.deref e u = Some usr ∧ ForcePrefix.server usr = Some sv ∧
    IRCD e = Some proto ∧
    acts = [a] ∧ a = SendForceNickChange u n (CurTime e) ∧
    Quitting usr = false ∧ IsULined sv = false ∧ Account usr = 0%N ∧
    char0 (nick usr) ≠ PREFIX_CHAR ∧ IsRegistered e (nick usr) = false ∧
    CanSVSNick proto = true ∧
    char0 n = PREFIX_CHAR ∧
    (MaxNick proto ≠ 0 → String.length n ≤ MaxNick proto) ∧
    (MaxNick proto = 0 ∨ String.length (nick usr) < MaxNick proto →
     n = String PREFIX_CHAR (nick usr)) ∧
    IsNickValid proto n = true ∧ IsRegistered e n = false ∧
    (User_Find e n = 0%N ∨ User_Find e n = u).
Proof.
  unfold ApplyPrefix. intros Hap Ha.
  case_decide; [injection Hap as <-; by apply elem_of_nil in Ha|].
  destruct (ForcePrefix.deref e u) as [usr|] eqn:Husr; [|done].
  simpl in Hap.
  destruct (Quitting usr) eqn:Hq;
    [injection Hap as <-; by apply elem_of_nil in Ha|].
  destruct (ForcePrefix.server usr) as [sv|] eqn:Hsv;
    [|injection Hap as <-; by apply elem_of_nil in Ha].
  destruct (IsULined sv) eqn:Hul;
    [injection Hap as <-; by apply elem_of_nil in Ha|].
  unfold IsIdentified in Hap.
  destruct (N.eqb_spec (Account usr) 0) as [Hacc|_]; simpl in Hap;
    [|injection Hap as <-; by apply elem_of_nil in Ha].
  destruct (negb (nick usr =? EmptyString)%string
            && Ascii.eqb (char0 (nick usr)) PREFIX_CHAR) eqn:Hpre;
    [injection Hap as <-; by apply elem_of_nil in Ha|].
  destruct (IsRegistered e (nick usr)) eqn:Hreg;
    [injection Hap as <-; by apply elem_of_nil in Ha|].
  destruct (IRCD e) as [proto|] eqn:Hproto;
    [|injection Hap as <-; by apply elem_of_nil in Ha].
  destruct (CanSVSNick proto) eqn:Hcan; simpl in Hap;
    [|injection Hap as <-; by apply elem_of_nil in Ha].
  pose proof (prefixed_nick_shape (MaxNick proto) (nick usr)) as Hshape.
  simpl in Hshape.
  set (n := if negb (MaxNick proto =? 0)%nat
               && (MaxNick proto <? S (String.length (nick usr)))%nat
            then _ else _) in *.
  destruct (IsNickValid proto n) eqn:Hvalid; simpl in Hap;
    [|injection Hap as <-; by apply elem_of_nil in Ha].
  destruct (IsRegistered e n) eqn:Hreg';
    [injection Hap as <-; by apply elem_of_nil in Ha|].
  destruct (negb (User_Find e n =? 0)%N && negb (User_Find e n =? u)%N)
    eqn:Hexist; injection Hap as <-; [by apply elem_of_nil in Ha|].
  apply list_elem_of_singleton in Ha as ->.
  destruct Hshape as (Hc0 & Hlen & Hfull).
  exists usr, sv, proto, n. split_and!; try done.
  - intros Hc. destruct (nick usr) as [|c s]; simpl in *; [done|].
    subst c. by vm_compute in Hpre.
  - destruct (N.eqb_spec (User_Find e n) 0); [by left|].
    destruct (N.eqb_spec (User_Find e n) u); [by right|done].
Qed.

(** X23: what [ApplyPrefix] forces, when it forces anything.  It is one
    nick change, of the user it was called for: the user is not quitting,
    not identified, not on a U-lined server, and its nick neither starts
    with [~] nor is registered.  The new nick starts with [~], is the old
    nick with [~] in front when that fits, is never longer than [MaxNick]
    when the IRCd has a limit, is valid for the IRCd, is not registered and
    is not the nick of another user. *)
Theorem apply_prefix_forces e u acts a :
  ApplyPrefix e u = Some acts → a ∈ acts →
  ∃ usr sv proto n,
    ForcePrefix.deref e u = Some usr ∧ ForcePrefix.server usr = Some sv ∧
    IRCD e = Some proto ∧
    acts = [a] ∧ a = SendForceNickChange u n (CurTime e) ∧
    Quitting usr = false ∧ IsULined sv = false ∧ Account usr = 0%N ∧
    char0 (nick usr) ≠ PREFIX_CHAR ∧ IsRegistered e (nick usr) = false ∧
    CanSVSNick proto = true ∧
    char0 n = PREFIX_CHAR ∧
    (MaxNick proto ≠ 0 → String.length n ≤ MaxNick proto) ∧
    (MaxNick proto = 0 ∨ String.length (nick usr) < MaxNick proto →
     n = String PREFIX_CHAR (nick usr)) ∧
    IsNickValid proto n = true ∧ IsRegistered e n = false ∧
    (User_Find e n = 0%N ∨ User_Find e n = u).
Proof. apply ApplyPrefix_inv. Qed.

Lemma ApplyPrefix_prefixed e u usr :
  ForcePrefix.deref e u = Some usr → char0 (nick usr) = PREFIX_CHAR →
  ApplyPrefix e u = Some [].
Proof.
  intros Husr Hc. unfold ApplyPrefix. case_decide; [done|].
  rewrite Husr. simpl. destruct (Quitting usr); [done|].
  destruct (ForcePrefix.server usr) as [sv|]; [|done].
  destruct (IsULined sv); [done|]. destruct (IsIdentified usr); [done|].
  rewrite Hc. destruct (nick usr); [done|]. reflexivity.
Qed.

(** X24: the forced nick is final.  Once a nick that [ApplyPrefix] forced
    is the user's nick, [ApplyPrefix] and the nick-change hook that the
    forced change triggers do nothing more for that user. *)
Theorem apply_prefix_settles e u v n t e' usr' oldnick :
  ApplyPrefix e u = Some [SendForceNickChange v n t] →
  ForcePrefix.deref e' u = Some usr' → nick usr' = n →
  ApplyPrefix e' u = Some [] ∧ OnUserNickChange e' u oldnick = Some [].
Proof.
  intros Hap Husr' Hnick.
  destruct (ApplyPrefix_inv e u _ (SendForceNickChange v n t) Hap)
    as (usr & sv & proto & n0 & _ & _ & _ & _ & Ha & _ & _ & _ & _ & _ & _
        & Hc & _); [apply list_elem_of_singleton; done|].
  injection Ha as -> -> ->.
  assert (ApplyPrefix e' u = Some []) as Hnone.
  { apply (ApplyPrefix_prefixed e' u usr'); [done|by rewrite Hnick]. }
  split; [done|]. unfold OnUserNickChange. case_decide; [done|].
  rewrite Husr'. simpl. by destruct (Quitting usr').
Qed.

Lemma OnNickIdentify_inv e u acts a :
  OnNickIdentify e u = Some acts → a ∈ acts →
  ∃ usr rest na proto,
    ForcePrefix.deref e u = Some usr ∧
    nick usr = String PREFIX_CHAR rest ∧
    acts = [a] ∧ a = SendForceNickChange u rest (CurTime e) ∧
    Quitting usr = false ∧
    NickAlias_Find e rest = Some na ∧
    nc na ≠ 0%N ∧ nc na = Account usr ∧
    IRCD e = Some proto ∧ CanSVSNick proto = true ∧
    (User_Find e rest = 0%N ∨ User_Find e rest = u).
Proof.
  unfold OnNickIdentify. intros Hid Ha.
  case_decide; [injection Hid as <-; by apply elem_of_nil in Ha|].
  destruct (ForcePrefix.deref e u) as [usr|] eqn:Husr; [|done].
  simpl in Hid.
  destruct (Quitting usr) eqn:Hq;
    [injection Hid as <-; by apply elem_of_nil in Ha|].
  destruct (nick usr) as [|c rest] eqn:Hnick; simpl in Hid;
    [injection Hid as <-; by apply elem_of_nil in Ha|].
  destruct (Ascii.eqb_spec c PREFIX_CHAR) as [->|_]; simpl in Hid;
    [|injection Hid as <-; by apply elem_of_nil in Ha].
  destruct (NickAlias_Find e rest) as [na|] eqn:Hna;
    [|injection Hid as <-; by apply elem_of_nil in Ha].
  destruct (N.eqb_spec (nc na) 0) as [|Hnc]; simpl in Hid;
    [injection Hid as <-; by apply elem_of_nil in Ha|].
  destruct (N.eqb_spec (nc na) (Account usr)) as [Hown|]; simpl in Hid;
    [|injection Hid as <-; by apply elem_of_nil in Ha].
  destruct (IRCD e) as [proto|] eqn:Hproto;
    [|injection Hid as <-; by apply elem_of_nil in Ha].
  destruct (CanSVSNick proto) eqn:Hcan; simpl in Hid;
    [|injection Hid as <-; by apply elem_of_nil in Ha].
  destruct (negb (User_Find e rest =? 0)%N && negb (User_Find e rest =? u)%N)
    eqn:Hexist; injection Hid as <-; [by apply elem_of_nil in Ha|].
  apply list_elem_of_singleton in Ha as ->.
  exists usr, rest, na, proto. split_and!; try done.
  destruct (N.eqb_spec (User_Find e rest) 0); [by left|].
  destruct (N.eqb_spec (User_Find e rest) u); [by right|done].
Qed.

(** X25: what identifying restores, when it restores anything.  The
    identify hook and the login hook force at most one nick change, of the
    user they were called for, to the user's nick without its leading [~];
    they do so only when that nick is registered to the account the user is
    logged in to and is not the nick of another user. *)
Theorem identify_restores_own_nick e u acts a :
  OnNickIdentify e u = Some acts ∨ OnUserLogin e u = Some acts →
  a ∈ acts →
  ∃ usr rest na proto,
    ForcePrefix.deref e u = Some usr ∧
    nick usr = String PREFIX_CHAR rest ∧
    acts = [a] ∧ a = SendForceNickChange u rest (CurTime e) ∧
    Quitting usr = false ∧
    NickAlias_Find e rest = Some na ∧
    nc na ≠ 0%N ∧ nc na = Account usr ∧
    IRCD e = Some proto ∧ CanSVSNick proto = true ∧
    (User_Find e rest = 0%N ∨ User_Find e rest = u).
Proof.
  intros [Hid|Hlogin];
    [|change (OnUserLogin e u) with (OnNickIdentify e u) in Hlogin];
    by apply OnNickIdentify_inv.
Qed.

(** X26: prefix and back.  A user whose nick was forced to [~nick] without
    cutting gets [nick] back from either hook once the nick is registered
    to the account the user is logged in to, the IRCd can force nicks and no
    other user holds [nick]. *)
Theorem prefix_then_identify e u usr n t e' usr' na proto' :
  ForcePrefix.deref e u = Some usr →
  ApplyPrefix e u = Some [SendForceNickChange u n t] →
  (∀ proto, IRCD e = Some proto →
            MaxNick proto = 0 ∨ String.length (nick usr) < MaxNick proto) →
  ForcePrefix.deref e' u = Some usr' → nick usr' = n →
  Quitting usr' = false →
  NickAlias_Find e' (nick usr) = Some na →
  nc na ≠ 0%N → nc na = Account usr' →
  IRCD e' = Some proto' → CanSVSNick proto' = true →
  User_Find e' (nick usr) = 0%N ∨ User_Find e' (nick usr) = u →
  OnNickIdentify e' u = Some [SendForceNickChange u (nick usr) (CurTime e')] ∧
  OnUserLogin e' u = Some [SendForceNickChange u (nick usr) (CurTime e')].
Proof.
  intros Husr Hap Hfit Husr' Hnick Hq Hna Hnc Hown Hproto Hcan Hfree.
  destruct (ApplyPrefix_inv e u _ (SendForceNickChange u n t) Hap)
    as (usr0 & sv & proto & n0 & Husr0 & _ & Hp & _ & Ha & _ & _ & _ & _ & _
        & _ & _ & _ & Hfull & _); [apply list_elem_of_singleton; done|].
  injection Ha as -> ->.
  assert (usr0 = usr) as -> by congruence.
  rewrite (Hfull (Hfit proto Hp)) in Hnick.
  change (OnUserLogin e' u) with (OnNickIdentify e' u).
  assert (OnNickIdentify e' u
          = Some [SendForceNickChange u (nick usr) (CurTime e')]); [|done].
  unfold OnNickIdentify.
  assert (u ≠ 0%N) by (by destruct u).
  rewrite decide_False by done. rewrite Husr'. simpl. rewrite Hq, Hnick.
  simpl. rewrite Hna.
  destruct (N.eqb_spec (nc na) 0); [done|].
  destruct (N.eqb_spec (nc na) (Account usr')); [|done]. simpl.
  rewrite Hproto, Hcan. simpl.
  destruct Hfree as [-> | ->]; simpl; [done|].
  rewrite N.eqb_refl. simpl. by rewrite andb_false_r.
Qed.

End Prefix.

(** ** The further properties on the example network *)

Import Scenario.

Lemma table_ok_bound : table_ok (sessions st_bound).
Proof. apply (reachable_table_ok K0), reachable_bound. Qed.

Lemma reachable_sessions_unique_witness : 0 = 0.
Proof.
  apply (reachable_sessions_unique K0 st_bound 0 0
           (mkSession 1%N "AG" 0 0 1000 false)
           (mkSession 1%N "AG" 0 0 1000 false));
    [apply reachable_bound|reflexivity|reflexivity|discriminate|reflexivity].
Defined.

Lemma reachable_slots_bounded_witness :
  length (sessions st_bound) = 256 ∧
  (0 ≤ messages (mkSession 1%N "AG" 0 0 1000 false) ≤ 20)%Z ∧
  (0 ≤ failures (mkSession 1%N "AG" 0 0 1000 false) ≤ 2)%Z ∧
  (client (mkSession 1%N "AG" 0 0 1000 false) = NULL →
   mkSession 1%N "AG" 0 0 1000 false = session_zero).
Proof.
  apply (reachable_slots_bounded K0 st_bound 0);
    [apply reachable_bound|reflexivity].
Defined.

Lemma new_session_then_find_witness :
  sasl_find_session (sessions st_open) 1%N
  = Some (0, mkSession 1%N EmptyString 0 0 1000 false) ∧
  length (sessions st_open) = length (sessions st_idle) ∧
  ∀ c', c' ≠ 1%N → c' ≠ NULL →
        sasl_find_session (sessions st_open) c'
        = sasl_find_session (sessions st_idle) c'.
Proof.
  apply (new_session_then_find (sessions st_idle) 1%N 1000 0
           (sessions st_open)); [discriminate|reflexivity|reflexivity].
Defined.

Lemma new_session_none_iff_full_witness :
  sasl_new_session (sessions st_full) 4%N 1000 = None.
Proof.
  apply (proj2 (new_session_none_iff_full (sessions st_full) 4%N 1000)).
  unfold st_full. cbn [sessions]. apply Forall_fmap, Forall_forall.
  intros n _. unfold NULL. simpl. lia.
Defined.

Lemma clear_session_then_find_witness :
  sasl_find_session (sasl_clear_session (sessions st_bound) 0) 1%N = None ∧
  (∀ c', c' ≠ 1%N → c' ≠ NULL →
         sasl_find_session (sasl_clear_session (sessions st_bound) 0) c'
         = sasl_find_session (sessions st_bound) c') ∧
  ∀ c' time,
    is_Some (sasl_new_session (sasl_clear_session (sessions st_bound) 0)
               c' time).
Proof.
  apply (clear_session_then_find (sessions st_bound) 1%N 0
           (mkSession 1%N "AG" 0 0 1000 false));
    [apply table_ok_bound|discriminate|reflexivity].
Defined.

Lemma assign_uid_first_free_witness :
  ∃ h' src',
    assign_uid K0 host0 4%N carol = Some (h', src') ∧
    src' = mkClient "carol" "0HYAAAAAA" "ca" "example.com" "192.0.2.9" "*"
             CAP_SASL 0 false true ∧
    deref h' 4%N = Some src' ∧
    hash_find_id h' "0HYAAAAAA" = 4%N ∧
    hash_find_id h' "C1" = 1%N ∧
    uid_seq h' = ["0HYAAAAAB"; "0HYAAAAAC"].
Proof.
  destruct (assign_uid_first_free K0 host0 4%N carol eq_refl)
    as (_ & Hassign & Htotal).
  destruct (Htotal eq_refl "0HYAAAAAA") as [[h' src'] Hrun].
  { apply elem_of_cons. by left. }
  { reflexivity. }
  destruct (Hassign eq_refl h' src' Hrun)
    as (skipped & uid & Hseq & Hall & Hfree & _ & Hfits & Hn & Hu & Hh & Hsh
        & Ha & Hc & Hf & Hsv & Hl & Hderef & Hhash & Hother & _).
  assert (skipped = [] ∧ uid = "0HYAAAAAA"
          ∧ uid_seq h' = ["0HYAAAAAB"; "0HYAAAAAC"]) as (-> & -> & Hrest).
  { destruct skipped as [|u skipped].
    - simpl in Hseq. by injection Hseq as <- <-.
    - injection Hseq as <- _. apply Forall_cons in Hall as [Hu0 _].
      by destruct Hu0. }
  assert (id src' = "0HYAAAAAA") as Hid.
  { apply Hfits. vm_compute. lia. }
  exists h', src'. rewrite Hid in Hhash. split_and!; try done.
  - destruct src' as [n i u h sh ac cp fl sv lo]. simpl in *.
    by subst n i u h sh ac cp fl sv lo.
  - rewrite Hother; [reflexivity|]. rewrite Hid. discriminate.
Defined.

Lemma authenticate_select_opens_witness :
  ∃ i ss',
    mr_authenticate K0 st_idle 1%N ["AUTHENTICATE"; "PLAIN"]
    = Some (mkState host0 ss',
            [ToServers (":" +:+ me_id host0 +:+ " ENCAP * SASL " +:+ id alice
                        +:+ " * H " +:+ host alice +:+ " " +:+ sockhost alice);
             ToServers (":" +:+ me_id host0 +:+ " ENCAP * SASL " +:+ id alice
                        +:+ " * S " +:+ "PLAIN")]) ∧
    sasl_find_session ss' 1%N
    = Some (i, mkSession 1%N EmptyString 0 0 (now host0) false) ∧
    length ss' = length (sessions st_idle) ∧
    ∀ c', c' ≠ 1%N → c' ≠ NULL →
          sasl_find_session ss' c' = sasl_find_session (sessions st_idle) c'.
Proof.
  apply (authenticate_select_opens K0 st_idle 1%N alice
           ["AUTHENTICATE"; "PLAIN"] "PLAIN" host0 alice);
    try reflexivity; [discriminate|].
  intros Hfull. apply (Forall_lookup_1 _ _ 0 session_zero) in Hfull; done.
Defined.

Lemma authenticate_abort_witness :
  ∃ st' notice,
    mr_authenticate K0 st_bound 1%N ["AUTHENTICATE"; "*"]
    = Some (st', notice ++ [Numeric 1%N 906
                              (name alice +:+ " :SASL authentication aborted")])
    ∧ env st' = env st_bound ∧
    match sasl_find_session (sessions st_bound) 1%N with
    | Some (i, s) =>
        notice = (if decide (agent s ≠ EmptyString ∧ id alice ≠ EmptyString)
                  then [ToServers (abort_line (env st_bound) (id alice)
                                     (agent s))]
                  else [])
    | None => notice = [] ∧ st' = st_bound
    end ∧
    sasl_find_session (sessions st') 1%N = None ∧
    (∀ c', c' ≠ 1%N → c' ≠ NULL →
           sasl_find_session (sessions st') c'
           = sasl_find_session (sessions st_bound) c') ∧
    mr_authenticate K0 st' 1%N ["AUTHENTICATE"; "*"]
    = Some (st', [Numeric 1%N 906
                    (name alice +:+ " :SASL authentication aborted")]).
Proof.
  apply (authenticate_abort K0 st_bound 1%N alice ["AUTHENTICATE"; "*"]);
    [apply table_ok_bound|reflexivity..].
Defined.

Lemma client_exit_clears_witness :
  ∃ st' out,
    sasl_client_exit_hook st_bound 1%N = Some (st', out) ∧
    env st' = env st_bound ∧
    match sasl_find_session (sessions st_bound) 1%N with
    | Some (i, s) =>
        out = (if decide (agent s ≠ EmptyString ∧ id alice ≠ EmptyString)
               then [ToServers (abort_line (env st_bound) (id alice)
                                  (agent s))]
               else [])
    | None => out = [] ∧ st' = st_bound
    end ∧
    sasl_find_session (sessions st') 1%N = None ∧
    (∀ c', c' ≠ 1%N → c' ≠ NULL →
           sasl_find_session (sessions st') c'
           = sasl_find_session (sessions st_bound) c') ∧
    sasl_client_exit_hook st' 1%N = Some (st', []).
Proof.
  apply (client_exit_clears st_bound 1%N alice);
    [apply table_ok_bound|reflexivity].
Defined.

Lemma local_alice : local_target (env st_open) "C1" alice.
Proof. vm_compute. split_and!; done. Qed.

Lemma sasl_client_data_relayed_witness :
  (∃ st',
     me_sasl K0 st_open 2%N ["SASL"; "AG"; "C1"; "C"; "+"]
     = Some (st', [ToOne 1%N "AUTHENTICATE +"]) ∧
     env st' = env st_open ∧
     sessions st' !! 0%nat = Some (mkSession 1%N "AG" 0 0 1000 false)) ∧
  (∃ st',
     me_sasl K0 st_open 2%N ["SASL"; "AGENTAGENTAGENT"; "C1"; "C"; "+"]
     = Some (st', [ToOne 1%N "AUTHENTICATE +"]) ∧
     env st' = env st_open ∧
     sessions st' !! 0%nat
     = Some (mkSession 1%N "AGENTAGENTAG" 0 0 1000 false)) ∧
  (∃ st',
     me_sasl K0 st_bound 2%N ["SASL"; "AG2"; "C1"; "C"; "+"]
     = Some (st', [ToOne 1%N "AUTHENTICATE +"]) ∧
     st' = st_bound).
Proof.
  assert (hash_find_id host0 "C1" = 1%N) as Haddr
      by (vm_compute; reflexivity).
  split_and!.
  - destruct (sasl_client_data_relayed K0 st_open 2%N
                ["SASL"; "AG"; "C1"; "C"; "+"] "AG" "C1" "C" "+" alice
                eq_refl eq_refl eq_refl eq_refl local_alice eq_refl)
      as (st' & Hrun & Henv & _ & Hsess).
    rewrite find_alice_open in Hsess. destruct Hsess as [Hsess _].
    destruct (Hsess eq_refl)
      as (s' & Hi & _ & Hfit & Hc & Hm & Hf & Ht & Hco & _).
    exists st'. change (env st_open) with host0 in Hrun.
    rewrite Haddr in Hrun. split; [exact Hrun|]. split; [exact Henv|].
    rewrite Hi. f_equal. destruct s' as [c a m f t co]. simpl in *.
    subst c m f t co. f_equal. apply Hfit. vm_compute. lia.
  - destruct (sasl_client_data_relayed K0 st_open 2%N
                ["SASL"; "AGENTAGENTAGENT"; "C1"; "C"; "+"]
                "AGENTAGENTAGENT" "C1" "C" "+" alice
                eq_refl eq_refl eq_refl eq_refl local_alice eq_refl)
      as (st' & Hrun & Henv & _ & Hsess).
    rewrite find_alice_open in Hsess. destruct Hsess as [Hsess _].
    destruct (Hsess eq_refl)
      as (s' & Hi & Hcut & _ & Hc & Hm & Hf & Ht & Hco & _).
    exists st'. change (env st_open) with host0 in Hrun.
    rewrite Haddr in Hrun. split; [exact Hrun|]. split; [exact Henv|].
    rewrite Hi. f_equal. destruct s' as [c a m f t co]. simpl in *.
    subst c m f t co. f_equal.
    exact (cut_to_substring 12 "AGENTAGENTAGENT" a Hcut).
  - destruct (sasl_client_data_relayed K0 st_bound 2%N
                ["SASL"; "AG2"; "C1"; "C"; "+"] "AG2" "C1" "C" "+" alice
                eq_refl eq_refl eq_refl eq_refl
                (alice_is_local st_bound eq_refl) eq_refl)
      as (st' & Hrun & _ & _ & Hsess).
    rewrite find_alice_bound in Hsess. destruct Hsess as [_ Hsess].
    exists st'. change (env st_bound) with host0 in Hrun.
    rewrite Haddr in Hrun. split; [exact Hrun|].
    apply Hsess. discriminate.
Defined.


Lemma sasl_ignored_witness :
  dropped_silently st_open (me_sasl K0 st_open 2%N ["SASL"; "AG"; "C1"; "C"]).
Proof.
  apply (sasl_ignored K0 st_open 2%N ["SASL"; "AG"; "C1"; "C"] "C1" "C" alice);
    try reflexivity.
  - apply local_alice.
  - left. split; [by left|simpl; lia].
Defined.

Lemma sasl_login_sets_account_witness :
  (∃ st',
     me_sasl K0 st_idle 2%N ["SASL"; "AG"; "C1"; "L"; "alice"]
     = Some (st', []) ∧
     sessions st' = sessions st_idle ∧
     clients (env st') !! 1%positive
     = Some (mkClient "alice" "C1" "al" "example.org" "192.0.2.7" "alice"
               CAP_SASL 0 false true)) ∧
  (∃ st',
     me_sasl K0 st_idle 2%N
       ["SASL"; "AG"; "C1"; "L"; "abcdefghijklmnopqrstuvwxyz0123456789"]
     = Some (st', []) ∧
     sessions st' = sessions st_idle ∧
     clients (env st') !! 1%positive
     = Some (mkClient "alice" "C1" "al" "example.org" "192.0.2.7"
               "abcdefghijklmnopqrstuvwxyz0123" CAP_SASL 0 false true)).
Proof.
  split.
  - destruct (sasl_login_sets_account K0 st_idle 2%N
                ["SASL"; "AG"; "C1"; "L"; "alice"] "C1" "L" "alice" 1%positive
                alice eq_refl eq_refl eq_refl eq_refl eq_refl eq_refl eq_refl)
      as (st' & tc' & Hrun & Hsess & Hrec & _ & Hfit & Hn & Hid & Hu & Hh
          & Hsock & Hcap & Hfl & Hsrv & Hloc & _).
    exists st'. split; [exact Hrun|]. split; [exact Hsess|].
    rewrite Hrec. f_equal.
    destruct tc' as [n i u h sh ac cp fl sv lo]. simpl in *.
    subst n i u h sh cp fl sv lo. f_equal. apply Hfit. vm_compute. lia.
  - destruct (sasl_login_sets_account K0 st_idle 2%N
                ["SASL"; "AG"; "C1"; "L";
                 "abcdefghijklmnopqrstuvwxyz0123456789"]
                "C1" "L" "abcdefghijklmnopqrstuvwxyz0123456789" 1%positive
                alice eq_refl eq_refl eq_refl eq_refl eq_refl eq_refl eq_refl)
      as (st' & tc' & Hrun & Hsess & Hrec & Hstored & _ & Hn & Hid & Hu & Hh
          & Hsock & Hcap & Hfl & Hsrv & Hloc & _).
    exists st'. split; [exact Hrun|]. split; [exact Hsess|].
    rewrite Hrec. f_equal.
    destruct tc' as [n i u h sh ac cp fl sv lo]. simpl in *.
    subst n i u h sh cp fl sv lo. f_equal.
    exact (cut_to_substring 30 "abcdefghijklmnopqrstuvwxyz0123456789" ac
             Hstored).
Defined.

Lemma login_then_success_reports_account_witness :
  ∃ st1 st2 acc,
    acc = strlcpy (account alice) "alice" (sizeof_account K0) ∧
    me_sasl K0 st_open 2%N ["SASL"; "AG"; "C1"; "L"; "alice"]
    = Some (st1, []) ∧
    me_sasl K0 st1 2%N ["SASL"; "AG"; "C1"; "D"; "S"]
    = Some (st2,
            [Numeric 1%N 900
               (name alice +:+ " " +:+ name alice +:+ "!" +:+ username alice
                +:+ "@" +:+ host alice +:+ " " +:+ acc
                +:+ " :You are now logged in as " +:+ acc);
             Numeric 1%N 903
               (name alice +:+ " :SASL authentication successful")]).
Proof.
  apply (login_then_success_reports_account K0 st_open 2%N
           ["SASL"; "AG"; "C1"; "L"; "alice"] "C1" "L" "alice" 1%positive
           alice 2%N ["SASL"; "AG"; "C1"; "D"; "S"] "D" "S"); reflexivity.
Defined.

Lemma svslogin_untrusted_dropped_witness :
  dropped_silently st_open
    (me_svslogin K0 st_open 1%N
       ["SVSLOGIN"; "R1"; "*"; "*"; "*"; "mallory"]).
Proof.
  apply (svslogin_untrusted_dropped K0 st_open 1%N alice); reflexivity.
Defined.

Lemma svslogin_twice_witness :
  ∃ st1,
    me_svslogin K0 st_open 2%N
      ["SVSLOGIN"; "C1"; "*"; "*"; "cloak.example"; "alice"] = Some (st1, []) ∧
    me_svslogin K0 st1 2%N
      ["SVSLOGIN"; "C1"; "*"; "*"; "cloak.example"; "alice"] = Some (st1, []).
Proof.
  apply (svslogin_twice K0 st_open 2%N services
           ["SVSLOGIN"; "C1"; "*"; "*"; "cloak.example"; "alice"] "C1"
           1%positive alice); try reflexivity.
  by right.
Defined.

Lemma step_flooded :
  step K0 st_flooded ev_data
  = Some (st_idle,
          [Numeric 1%N 904 "alice :SASL message limit exceeded";
           ToServers ":0HY ENCAP * SASL C1 AG D A"]).
Proof. vm_compute. reflexivity. Qed.

Lemma outputs_of_a_step_witness :
  1%N = event_client st_flooded ev_data ∧
  is_Some (deref (env st_flooded) 1%N) ∧
  (904 = 900 ∨ 904 = 903 ∨ 904 = 904 ∨ 904 = 906)%Z.
Proof.
  apply (outputs_of_a_step K0 st_flooded ev_data st_idle _
           (Numeric 1%N 904 "alice :SASL message limit exceeded")
           step_flooded).
  apply elem_of_cons. by left.
Defined.

Lemma other_sessions_undisturbed_witness :
  sasl_find_session (sessions st_bound) 4%N
  = sasl_find_session (sessions st_open) 4%N.
Proof.
  apply (other_sessions_undisturbed K0 st_open ev_bind st_bound _ 4%N
           step_bind); discriminate.
Defined.

Lemma session_opened_by_authenticate_witness :
  ∃ parv src mech i,
    ev_select = EvAuthenticate 1%N parv ∧
    deref (env st_idle) 1%N = Some src ∧ HasCap src CAP_SASL = true ∧
    parv !! 1%nat = Some mech ∧ mech ≠ "*" ∧
    sasl_find_session (sessions st_open) 1%N
    = Some (i, mkSession 1%N EmptyString 0 0 (now (env st_open)) false).
Proof.
  apply (session_opened_by_authenticate K0 st_idle ev_select st_open _ 1%N
           step_select); [discriminate|reflexivity|].
  by exists (0, mkSession 1%N EmptyString 0 0 1000 false).
Defined.

(** Two failures in [alice]'s session. *)
Lemma two_failures_run :
  ∃ tr,
    run K0 st_open [ev_fail; ev_fail] = Some (tr, st_two_failures) ∧
    Forall (λ x, is_Some (sasl_find_session (sessions x.1.1) 1%N)) tr ∧
    failed_outcomes 1%N tr = 2.
Proof.
  eexists. split; [vm_compute; reflexivity|]. split.
  - apply (bool_decide_unpack _). vm_compute. exact I.
  - vm_compute. reflexivity.
Qed.

Lemma local_alice_later : local_target (env st_two_failures) "C1" alice.
Proof. vm_compute. split_and!; done. Qed.

Lemma three_strikes_witness :
  me_sasl K0 st_two_failures 2%N ["SASL"; "AG"; "C1"; "D"; "F"]
  = Some (set_sessions st_two_failures
            (<[0%nat := session_zero]> (sessions st_two_failures)),
          [Numeric 1%N 904 (name alice +:+ " :SASL authentication failed")]).
Proof.
  destruct two_failures_run as (tr & Hrun & Hall & Hcount).
  assert (sasl_find_session (sessions st_idle) 1%N = None) as Hnone
    by (vm_compute; reflexivity).
  assert (sasl_find_session (sessions st_two_failures) 1%N
          = Some (0, mkSession 1%N EmptyString 0 2 1000 false)) as Hfind
    by (vm_compute; reflexivity).
  assert (∀ data, ["SASL"; "AG"; "C1"; "D"; "F"] !! 4%nat = Some data →
                  char0 data ≠ "S"%char) as Hfail.
  { intros data [= <-]. discriminate. }
  exact (proj2 (proj2 (three_strikes K0 st_idle ev_select _ st_open
                         [ev_fail; ev_fail] tr st_two_failures 1%N 2%N
                         ["SASL"; "AG"; "C1"; "D"; "F"] "C1" "D" alice 0
                         (mkSession 1%N EmptyString 0 2 1000 false)
                         reachable_idle Hnone step_select Hrun Hall Hfind
                         eq_refl eq_refl eq_refl local_alice_later eq_refl
                         Hfail))
           Hcount).
Defined.

Lemma apply_prefix_forces_witness :
  ∃ usr sv proto n,
    ForcePrefix.deref e_connect 1%N = Some usr ∧
    ForcePrefix.server usr = Some sv ∧
    ForcePrefix.IRCD e_connect = Some proto ∧
    [ForcePrefix.SendForceNickChange 1%N "~bob" 5000]
    = [ForcePrefix.SendForceNickChange 1%N "~bob" 5000] ∧
    ForcePrefix.SendForceNickChange 1%N "~bob" 5000
    = ForcePrefix.SendForceNickChange 1%N n (ForcePrefix.CurTime e_connect) ∧
    ForcePrefix.Quitting usr = false ∧ ForcePrefix.IsULined sv = false ∧
    ForcePrefix.Account usr = 0%N ∧
    char0 (ForcePrefix.nick usr) ≠ ForcePrefix.PREFIX_CHAR ∧
    ForcePrefix.IsRegistered e_connect (ForcePrefix.nick usr) = false ∧
    ForcePrefix.CanSVSNick proto = true ∧
    char0 n = ForcePrefix.PREFIX_CHAR ∧
    (ForcePrefix.MaxNick proto ≠ 0 →
     String.length n ≤ ForcePrefix.MaxNick proto) ∧
    (ForcePrefix.MaxNick proto = 0
     ∨ String.length (ForcePrefix.nick usr) < ForcePrefix.MaxNick proto →
     n = String ForcePrefix.PREFIX_CHAR (ForcePrefix.nick usr)) ∧
    ForcePrefix.IsNickValid proto n = true ∧
    ForcePrefix.IsRegistered e_connect n = false ∧
    (ForcePrefix.User_Find e_connect n = 0%N
     ∨ ForcePrefix.User_Find e_connect n = 1%N).
Proof.
  apply (apply_prefix_forces e_connect 1%N
           [ForcePrefix.SendForceNickChange 1%N "~bob" 5000]
           (ForcePrefix.SendForceNickChange 1%N "~bob" 5000)).
  - vm_compute. reflexivity.
  - apply elem_of_cons. by left.
Defined.

Lemma apply_prefix_settles_witness :
  ForcePrefix.ApplyPrefix e_identified 1%N = Some [] ∧
  ForcePrefix.OnUserNickChange e_identified 1%N "bob" = Some [].
Proof.
  apply (apply_prefix_settles e_connect 1%N 1%N "~bob" 5000 e_identified
           (ForcePrefix.mkUser "~bob" (Some (ForcePrefix.mkServer false true))
              false 7%N) "bob"); reflexivity.
Defined.

Lemma identify_restores_own_nick_witness :
  ∃ usr rest na proto,
    ForcePrefix.deref e_identified 1%N = Some usr ∧
    ForcePrefix.nick usr = String ForcePrefix.PREFIX_CHAR rest ∧
    [ForcePrefix.SendForceNickChange 1%N "bob" 5060]
    = [ForcePrefix.SendForceNickChange 1%N "bob" 5060] ∧
    ForcePrefix.SendForceNickChange 1%N "bob" 5060
    = ForcePrefix.SendForceNickChange 1%N rest
        (ForcePrefix.CurTime e_identified) ∧
    ForcePrefix.Quitting usr = false ∧
    ForcePrefix.NickAlias_Find e_identified rest = Some na ∧
    ForcePrefix.nc na ≠ 0%N ∧ ForcePrefix.nc na = ForcePrefix.Account usr ∧
    ForcePrefix.IRCD e_identified = Some proto ∧
    ForcePrefix.CanSVSNick proto = true ∧
    (ForcePrefix.User_Find e_identified rest = 0%N
     ∨ ForcePrefix.User_Find e_identified rest = 1%N).
Proof.
  apply (identify_restores_own_nick e_identified 1%N
           [ForcePrefix.SendForceNickChange 1%N "bob" 5060]
           (ForcePrefix.SendForceNickChange 1%N "bob" 5060)).
  - left. vm_compute. reflexivity.
  - apply elem_of_cons. by left.
Defined.

Lemma prefix_then_identify_witness :
  ForcePrefix.OnNickIdentify e_identified 1%N
  = Some [ForcePrefix.SendForceNickChange 1%N
            (ForcePrefix.nick (ForcePrefix.mkUser "bob"
               (Some (ForcePrefix.mkServer false true)) false 0%N))
            (ForcePrefix.CurTime e_identified)] ∧
  ForcePrefix.OnUserLogin e_identified 1%N
  = Some [ForcePrefix.SendForceNickChange 1%N
            (ForcePrefix.nick (ForcePrefix.mkUser "bob"
               (Some (ForcePrefix.mkServer false true)) false 0%N))
            (ForcePrefix.CurTime e_identified)].
Proof.
  apply (prefix_then_identify e_connect 1%N
           (ForcePrefix.mkUser "bob" (Some (ForcePrefix.mkServer false true))
              false 0%N)
           "~bob" 5000 e_identified
           (ForcePrefix.mkUser "~bob" (Some (ForcePrefix.mkServer false true))
              false 7%N)
           (ForcePrefix.mkAlias 7%N) (ForcePrefix.mkProto true 30 (λ _, true)));
    try reflexivity.
  - intros proto [= <-]. right. simpl. lia.
  - discriminate.
  - by left.
Defined.
